(** * DigiMovie stream add-on: title matching, link extraction, provider
      session and forwarding proxy

    A shallow embedding of the JavaScript sources:
    - [index.js]: [normalizeTitle] and the scoring of search results in the
      stream handler;
    - [sources/digimovie.js]: [isLogin], [login], [getMovieData],
      [getMovieLinks], [getSeriesLinks], [getLinks];
    - the proxy server: the allowlist check before and after the fetch.

    Strings are sequences of code units.  The model keeps the code units
    U+0000 to U+00FF (Rocq's [ascii], read as Latin-1), on which
    [toLowerCase] works unit by unit and the white space of [\s] and of
    [trim] is the seven characters of [isWhiteSpace].  Numbers are the
    integers among the doubles: an integer read from a text is rounded to
    the nearest double and printed as the language prints that double. *)

From Stdlib Require Import String Ascii List ZArith NArith Bool Lia.
From Stdlib Require Import DecimalString Permutation.
Import ListNotations.

Open Scope string_scope.

(** Method chains [s.f().g()] read left to right. *)
Notation "x |> f" := (f x) (at level 71, left associativity, only parsing).

(* ===================================================================== *)
(** ** The string methods the sources call *)
(* ===================================================================== *)

Module JsString.

(** [\s] and the characters [trim] removes, below U+0100: TAB, LF, VT, FF,
    CR, SPACE and NO-BREAK SPACE. *)
Definition isWhiteSpace (c : ascii) : bool :=
  let n := N_of_ascii c in
  (((9 <=? n) && (n <=? 13)) || (n =? 32) || (n =? 160))%N.

(** [toLowerCase] on one code unit: A-Z, and the Latin-1 capitals U+00C0 to
    U+00DE without the multiplication sign U+00D7. *)
Definition lowerChar (c : ascii) : ascii :=
  let n := N_of_ascii c in
  if (((65 <=? n) && (n <=? 90))
      || ((192 <=? n) && (n <=? 222) && negb (n =? 215)))%N
  then ascii_of_N (n + 32)
  else c.

Fixpoint mapChars (f : ascii -> ascii) (s : string) : string :=
  match s with
  | EmptyString => EmptyString
  | String c r => String (f c) (mapChars f r)
  end.

Definition toLowerCase (s : string) : string := mapChars lowerChar s.

(** [s.replace(/c/g, by)] for a one-character pattern. *)
Fixpoint replaceAllChar (c : ascii) (by_ : string) (s : string) : string :=
  match s with
  | EmptyString => EmptyString
  | String a r =>
      if Ascii.eqb a c then by_ ++ replaceAllChar c by_ r
      else String a (replaceAllChar c by_ r)
  end.

(** [s.replace(c, by)] with a string pattern of one character: the first
    occurrence only. *)
Fixpoint replaceFirstChar (c : ascii) (by_ : string) (s : string) : string :=
  match s with
  | EmptyString => EmptyString
  | String a r =>
      if Ascii.eqb a c then by_ ++ r
      else String a (replaceFirstChar c by_ r)
  end.

Fixpoint startsWith (s p : string) {struct p} : bool :=
  match p with
  | EmptyString => true
  | String b p' =>
      match s with
      | EmptyString => false
      | String a s' => Ascii.eqb a b && startsWith s' p'
      end
  end.

Fixpoint includes (s p : string) : bool :=
  startsWith s p
  || match s with
     | EmptyString => false
     | String _ s' => includes s' p
     end.

Fixpoint endsWith (s p : string) : bool :=
  String.eqb s p
  || match s with
     | EmptyString => false
     | String _ s' => endsWith s' p
     end.

(** [s.split(sep)] for a separator of one character: never the empty
    array, [""] splits to [[""]]. *)
Fixpoint split (sep : ascii) (s : string) : list string :=
  match s with
  | EmptyString => [EmptyString]
  | String c r =>
      if Ascii.eqb c sep then EmptyString :: split sep r
      else match split sep r with
           | h :: t => String c h :: t
           | [] => [String c EmptyString]
           end
  end.

Fixpoint trimStart (s : string) : string :=
  match s with
  | EmptyString => EmptyString
  | String c r => if isWhiteSpace c then trimStart r else s
  end.

Fixpoint trimEnd (s : string) : string :=
  match s with
  | EmptyString => EmptyString
  | String c r =>
      match trimEnd r with
      | EmptyString => if isWhiteSpace c then EmptyString else String c EmptyString
      | r' => String c r'
      end
  end.

Definition trim (s : string) : string := trimEnd (trimStart s).

(** The decimal digits of an integer, with its sign. *)
Definition decimal (z : Z) : string := NilZero.string_of_int (Z.to_int z).

End JsString.

(* ===================================================================== *)
(** ** index.js: title normalisation and scoring *)
(* ===================================================================== *)

Module Title.
Import JsString.

(** The prefix of a [/^word.../i] match: [word] is in lower case, and a
    code unit matches a letter of it when its lower case is that letter. *)
Fixpoint dropPrefixCI (word s : string) {struct word} : option string :=
  match word with
  | EmptyString => Some s
  | String w word' =>
      match s with
      | EmptyString => None
      | String c s' =>
          if Ascii.eqb (lowerChar c) w then dropPrefixCI word' s' else None
      end
  end.

(** [s.replace(/^word\s+/i, "")]: the word, then the longest run of white
    space after it, which has at least one character. *)
Definition stripLeading (word s : string) : string :=
  match dropPrefixCI word s with
  | Some (String c rest) => if isWhiteSpace c then trimStart rest else s
  | _ => s
  end.

(** [s.replace(/[:\-\.]/g, " ")]. *)
Definition isPunct (c : ascii) : bool :=
  Ascii.eqb c ":" || Ascii.eqb c "-" || Ascii.eqb c ".".

Definition punctToSpace (s : string) : string :=
  mapChars (fun c => if isPunct c then " "%char else c) s.

(** [s.replace(/\s+/g, " ")]: every maximal run of white space becomes one
    space; [inRun] says that the previous character was white space. *)
Fixpoint collapseFrom (inRun : bool) (s : string) : string :=
  match s with
  | EmptyString => EmptyString
  | String c r =>
      if isWhiteSpace c
      then if inRun then collapseFrom true r
           else String " " (collapseFrom true r)
      else String c (collapseFrom false r)
  end.

Definition collapseWhiteSpace (s : string) : string := collapseFrom false s.

(** [normalizeTitle(str)], index.js. *)
Definition normalizeTitle (str : string) : string :=
  if String.eqb str "" then ""
  else
    str
    |> toLowerCase
    |> replaceAllChar "&" "and"
    |> stripLeading "the"
    |> stripLeading "a"
    |> stripLeading "an"
    |> punctToSpace
    |> collapseWhiteSpace
    |> trim.

(** A search result as [Digimovie.search] builds it; [poster], [id] and
    [genres] take no part in the scoring. *)
Record searchItem := {
  name : string;
  type : string;
}.

(** The body of [searchResults.map((item) => ...)] of the stream handler:
    the score of one item for the requested [type] and the normalised
    search title. *)
Definition scoreItem (reqType normalizedSearchTitle : string)
    (item : searchItem) : Z :=
  let score := 0%Z in
  let normalizedItemName := normalizeTitle (name item) in
  let score :=
    if String.eqb (type item) reqType then (score + 100)%Z
    else (score - 50)%Z in
  let score :=
    if String.eqb normalizedItemName normalizedSearchTitle
    then (score + 60)%Z
    else if startsWith normalizedItemName normalizedSearchTitle
    then (score + 20)%Z
    else if includes normalizedItemName normalizedSearchTitle
    then (score + 10)%Z
    else score in
  score.

End Title.

(* ===================================================================== *)
(** ** The values a provider payload is made of *)
(* ===================================================================== *)

Module Json.
Import JsString.

#[local] Set Warnings "-register-all".

(** A Number that is an integer, [NaN] or an infinity: the numbers that
    [parseInt] and [JSON.parse] of an integer literal give, and [- 1]
    keeps.  Up to [2 ^ 53] every integer is a double; past it a double is
    a significand of 53 bits times a power of two, and from [2 ^ 1024] on
    there is none. *)
Inductive number : Type :=
| NaN
| Int (z : Z)
| Infinity (negative : bool).

Definition twoTo53 : Z := 9007199254740992.
Definition twoTo1024 : Z := 2 ^ 1024.

(** The double nearest to a positive integer, ties to the even
    significand; [None] when it is too large for a double. *)
Definition nearestDouble (a : Z) : option Z :=
  if (a <? twoTo53)%Z then Some a
  else
    let e := (Z.log2 a - 52)%Z in
    let q := (a / 2 ^ e)%Z in
    let r := (a mod 2 ^ e)%Z in
    let half := (2 ^ (e - 1))%Z in
    let q' := if (half <? r)%Z || ((r =? half)%Z && Z.odd q) then (q + 1)%Z
              else q in
    let d := (q' * 2 ^ e)%Z in
    if (d <? twoTo1024)%Z then Some d else None.

(** The decimal with [k] significant digits nearest to the double [a], of
    [d] digits, when it reads back as [a]. *)
Definition shortCandidate (a d k : Z) : option Z :=
  if (d <=? k)%Z then Some a
  else
    let unit := (10 ^ (d - k))%Z in
    let lo := (a / unit * unit)%Z in
    let hi := (lo + unit)%Z in
    let okLo := match nearestDouble lo with
                | Some x => (x =? a)%Z
                | None => false
                end in
    let okHi := match nearestDouble hi with
                | Some x => (x =? a)%Z
                | None => false
                end in
    if okLo && okHi
    then if (a - lo <? hi - a)%Z then Some lo
         else if (hi - a <? a - lo)%Z then Some hi
         else if Z.even (lo / unit) then Some lo else Some hi
    else if okLo then Some lo
    else if okHi then Some hi
    else None.

(** The search for the least number of digits, from [k] on. *)
Fixpoint shortest (tries : nat) (a d k : Z) : Z :=
  match tries with
  | O => a
  | S tries' =>
      match shortCandidate a d k with
      | Some y => y
      | None => shortest tries' a d (k + 1)
      end
  end.

(** A string of digits without the zeros at its end. *)
Fixpoint dropZeros (s : string) : string :=
  match s with
  | EmptyString => EmptyString
  | String c r =>
      match dropZeros r with
      | EmptyString => if Ascii.eqb c "0" then EmptyString else String c EmptyString
      | r' => String c r'
      end
  end.

(** [Number::toString] of a positive integer double: the digits of the
    shortest decimal that reads back as the double, as they are up to 21
    digits and with an exponent past that. *)
Definition positiveToString (a : Z) : string :=
  let y := if (a <? twoTo53)%Z then a
           else shortest 17 a (Z.of_nat (String.length (decimal a))) 1 in
  let digits := decimal y in
  let n := Z.of_nat (String.length digits) in
  if (n <=? 21)%Z then digits
  else
    match dropZeros digits with
    | String c EmptyString => String c ("e+" ++ decimal (n - 1))
    | String c r => String c ("." ++ r ++ "e+" ++ decimal (n - 1))
    | EmptyString => digits
    end.

(** The Number value of a mathematical integer. *)
Definition toNumber (z : Z) : number :=
  match nearestDouble (Z.abs z) with
  | Some a => Int (Z.sgn z * a)
  | None => Infinity (z <? 0)%Z
  end.

(** [Number::toString]. *)
Definition numberToString (n : number) : string :=
  match n with
  | NaN => "NaN"
  | Int z =>
      if (z =? 0)%Z then "0"
      else if (z <? 0)%Z then "-" ++ positiveToString (- z)
      else positiveToString z
  | Infinity negative => if negative then "-Infinity" else "Infinity"
  end.

(** What [JSON.parse] builds, and [undefined] for a property that is not
    there.  A number is given by the integer literal of the text and is
    the double nearest to it, [toNumber n]; an object is the list of its
    own properties, each key once. *)
Inductive value : Type :=
| VUndefined
| VNull
| VBool (b : bool)
| VNum (n : Z)
| VStr (s : string)
| VArr (items : list value)
| VObj (fields : list (string * value)).

(** The outcome of an expression or a call: a value, or a thrown
    [TypeError] (the one exception these functions can throw). *)
Inductive result (A : Type) : Type :=
| Ok (a : A)
| TypeError.
Arguments Ok {A} a.
Arguments TypeError {A}.

Definition bind {A B : Type} (r : result A) (k : A -> result B) : result B :=
  match r with
  | Ok a => k a
  | TypeError => TypeError
  end.

Notation "x <- r ;; k" := (bind r (fun x => k))
  (at level 100, r at next level, right associativity).

(** [!!v]. *)
Definition truthy (v : value) : bool :=
  match v with
  | VUndefined | VNull => false
  | VBool b => b
  | VNum n => negb (n =? 0)%Z
  | VStr s => negb (String.eqb s "")
  | VArr _ | VObj _ => true
  end.

Fixpoint lookup (key : string) (fields : list (string * value)) : value :=
  match fields with
  | [] => VUndefined
  | (k, v) :: rest => if String.eqb k key then v else lookup key rest
  end.

Fixpoint hasOwn (key : string) (fields : list (string * value)) : bool :=
  match fields with
  | [] => false
  | (k, _) :: rest => String.eqb k key || hasOwn key rest
  end.

(** [v.key] for the property names the sources read ([status],
    [movie_download_urls], [quality], [links], [movie], ...): none of them
    is a property of a prototype, so only an object's own property is ever
    found.  Reading a property of [undefined] or [null] throws. *)
Definition getProp (v : value) (key : string) : result value :=
  match v with
  | VUndefined | VNull => TypeError
  | VObj fields => Ok (lookup key fields)
  | VBool _ | VNum _ | VStr _ | VArr _ => Ok VUndefined
  end.

(** [v?.key]. *)
Definition getPropOpt (v : value) (key : string) : value :=
  match getProp v key with
  | Ok x => x
  | TypeError => VUndefined
  end.

(** [ToString(v)], as [v + " - "] and a template literal compute it.  An
    array is joined with commas, [null] and [undefined] elements as the
    empty string.  A parsed object has no method of its own: with an own
    property named [toString] the inherited method is hidden and the
    conversion throws, otherwise it gives [[object Object]]. *)
Fixpoint toString (v : value) : result string :=
  match v with
  | VUndefined => Ok "undefined"
  | VNull => Ok "null"
  | VBool b => Ok (if b then "true" else "false")
  | VNum n => Ok (numberToString (toNumber n))
  | VStr s => Ok s
  | VArr items =>
      (fix join (l : list value) : result string :=
         match l with
         | [] => Ok ""
         | x :: rest =>
             sx <- match x with
                   | VUndefined | VNull => Ok ""
                   | _ => toString x
                   end ;;
             match rest with
             | [] => Ok sx
             | _ :: _ => sr <- join rest ;; Ok (sx ++ "," ++ sr)
             end
         end) items
  | VObj fields =>
      if hasOwn "toString" fields then TypeError else Ok "[object Object]"
  end.

Definition digitValue (radix : Z) (c : ascii) : option Z :=
  let n := Z.of_N (N_of_ascii c) in
  let d :=
    if ((48 <=? n) && (n <=? 57))%Z then Some (n - 48)%Z
    else if ((97 <=? n) && (n <=? 122))%Z then Some (n - 87)%Z
    else if ((65 <=? n) && (n <=? 90))%Z then Some (n - 55)%Z
    else None in
  match d with
  | Some v => if (v <? radix)%Z then Some v else None
  | None => None
  end.

(** The longest prefix of digits of the radix, as an integer; [acc] is
    [None] until a digit has been read. *)
Fixpoint parseDigits (radix : Z) (acc : option Z) (s : string) : option Z :=
  match s with
  | EmptyString => acc
  | String c r =>
      match digitValue radix c with
      | Some d =>
          parseDigits radix
            (Some match acc with
                  | Some a => (a * radix + d)%Z
                  | None => d
                  end) r
      | None => acc
      end
  end.

(** [parseInt(s)] with no radix: leading white space, a sign, [0x] or [0X]
    for radix 16, then the digits; [NaN] without a digit, and else the
    Number value of the integer read. *)
Definition parseInt (s : string) : number :=
  let s := trimStart s in
  let '(sign, s) :=
    match s with
    | String "-" r => ((-1)%Z, r)
    | String "+" r => (1%Z, r)
    | _ => (1%Z, s)
    end in
  let '(radix, s) :=
    match s with
    | String "0" (String x r) =>
        if Ascii.eqb x "x" || Ascii.eqb x "X" then (16%Z, r) else (10%Z, s)
    | _ => (10%Z, s)
    end in
  match parseDigits radix None s with
  | Some m => toNumber (sign * m)
  | None => NaN
  end.

(** [n - 1]. *)
Definition pred (n : number) : number :=
  match n with
  | NaN => NaN
  | Int z => toNumber (z - 1)
  | Infinity negative => Infinity negative
  end.

(** [v[n]] for a [v] that is neither [undefined] nor [null]: an element of
    an array, a character of a string, the property of an object whose
    key is the number's string.  The indices of an array end before
    [2 ^ 32 - 1]. *)
Definition getIndex (v : value) (n : number) : value :=
  match v with
  | VArr items =>
      match n with
      | Int z => if ((0 <=? z) && (z <? 4294967295))%Z
                 then nth (Z.to_nat z) items VUndefined
                 else VUndefined
      | NaN | Infinity _ => VUndefined
      end
  | VStr s =>
      match n with
      | Int z =>
          if (0 <=? z)%Z
          then match String.get (Z.to_nat z) s with
               | Some c => VStr (String c EmptyString)
               | None => VUndefined
               end
          else VUndefined
      | NaN | Infinity _ => VUndefined
      end
  | VObj fields => lookup (numberToString n) fields
  | VUndefined | VNull | VBool _ | VNum _ => VUndefined
  end.

End Json.

(* ===================================================================== *)
(** ** sources/digimovie.js: link extraction *)
(* ===================================================================== *)

Module Links.
Import JsString Json.

(** A stream link [{ url, title }]: the title is always a string built by
    concatenation, the url is whatever the payload holds. *)
Record link := {
  url : value;
  title : string;
}.

(** The characters of a string as [for ... of] yields them. *)
Fixpoint chars (s : string) : list value :=
  match s with
  | EmptyString => []
  | String c r => VStr (String c EmptyString) :: chars r
  end.

(** What [for (const item of v)] iterates over; a value that is not
    iterable throws. *)
Definition iterate (v : value) : result (list value) :=
  match v with
  | VArr items => Ok items
  | VStr s => Ok (chars s)
  | _ => TypeError
  end.

(** The body of the loop of [getMovieLinks]: the title grows by [+=], the
    url is [item.file]. *)
Definition movieLink (item : value) : result link :=
  quality <- getProp item "quality" ;;
  q <- toString quality ;;
  let title := q ++ " - " in
  size <- getProp item "size" ;;
  s <- toString size ;;
  let title := title ++ (s ++ " - ") in
  encode <- getProp item "encode" ;;
  e <- toString encode ;;
  let title := title ++ (e ++ " - ") in
  label <- getProp item "label" ;;
  l <- toString label ;;
  let title := title ++ l in
  file <- getProp item "file" ;;
  Ok {| url := file; title := title |}.

(** The loop of [getMovieLinks]: nothing catches a throw of the body. *)
Fixpoint movieLoop (items : list value) (links : list link)
    : result (list link) :=
  match items with
  | [] => Ok links
  | item :: rest =>
      l <- movieLink item ;;
      movieLoop rest (links ++ [l])%list
  end.

(** [getMovieLinks(movieData)]. *)
Definition getMovieLinks (movieData : value) : result (list link) :=
  let links := [] in
  if negb (truthy movieData)
     || negb (truthy (getPropOpt movieData "movie_download_urls"))
  then Ok links
  else
    urls <- getProp movieData "movie_download_urls" ;;
    items <- iterate urls ;;
    movieLoop items links.

(** [season] and [episode] of [getSeriesLinks]: 1 and 1 unless the id
    splits into three parts or more. *)
Definition seasonEpisode (imdbId : string) : number * number :=
  let parts := split ":" imdbId in
  if (3 <=? List.length parts)%nat
  then (parseInt (nth 1 parts ""), parseInt (nth 2 parts ""))
  else (Int 1, Int 1).

(** The callback of [filter]:
    [i.season_name.replace(" ", "").includes(seasonTitle)]. *)
Definition seasonMatches (seasonTitle : string) (i : value) : result bool :=
  season_name <- getProp i "season_name" ;;
  match season_name with
  | VStr s => Ok (includes (replaceFirstChar " " "" s) seasonTitle)
  | _ => TypeError
  end.

(** [array.filter(callback)]: the callback runs on every element, in
    order, before the loop starts. *)
Fixpoint filterItems (seasonTitle : string) (items : list value)
    : result (list value) :=
  match items with
  | [] => Ok []
  | i :: rest =>
      keep <- seasonMatches seasonTitle i ;;
      kept <- filterItems seasonTitle rest ;;
      Ok (if keep then i :: kept else kept)
  end.

(** [v.filter(...)] on the value of [serie_download_urls]: only an array
    has the method. *)
Definition filterOf (seasonTitle : string) (v : value) : result (list value) :=
  match v with
  | VArr items => filterItems seasonTitle items
  | _ => TypeError
  end.

(** One round of the loop of [getSeriesLinks]: [None] when the bucket has
    no entry at [episode - 1] and nothing is pushed. *)
Definition seriesLink (episode : number) (item : value)
    : result (option link) :=
  quality <- getProp item "quality" ;;
  q <- toString quality ;;
  size <- getProp item "size" ;;
  s <- toString size ;;
  let title := (q ++ " - ") ++ s in
  links <- getProp item "links" ;;
  if truthy links && truthy (getIndex links (pred episode))
  then
    movie <- getProp (getIndex links (pred episode)) "movie" ;;
    Ok (Some {| url := movie; title := title |})
  else Ok None.

(** The loop of [getSeriesLinks] over the filtered buckets.  [links] is
    declared outside the [try], so what was pushed before a throw stays:
    the second component says whether the loop completed. *)
Fixpoint seriesLoop (episode : number) (items : list value)
    (links : list link) : list link * result unit :=
  match items with
  | [] => (links, Ok tt)
  | item :: rest =>
      match seriesLink episode item with
      | Ok (Some l) => seriesLoop episode rest (links ++ [l])%list
      | Ok None => seriesLoop episode rest links
      | TypeError => (links, TypeError)
      end
  end.

(** The [try] block of [getSeriesLinks]. *)
Definition seriesTry (movieData : value) (imdbId : string)
    : list link * result unit :=
  let links := [] in
  let '(season, episode) := seasonEpisode imdbId in
  let seasonTitle := ":" ++ numberToString season in
  if truthy movieData && truthy (getPropOpt movieData "serie_download_urls")
  then
    match filterOf seasonTitle (getPropOpt movieData "serie_download_urls") with
    | Ok items => seriesLoop episode items links
    | TypeError => (links, TypeError)
    end
  else (links, Ok tt).

(** [getSeriesLinks(movieData, imdbId)]: the [catch] block logs
    [`... ${movieData}, ${imdbId}`], a conversion of the payload to a
    string that can throw in its turn. *)
Definition getSeriesLinks (movieData : value) (imdbId : string)
    : result (list link) :=
  match seriesTry movieData imdbId with
  | (links, Ok _) => Ok links
  | (links, TypeError) =>
      _ <- toString movieData ;;
      Ok links
  end.

(** [getLinks(type, imdbId, movieData)]. *)
Definition getLinks (type imdbId : string) (movieData : value)
    : result (list link) :=
  if String.eqb type "movie" then getMovieLinks movieData
  else if String.eqb type "series" then getSeriesLinks movieData imdbId
  else Ok [].

End Links.

(* ===================================================================== *)
(** ** sources/digimovie.js: the provider session *)
(* ===================================================================== *)

Module Provider.
Import Json.

(** The requests of the class, by endpoint, with what each one sends. *)
Inductive request : Type :=
| GetProfile (authorization : value)
| PostLogin (username password : value)
| GetMovieDetail (authorization : value) (movie_id : value).

(** What the network gives back: a response with its status and parsed
    body, or none (no connection, a timeout, too many redirects). *)
Inductive reply : Type :=
| Response (status : Z) (data : value)
| NoResponse.

(** How an Axios call ends: resolved with [res.data], or rejected with
    [e.response], if there is one. *)
Inductive settled : Type :=
| Resolved (data : value)
| Rejected (response : option (Z * value)).

(** The fields of a [Digimovie] object. *)
Record digimovie := {
  username : value;
  password : value;
  token : value;
  refreshToken : value;
}.

(** The object and the requests sent so far, oldest first. *)
Record state := {
  self : digimovie;
  calls : list request;
}.

Definition M (A : Type) : Type := state -> A * state.

Definition ret {A : Type} (a : A) : M A := fun st => (a, st).

Definition mbind {A B : Type} (m : M A) (k : A -> M B) : M B :=
  fun st => let '(a, st') := m st in k a st'.

Notation "x <-- m ;; k" := (mbind m (fun x => k))
  (at level 100, m at next level, right associativity).

Definition getSelf : M digimovie := fun st => (self st, st).

Definition setTokens (auth_token refresh_token : value) : M unit :=
  fun st =>
    (tt, {| self := {| username := username (self st);
                       password := password (self st);
                       token := auth_token;
                       refreshToken := refresh_token |};
            calls := calls st |}).

(** [validateStatus: (status) => status >= 200 && status < 400], and the
    default of Axios, which accepts 2xx only. *)
Definition below400 (status : Z) : bool :=
  ((200 <=? status) && (status <? 400))%Z.

Definition below300 (status : Z) : bool :=
  ((200 <=? status) && (status <? 300))%Z.

Section Network.

(** The provider: its reply to a request, given how many requests were
    sent before it. *)
Variable net : nat -> request -> reply.

(** [await Axios.request({...})]. *)
Definition axios (validateStatus : Z -> bool) (req : request) : M settled :=
  fun st =>
    let st' := {| self := self st; calls := (calls st ++ [req])%list |} in
    match net (List.length (calls st)) req with
    | Response status data =>
        if validateStatus status then (Resolved data, st')
        else (Rejected (Some (status, data)), st')
    | NoResponse => (Rejected None, st')
    end.

(** [isLogin()].  The debug line of the [try] block builds
    [`... ${this.token}`] before [return true]: when the token does not
    convert to a string the throw is caught by the empty [catch], and the
    function goes on to [return false]. *)
Definition isLogin : M bool :=
  this <-- getSelf ;;
  if negb (truthy (token this)) then ret false
  else
    res <-- axios below400 (GetProfile (token this)) ;;
    match res with
    | Resolved data =>
        if truthy (getPropOpt data "status")
        then match toString (token this) with
             | Ok _ => ret true
             | TypeError => ret false
             end
        else ret false
    | Rejected _ => ret false
    end.

(** [login()].  In the [try] block the two fields are assigned first and
    the info line builds [`... ${this.token}`] after that: when the new
    token does not convert to a string the throw is caught, and the
    function returns false with both fields already overwritten.  The
    debug line after [isLogin()] converts the stored token once more,
    outside the [try]; [isLogin] has returned true only after the same
    conversion of the same token, so that one cannot throw. *)
Definition login : M bool :=
  this <-- getSelf ;;
  if negb (truthy (username this)) || negb (truthy (password this))
  then ret false
  else
    isLogin_ <-- isLogin ;;
    if (isLogin_ : bool) then ret true
    else
      res <-- axios below400 (PostLogin (username this) (password this)) ;;
      match res with
      | Resolved data =>
          if truthy (getPropOpt data "status")
          then
            _ <-- setTokens (getPropOpt data "auth_token")
                            (getPropOpt data "refresh_token") ;;
            this <-- getSelf ;;
            match toString (token this) with
            | Ok _ => ret true
            | TypeError => ret false
            end
          else ret false
      | Rejected _ => ret false
      end.

(** [getMovieData(type, id)]; [type] is not used.  The function calls
    itself, so the model counts the calls it may still make: [None] when
    [fuel] calls were not enough to return, [Some VNull] for [null].  The
    debug line at the head of the [try] block builds [`... ${id}`]: for an
    id that does not convert to a string the throw is caught before any
    request, the error has no [response], and the function returns
    [null]. *)
Fixpoint getMovieData (fuel : nat) (id : value) : M (option value) :=
  match fuel with
  | O => ret None
  | S fuel' =>
      this <-- getSelf ;;
      match toString id with
      | TypeError => ret (Some VNull)
      | Ok _ =>
          res <-- axios below300 (GetMovieDetail (token this) id) ;;
          match res with
          | Resolved data =>
              if truthy (getPropOpt data "status") then ret (Some data)
              else ret (Some VNull)
          | Rejected (Some (status, _)) =>
              if ((status =? 401) || (status =? 403))%Z
              then
                relogin <-- login ;;
                if (relogin : bool) then getMovieData fuel' id
                else ret (Some VNull)
              else ret (Some VNull)
          | Rejected None => ret (Some VNull)
          end
      end
  end.

End Network.

(** The requests of a log that fetch the detail. *)
Definition isDetail (r : request) : bool :=
  match r with
  | GetMovieDetail _ _ => true
  | _ => false
  end.

Definition detailCalls (log : list request) : nat :=
  List.length (filter isDetail log).

End Provider.

(* ===================================================================== *)
(** ** The proxy server: allowlist and relay *)
(* ===================================================================== *)

Module Gateway.
Import JsString.

(** What the handler answers: the arguments of [res.status(...)] and
    [.send(...)], and on success the value it hands to
    [res.set('Content-Type', ...)].  That value is not yet the header of
    the answer: the framework completes it (a charset for text types)
    before it is sent. *)
Record answer := {
  status : Z;
  contentType : option string;
  body : string;
}.

(** How [await axios({ url, maxRedirects: 5, timeout: 30000, ... })] ends:
    a response, with [response.request.res.responseUrl] when it is set,
    the content-type header and the buffered body, or a thrown error. *)
Inductive fetched : Type :=
| Fetched (responseUrl : option string) (contentTypeHeader : option string)
    (data : string)
| FetchError.

Definition MAX_FILE_SIZE : N := 10 * 1024 * 1024.

Section Server.

(** [process.env.PROXY_ALLOWED_URLS]. *)
Variable PROXY_ALLOWED_URLS : string.

(** [new URL(u).hostname], [None] when the constructor throws. *)
Variable hostname : string -> option string.

(** The upstream servers, redirects followed. *)
Variable fetch : string -> fetched.

Definition ALLOWED_DOMAINS : list string := split "," PROXY_ALLOWED_URLS.

(** [ALLOWED_DOMAINS.some((domain) => host === domain ||
    host.endsWith(`.${domain}`))], the test of [isAllowed] and of
    [isFinalAllowed]. *)
Definition isAllowed (host : string) : bool :=
  existsb (fun domain => String.eqb host domain || endsWith host ("." ++ domain))
    ALLOWED_DOMAINS.

(** [response.request.res.responseUrl || targetUrl]. *)
Definition finalUrlOf (responseUrl : option string) (targetUrl : string)
    : string :=
  match responseUrl with
  | None | Some EmptyString => targetUrl
  | Some r => r
  end.

(** The GET handler on [req.query.url], a string or missing: the answer,
    and the urls it fetched.  A [new URL(finalUrl)] that throws is caught
    with the errors of the fetch. *)
Definition relay (targetUrl : option string) : answer * list string :=
  match targetUrl with
  | None | Some EmptyString =>
      ({| status := 400; contentType := None;
          body := "URL parameter is required" |}, [])
  | Some url =>
      match hostname url with
      | None =>
          ({| status := 400; contentType := None; body := "Invalid URL" |}, [])
      | Some targetDomain =>
          if negb (isAllowed targetDomain)
          then ({| status := 403; contentType := None;
                   body := "Access to the specified domain is not allowed" |},
                [])
          else
            match fetch url with
            | FetchError =>
                ({| status := 500; contentType := None;
                    body := "Error fetching the resource" |}, [url])
            | Fetched responseUrl header data =>
                let finalUrl := finalUrlOf responseUrl url in
                match hostname finalUrl with
                | None =>
                    ({| status := 500; contentType := None;
                        body := "Error fetching the resource" |}, [url])
                | Some finalHostname =>
                    if negb (isAllowed finalHostname)
                    then ({| status := 403; contentType := None;
                             body := "Access to the redirected domain is not allowed" |},
                          [url])
                    else if (MAX_FILE_SIZE <? N.of_nat (String.length data))%N
                    then ({| status := 413; contentType := None;
                             body := "File size exceeds the allowed limit of 10MB" |},
                          [url])
                    else ({| status := 200; contentType := header;
                             body := data |}, [url])
                end
            end
      end
  end.

End Server.

End Gateway.

(* ===================================================================== *)
(** ** The specification's wording, for comparison with the code *)
(* ===================================================================== *)

Module Spec.
Import JsString Title Json.

(** Whether [/^word\s+/i] matches. *)
Definition matchesLeading (word s : string) : bool :=
  match dropPrefixCI word s with
  | Some (String c _) => isWhiteSpace c
  | _ => false
  end.

(** "strip a single leading article (the, a, an) followed by whitespace":
    the first of the three that is there, once. *)
Definition stripOneArticle (s : string) : string :=
  if matchesLeading "the" s then stripLeading "the" s
  else if matchesLeading "a" s then stripLeading "a" s
  else stripLeading "an" s.

(** The steps of section 4.1, in order. *)
Definition normalize (s : string) : string :=
  s
  |> toLowerCase
  |> replaceAllChar "&" "and"
  |> stripOneArticle
  |> punctToSpace
  |> collapseWhiteSpace
  |> trim.

(** How many of the three replacements of [normalizeTitle] that strip an
    article apply to [str]. *)
Definition articlesStripped (str : string) : nat :=
  let s0 := str |> toLowerCase |> replaceAllChar "&" "and" in
  let s1 := stripLeading "the" s0 in
  let s2 := stripLeading "a" s1 in
  (if matchesLeading "the" s0 then 1 else 0)
  + (if matchesLeading "a" s1 then 1 else 0)
  + (if matchesLeading "an" s2 then 1 else 0).

(** A normalised title that still begins with an article and a space. *)
Definition startsWithArticle (s : string) : bool :=
  startsWith s "the " || startsWith s "a " || startsWith s "an ".

(** Section 4.2: the two components of a score. *)
Definition kindScore (candidateKind targetKind : string) : Z :=
  if String.eqb candidateKind targetKind then 100 else (-50).

Definition nameScore (candidate target : string) : Z :=
  if String.eqb candidate target then 60
  else if startsWith candidate target then 20
  else if includes candidate target then 10
  else 0.

(** Section 4.4, movie: the four fields joined with [" - "]; a field that
    is absent reads as [undefined]. *)
Definition fieldText (entry : value) (key : string) : string :=
  match toString (getPropOpt entry key) with
  | Ok s => s
  | TypeError => EmptyString
  end.

Definition movieTitle (entry : value) : string :=
  String.concat " - "
    [fieldText entry "quality"; fieldText entry "size";
     fieldText entry "encode"; fieldText entry "label"].

(** The six steps of [normalizeTitle] once more, each written out in its
    own terms and without the string methods of the code.

    Lower case: a capital letter becomes the small letter at the same
    place of the alphabet; a capital of Latin-1 (U+00C0 to U+00DE without
    the multiplication sign) becomes the letter 32 places further. *)
Fixpoint translate (from to : string) (c : ascii) : ascii :=
  match from, to with
  | String a from', String b to' =>
      if Ascii.eqb c a then b else translate from' to' c
  | _, _ => c
  end.

Definition smallLetter (c : ascii) : ascii :=
  let n := N_of_ascii c in
  if ((192 <=? n) && (n <=? 222) && negb (n =? 215))%N
  then ascii_of_N (n + 32)
  else translate "ABCDEFGHIJKLMNOPQRSTUVWXYZ" "abcdefghijklmnopqrstuvwxyz" c.

Definition eachChar (f : ascii -> ascii) (s : string) : string :=
  string_of_list_ascii (map f (list_ascii_of_string s)).

Definition lowercased (s : string) : string := eachChar smallLetter s.

(** Every ampersand becomes the three letters "and", nothing around it. *)
Definition ampersandsToAnd (s : string) : string :=
  String.concat ""
    (map (fun c => if Ascii.eqb c "&" then "and" else String c EmptyString)
       (list_ascii_of_string s)).

(** A leading article goes with all the white space after it, when there
    is some; white space is TAB, LF, VT, FF, CR, SPACE and NO-BREAK
    SPACE. *)
Definition isSpace (c : ascii) : bool :=
  existsb (Ascii.eqb c) ["009"; "010"; "011"; "012"; "013"; " "; "160"]%char.

Fixpoint dropSpaces (s : string) : string :=
  match s with
  | String c r => if isSpace c then dropSpaces r else s
  | EmptyString => EmptyString
  end.

Definition beginsWithSpace (s : string) : bool :=
  match s with
  | String c _ => isSpace c
  | EmptyString => false
  end.

Definition stripArticle (word s : string) : string :=
  let rest := substring (String.length word)
                (String.length s - String.length word) s in
  if String.prefix word s && beginsWithSpace rest then dropSpaces rest else s.

(** Colon, hyphen and full stop become a space. *)
Definition marksToSpaces (s : string) : string :=
  eachChar (fun c => if existsb (Ascii.eqb c) [":"; "-"; "."]%char
                     then " "%char else c) s.

(** White space collapsed and trimmed: what is left are the words, the
    maximal runs of characters that are no white space, with one space
    between two of them. *)
Fixpoint words (s : string) : list string :=
  match s with
  | EmptyString => []
  | String c r =>
      if isSpace c then words r
      else if beginsWithSpace r then String c EmptyString :: words r
      else match words r with
           | w :: ws => String c w :: ws
           | [] => [String c EmptyString]
           end
  end.

Definition spacedWords (s : string) : string := String.concat " " (words s).

(** The steps, in order. *)
Definition inOrder (str : string) : string :=
  str
  |> lowercased
  |> ampersandsToAnd
  |> stripArticle "the"
  |> stripArticle "a"
  |> stripArticle "an"
  |> marksToSpaces
  |> spacedWords.

End Spec.

(* ===================================================================== *)
(** ** Well-formed payloads, and the payloads of the examples *)
(* ===================================================================== *)

Module Payload.
Import JsString Json Links Spec.

(** A value that converts to a string without throwing. *)
Definition printable (v : value) : bool :=
  match toString v with
  | Ok _ => true
  | TypeError => false
  end.

(** A download entry: an object whose [quality], [size], [encode] and
    [label], where it has them, convert to strings. *)
Definition isEntry (e : value) : bool :=
  match e with
  | VObj fields =>
      printable (lookup "quality" fields) && printable (lookup "size" fields)
      && printable (lookup "encode" fields) && printable (lookup "label" fields)
  | _ => false
  end.

(** A season bucket whose [season_name] is a string. *)
Definition hasLabel (bucket : value) : bool :=
  match getPropOpt bucket "season_name" with
  | VStr _ => true
  | _ => false
  end.

(** A season bucket: an object with a string label whose [quality] and
    [size], where it has them, convert to strings. *)
Definition isBucket (bucket : value) : bool :=
  match bucket with
  | VObj fields =>
      hasLabel bucket
      && printable (lookup "quality" fields) && printable (lookup "size" fields)
  | _ => false
  end.

Definition labelOf (bucket : value) : string :=
  match getPropOpt bucket "season_name" with
  | VStr s => s
  | _ => EmptyString
  end.

(** The test of the season filter on a bucket's label. *)
Definition labelMatches (season : number) (bucket : value) : bool :=
  includes (replaceFirstChar " " "" (labelOf bucket))
    (":" ++ numberToString season).

(** What one bucket contributes for an episode: the link to the entry at
    [episode - 1] of its list, if there is one. *)
Definition bucketLinks (season episode : number) (bucket : value)
    : list link :=
  let entry := getIndex (getPropOpt bucket "links") (pred episode) in
  if labelMatches season bucket
     && truthy (getPropOpt bucket "links") && truthy entry
  then [{| url := getPropOpt entry "movie";
           title := fieldText bucket "quality" ++ " - "
                    ++ fieldText bucket "size" |}]
  else [].

(** A bucket whose [quality] and [size] convert to strings, so that its
    title can be built. *)
Definition hasTitle (bucket : value) : bool :=
  printable (getPropOpt bucket "quality") && printable (getPropOpt bucket "size").

(** The buckets the loop of [getSeriesLinks] gets through: those before
    the first bucket that passes the season filter and has no title. *)
Fixpoint beforeBadTitle (season : number) (buckets : list value) : list value :=
  match buckets with
  | [] => []
  | b :: rest =>
      if labelMatches season b && negb (hasTitle b) then []
      else b :: beforeBadTitle season rest
  end.

Definition episodeEntry (movie : string) : value :=
  VObj [("movie", VStr movie)].

Definition seasonBucket (season_name quality size : string)
    (links : list value) : value :=
  VObj [("season_name", VStr season_name); ("quality", VStr quality);
        ("size", VStr size); ("links", VArr links)].

Definition seriesDetail (buckets : list value) : value :=
  VObj [("status", VBool true); ("serie_download_urls", VArr buckets)].

Definition movieDetail (entries : list value) : value :=
  VObj [("status", VBool true); ("movie_download_urls", VArr entries)].

Definition downloadEntry (quality size encode label file : string) : value :=
  VObj [("quality", VStr quality); ("size", VStr size);
        ("encode", VStr encode); ("label", VStr label); ("file", VStr file)].

(** Five episodes of a season, by the last part of their urls. *)
Definition fiveEpisodes (season : string) : list value :=
  map (fun e => episodeEntry ("https://host/" ++ season ++ e ++ ".mkv"))
    ["e01"; "e02"; "e03"; "e04"; "e05"].

End Payload.

(* ===================================================================== *)
(** ** A provider, a session and a proxy setting for the examples *)
(* ===================================================================== *)

Module Scenario.
Import JsString Json Provider Gateway.

(** A provider that accepts the account (the profile probe and the login
    both answer [status: true]) and refuses every detail request with 403,
    as for an account without a subscription. *)
Definition refusingProvider (sent : nat) (r : request) : reply :=
  match r with
  | GetProfile _ => Response 200 (VObj [("status", VBool true)])
  | PostLogin _ _ =>
      Response 200 (VObj [("status", VBool true); ("auth_token", VStr "token-2");
                          ("refresh_token", VStr "refresh-2")])
  | GetMovieDetail _ _ => Response 403 (VObj [("status", VBool false)])
  end.

(** A provider that refuses the session: the probe and the login answer
    [status: false], a detail request 401. *)
Definition closedProvider (sent : nat) (r : request) : reply :=
  match r with
  | GetMovieDetail _ _ => Response 401 VNull
  | _ => Response 200 (VObj [("status", VBool false)])
  end.

(** A provider that does not know the session and accepts the login
    with a token that is an object with a [toString] field, which no
    template literal can print. *)
Definition objectTokenProvider (sent : nat) (r : request) : reply :=
  match r with
  | PostLogin _ _ =>
      Response 200 (VObj [("status", VBool true);
                          ("auth_token", VObj [("toString", VNum 1)]);
                          ("refresh_token", VStr "refresh-2")])
  | _ => Response 200 (VObj [("status", VBool false)])
  end.

(** A provider that serves the detail. *)
Definition servingProvider (sent : nat) (r : request) : reply :=
  Response 200 (VObj [("status", VBool true); ("movie_download_urls", VArr [])]).

(** The object after a successful [login()]. *)
Definition loggedIn : digimovie :=
  {| username := VStr "user"; password := VStr "secret";
     token := VStr "token-1"; refreshToken := VStr "refresh-1" |}.

(** A new object whose password is empty. *)
Definition noPassword : digimovie :=
  {| username := VStr "user"; password := VStr "";
     token := VStr ""; refreshToken := VStr "" |}.

(** The part of a string before the first [stop]. *)
Fixpoint upTo (stop : ascii) (s : string) : string :=
  match s with
  | EmptyString => EmptyString
  | String c r => if Ascii.eqb c stop then EmptyString else String c (upTo stop r)
  end.

(** The host of an [https://host/path] url without port or user, which is
    all the examples need of [new URL(...).hostname]. *)
Definition httpsHost (url : string) : option string :=
  if startsWith url "https://"
  then Some (upTo "/" (String.substring 8 (String.length url - 8) url))
  else None.

(** An upstream that redirects the CDN's file to another site. *)
Definition redirecting (url : string) : fetched :=
  if String.eqb url "https://cdn.example.com/f.mkv"
  then Fetched (Some "https://tracker.example.net/f.mkv") (Some "video/x-matroska")
         "bytes"
  else FetchError.

End Scenario.

(* ===================================================================== *)
(** ** What a normalised title looks like *)
(* ===================================================================== *)

Module NormalForm.
Import JsString Title.

Fixpoint allChars (p : ascii -> bool) (s : string) : bool :=
  match s with
  | EmptyString => true
  | String c r => p c && allChars p r
  end.

(** A character that [toLowerCase] leaves alone. *)
Definition lowered (c : ascii) : bool := Ascii.eqb (lowerChar c) c.

Definition noAmp (c : ascii) : bool := negb (Ascii.eqb c "&").

(** A character that the first six steps of [normalizeTitle] can leave. *)
Definition clean (c : ascii) : bool :=
  lowered c && noAmp c && negb (isPunct c).

(** White space is the plain space only, and never two in a row;
    [afterSpace] says that the previous character was a space. *)
Fixpoint tidy (afterSpace : bool) (s : string) : bool :=
  match s with
  | EmptyString => true
  | String c r =>
      if isWhiteSpace c
      then Ascii.eqb c " " && negb afterSpace && tidy true r
      else tidy false r
  end.

Definition noLeadingSpace (s : string) : bool :=
  match s with
  | EmptyString => true
  | String c _ => negb (isWhiteSpace c)
  end.

Definition normalForm (s : string) : bool :=
  allChars clean s && tidy false s && noLeadingSpace s
  && String.eqb (trimEnd s) s.

End NormalForm.

(* ===================================================================== *)
(** ** index.js: ranking the search results *)
(* ===================================================================== *)

Module Matcher.
Import JsString Title.

(** An element of [scoredResults]: [{ ...item, score }], for search
    results of type [A]. *)
Record scored (A : Type) := {
  item : A;
  score : Z;
}.
Arguments item {A} _.
Arguments score {A} _.

(** [searchResults.map((item) => { ...; return { ...item, score }; })]. *)
Definition scoredResults (reqType normalizedSearchTitle : string)
    (searchResults : list searchItem) : list (scored searchItem) :=
  map (fun it => {| item := it;
                    score := scoreItem reqType normalizedSearchTitle it |})
    searchResults.

(** Where a result goes among results already in order: before the first
    one whose score is not higher. *)
Fixpoint insertByScore {A : Type} (x : scored A) (sorted : list (scored A))
    : list (scored A) :=
  match sorted with
  | [] => [x]
  | y :: rest =>
      if (score y <=? score x)%Z then x :: y :: rest
      else y :: insertByScore x rest
  end.

(** [scoredResults.sort((a, b) => b.score - a.score)]: by falling score,
    results of one score in the order they had (the sort of an array is
    stable, and the scores are integers, so the order is determined). *)
Definition sortByScore {A : Type} (l : list (scored A)) : list (scored A) :=
  fold_right insertByScore [] l.

(** [scoredResults[0]] after the sort; the handler reads it only when
    there is a result. *)
Definition bestMatch (reqType normalizedSearchTitle : string)
    (searchResults : list searchItem) : option (scored searchItem) :=
  hd_error (sortByScore (scoredResults reqType normalizedSearchTitle
                           searchResults)).


End Matcher.

(* ===================================================================== *)
(** ** Measures of a series detail *)
(* ===================================================================== *)

Module Buckets.
Import JsString Json Links.

(** The season buckets of a detail: the elements of its
    [serie_download_urls] when that is an array. *)
Definition seasonBuckets (movieData : value) : list value :=
  match getPropOpt movieData "serie_download_urls" with
  | VArr buckets => buckets
  | _ => []
  end.

(** The episode entries of a bucket whose [links] is an array; [None] for
    any other value that is there. *)
Definition episodeList (bucket : value) : option (list value) :=
  match getPropOpt bucket "links" with
  | VArr entries => Some entries
  | VUndefined => Some []
  | _ => None
  end.

(** Whether [episode] is a position of the bucket's list, counted from
    one. *)
Definition hasEpisode (episode : number) (bucket : value) : bool :=
  match episode, episodeList bucket with
  | Int z, Some entries =>
      ((1 <=? z) && (z <=? Z.of_nat (List.length entries)))%Z
  | _, _ => false
  end.

Definition listsAreArrays (bucket : value) : bool :=
  match episodeList bucket with
  | Some _ => true
  | None => false
  end.

Definition noColon (s : string) : bool := negb (includes s ":").

End Buckets.

(* ===================================================================== *)
(** ** A body past the size limit *)
(* ===================================================================== *)

Module BigBody.

Fixpoint replicate (n : nat) (c : ascii) : string :=
  match n with
  | O => EmptyString
  | S n' => String c (replicate n' c)
  end.

(** Eleven MiB of one character. *)
Definition elevenMiB : string := replicate (N.to_nat (11 * 1024 * 1024)) "x".

End BigBody.

(* ===================================================================== *)
(** ** sources/digimovie.js: search *)
(* ===================================================================== *)

Module Search.
Import JsString Json Links Provider.

(** An element of the array [search] returns; [genres] is always the
    empty array and is left out. *)
Record movie := {
  name : value;
  poster : value;
  type : string;
  id : value;
}.

(** How the one request of [search] ends, from the provider's reply. *)
Definition settle (validateStatus : Z -> bool) (r : reply) : settled :=
  match r with
  | Response status data =>
      if validateStatus status then Resolved data
      else Rejected (Some (status, data))
  | NoResponse => Rejected None
  end.

Section Comparison.

(** [Number(s) < 1] for a string [s]: the engine's reading of a string as
    a number, which the model takes as given. *)
Variable stringLessThanOne : string -> bool.

(** [v < 1]: [undefined] is not a number and compares false, [null]
    counts as 0, an array or an object is compared through its string. *)
Definition lessThanOne (v : value) : result bool :=
  match v with
  | VUndefined => Ok false
  | VNull => Ok true
  | VBool b => Ok (negb b)
  | VNum n => Ok (n <? 1)%Z
  | VStr s => Ok (stringLessThanOne s)
  | VArr _ | VObj _ => s <- toString v ;; Ok (stringLessThanOne s)
  end.

(** The object built for one item of the provider's list. *)
Definition toMovie (item : value) : result movie :=
  title_en <- getProp item "title_en" ;;
  image_url <- getProp item "image_url" ;;
  type_ <- getProp item "type" ;;
  id_ <- getProp item "id" ;;
  Ok {| name := title_en;
        poster := image_url;
        type := match type_ with
                | VStr s => if String.eqb s "movie" then "movie" else "series"
                | _ => "series"
                end;
        id := id_ |}.

(** [for (const item of res.data.result.items) { ...; items.push(movie) }]. *)
Fixpoint pushMovies (list_ : list value) (items : list movie)
    : result (list movie) :=
  match list_ with
  | [] => Ok items
  | item :: rest =>
      m <- toMovie item ;;
      pushMovies rest (items ++ [m])%list
  end.

(** The body of the [try] of [search], after the request. *)
Definition searchTry (data : value) : result (list movie) :=
  total <- match data with
           | VUndefined | VNull => Ok VUndefined
           | _ => r <- getProp data "result" ;; getProp r "total_items"
           end ;;
  few <- lessThanOne total ;;
  if (few : bool) then Ok []
  else
    r <- getProp data "result" ;;
    list_ <- getProp r "items" ;;
    l <- iterate list_ ;;
    pushMovies l [].

(** [search(text)], given the provider's reply to its request: any error
    is caught, logged and answered with the empty array. *)
Definition search (answer : reply) : list movie :=
  match settle below300 answer with
  | Resolved data =>
      match searchTry data with
      | Ok items => items
      | TypeError => []
      end
  | Rejected _ => []
  end.

End Comparison.

(** The movie of a well-formed item, read field by field. *)
Definition movieOf (item : value) : movie :=
  {| name := getPropOpt item "title_en";
     poster := getPropOpt item "image_url";
     type := match getPropOpt item "type" with
             | VStr s => if String.eqb s "movie" then "movie" else "series"
             | _ => "series"
             end;
     id := getPropOpt item "id" |}.

Definition notNullish (v : value) : bool :=
  match v with
  | VUndefined | VNull => false
  | _ => true
  end.

End Search.

(* ===================================================================== *)
(** ** utils.js: the two extractors *)
(* ===================================================================== *)

Module Utils.
Import JsString.

(** The characters of [s] before the first [stop], and whether there is
    a [stop]. *)
Fixpoint takeUntil (stop : ascii) (s : string) : string * bool :=
  match s with
  | EmptyString => (EmptyString, false)
  | String c r =>
      if Ascii.eqb c stop then (EmptyString, true)
      else let '(body, found) := takeUntil stop r in (String c body, found)
  end.

(** The group of [/\(([^)]+)\)/] when the match starts at a parenthesis
    and [s] is the text after it: one character or more, none of them a
    closing parenthesis, then the closing parenthesis. *)
Definition groupAfterParen (s : string) : option string :=
  match takeUntil ")" s with
  | (String c body, true) => Some (String c body)
  | _ => None
  end.

(** [getBetweenParentheses(str)]: [match[1]] of the leftmost match, or
    [null]. *)
Fixpoint getBetweenParentheses (str : string) : option string :=
  match str with
  | EmptyString => None
  | String c r =>
      if Ascii.eqb c "("
      then match groupAfterParen r with
           | Some group => Some group
           | None => getBetweenParentheses r
           end
      else getBetweenParentheses r
  end.

(** A line terminator, which [.] does not match. *)
Definition isLineTerminator (c : ascii) : bool :=
  Ascii.eqb c "010" || Ascii.eqb c "013".

Fixpoint noLineTerminator (s : string) : bool :=
  match s with
  | EmptyString => true
  | String c r => negb (isLineTerminator c) && noLineTerminator r
  end.

Fixpoint dropPrefix (prefix s : string) {struct prefix} : option string :=
  match prefix with
  | EmptyString => Some s
  | String p prefix' =>
      match s with
      | EmptyString => None
      | String c s' => if Ascii.eqb c p then dropPrefix prefix' s' else None
      end
  end.

Definition imdbTitlePrefix : string := "https://www.imdb.com/title/".

(** The group of [/https:\/\/www\.imdb\.com\/title\/(.*?)\//] when [s]
    is the text after the prefix: the shortest run of characters up to a
    slash, none of them a line terminator. *)
Definition groupAfterPrefix (s : string) : option string :=
  match takeUntil "/" s with
  | (body, true) => if noLineTerminator body then Some body else None
  | (_, false) => None
  end.

(** [extractImdbId(url)]. *)
Fixpoint extractImdbId (url : string) : option string :=
  match match dropPrefix imdbTitlePrefix url with
        | Some rest => groupAfterPrefix rest
        | None => None
        end with
  | Some group => Some group
  | None =>
      match url with
      | EmptyString => None
      | String _ r => extractImdbId r
      end
  end.

Fixpoint noChar (x : ascii) (s : string) : bool :=
  match s with
  | EmptyString => true
  | String c r => negb (Ascii.eqb c x) && noChar x r
  end.

End Utils.

(* ===================================================================== *)
(** ** encodeURIComponent *)
(* ===================================================================== *)

Module Uri.

(** The characters [encodeURIComponent] leaves as they are: letters,
    digits and [- _ . ! ~ * ' ( )]. *)
Definition isUnreserved (c : ascii) : bool :=
  let n := N_of_ascii c in
  (((48 <=? n) && (n <=? 57)) || ((65 <=? n) && (n <=? 90))
   || ((97 <=? n) && (n <=? 122)))%N
  || existsb (Ascii.eqb c) ["-"; "_"; "."; "!"; "~"; "*"; "'"; "("; ")"]%char.

Definition hexDigit (n : N) : ascii :=
  match n with
  | 0 => "0" | 1 => "1" | 2 => "2" | 3 => "3" | 4 => "4" | 5 => "5"
  | 6 => "6" | 7 => "7" | 8 => "8" | 9 => "9" | 10 => "A" | 11 => "B"
  | 12 => "C" | 13 => "D" | 14 => "E" | _ => "F"
  end%N%char.

(** One byte of the UTF-8 form, escaped. *)
Definition percent (byte : N) : string :=
  String "%" (String (hexDigit (byte / 16)) (String (hexDigit (byte mod 16))
    EmptyString)).

(** A code unit below U+0080 is one byte, one from U+0080 to U+00FF two. *)
Definition encodeChar (c : ascii) : string :=
  let n := N_of_ascii c in
  if isUnreserved c then String c EmptyString
  else if (n <? 128)%N then percent n
  else percent (192 + n / 64) ++ percent (128 + n mod 64).

Fixpoint encodeURIComponent (s : string) : string :=
  match s with
  | EmptyString => EmptyString
  | String c r => encodeChar c ++ encodeURIComponent r
  end.

(** The value of a hexadecimal digit, in either case. *)
Definition hexValue (c : ascii) : option N :=
  let n := N_of_ascii c in
  if ((48 <=? n) && (n <=? 57))%N then Some (n - 48)%N
  else if ((65 <=? n) && (n <=? 70))%N then Some (n - 55)%N
  else if ((97 <=? n) && (n <=? 102))%N then Some (n - 87)%N
  else None.

(** The byte of two hexadecimal digits. *)
Definition hexByte (h l : ascii) : option N :=
  match hexValue h, hexValue l with
  | Some a, Some b => Some (16 * a + b)%N
  | _, _ => None
  end.

(** [decodeURIComponent], which the query parser of the proxy applies to
    the [url] parameter: an escape below [%80] is its character, the two
    escapes of a character from U+0080 to U+00FF give that character back,
    any other character stands for itself.  [None] for a malformed
    escape, which throws, and for the escapes of a character past
    U+00FF. *)
Fixpoint decodeURIComponent (s : string) : option string :=
  match s with
  | EmptyString => Some EmptyString
  | String c r =>
      if negb (Ascii.eqb c "%")
      then option_map (String c) (decodeURIComponent r)
      else
        match r with
        | String h (String l r1) =>
            match hexByte h l with
            | Some byte =>
                if (byte <? 128)%N
                then option_map (String (ascii_of_N byte))
                       (decodeURIComponent r1)
                else if ((byte =? 194) || (byte =? 195))%N
                then
                  match r1 with
                  | String p (String h2 (String l2 r2)) =>
                      match hexByte h2 l2 with
                      | Some next =>
                          if Ascii.eqb p "%"
                             && (128 <=? next)%N && (next <? 192)%N
                          then option_map
                                 (String (ascii_of_N
                                            ((byte - 192) * 64 + (next - 128))))
                                 (decodeURIComponent r2)
                          else None
                      | None => None
                      end
                  | _ => None
                  end
                else None
            | None => None
            end
        | _ => None
        end
  end.

End Uri.

(* ===================================================================== *)
(** ** index.js: the stream handler *)
(* ===================================================================== *)

Module Handler.
Import JsString Title Json Links Provider Search Matcher Utils Uri.

(** What the handler asks of the outside, in order. *)
Inductive event : Type :=
| AskCinemeta (type imdbId : string)
| AskProvider (r : request)
| AskSearch (text : string).

(** What a request ends with: the [streams] it sends ([None] when the
    detail fetch never returns), and what it asked. *)
Record outcome := {
  streams : option (list link);
  events : list event;
}.

Definition isDigit (c : ascii) : bool :=
  let n := N_of_ascii c in ((48 <=? n) && (n <=? 57))%N.

(** Whether [/\s*\(\d{4}\).*$/] matches at the start of [s]: white space,
    four digits in parentheses, and no line break up to the end. *)
Definition yearHere (s : string) : bool :=
  match trimStart s with
  | String p (String a (String b (String c (String d (String q rest))))) =>
      Ascii.eqb p "(" && isDigit a && isDigit b && isDigit c && isDigit d
      && Ascii.eqb q ")" && noLineTerminator rest
  | _ => false
  end.

(** [s.replace(/\s*\(\d{4}\).*$/, "")]: the text before the leftmost
    match. *)
Fixpoint removeYear (s : string) : string :=
  match s with
  | EmptyString => EmptyString
  | String c r => if yearHere s then EmptyString else String c (removeYear r)
  end.

(** [searchTitle], from the title of the catalogue. *)
Definition searchTitleOf (originalTitle : string) : string :=
  trim (removeYear originalTitle).

(** [normalizeTitle(item.name)] and the rest of the scoring callback for a
    movie of [search], whose name is any value: a falsy name normalises
    to the empty string, a truthy one that is no string has no
    [toLowerCase] and throws. *)
Definition scoreMovie (reqType normalizedSearchTitle : string) (m : movie)
    : result Z :=
  match Search.name m with
  | VStr s =>
      Ok (scoreItem reqType normalizedSearchTitle
            {| Title.name := s; Title.type := Search.type m |})
  | v =>
      if truthy v then TypeError
      else Ok (scoreItem reqType normalizedSearchTitle
                 {| Title.name := ""; Title.type := Search.type m |})
  end.

(** [searchResults.map(...)] over the movies: a throw of the callback
    ends the map. *)
Fixpoint scoreMovies (reqType normalizedSearchTitle : string)
    (searchResults : list movie) : result (list (scored movie)) :=
  match searchResults with
  | [] => Ok []
  | m :: rest =>
      s <- scoreMovie reqType normalizedSearchTitle m ;;
      scoredRest <- scoreMovies reqType normalizedSearchTitle rest ;;
      Ok ({| item := m; score := s |} :: scoredRest)
  end.

(** Four digits. *)
Definition isYear (y : string) : bool :=
  match y with
  | String a (String b (String c (String d EmptyString))) =>
      isDigit a && isDigit b && isDigit c && isDigit d
  | _ => false
  end.

(** The one stream of a notice to the user. *)
Definition notice (text : string) : list link :=
  [{| url := VStr ""; title := text |}].

(** [`${process.env.X}`]. *)
Definition envText (v : option string) : string :=
  match v with
  | Some s => s
  | None => "undefined"
  end.

Section Stream.

(** The three texts of the handler that are not Latin-1: the notice to
    configure, the notice of a failed login, the title of a link without
    title. *)
Variable configureNotice loginNotice fallbackTitle : string.

(** [getCinemeta(type, imdbId)]: the body of the answer, [null] after an
    error. *)
Variable cinemeta : string -> string -> value.

(** The provider: its replies to the session's requests and to a
    search. *)
Variable net : nat -> request -> reply.
Variable searchNet : string -> reply.
Variable stringLessThanOne : string -> bool.

(** [process.env.PROXY_ENABLE], [PROXY_URL] and [PROXY_PATH]. *)
Variable PROXY_ENABLE PROXY_URL PROXY_PATH : option string.

Definition proxyEnabled : bool :=
  match PROXY_ENABLE with
  | Some s => String.eqb s "true" || String.eqb s "1"
  | None => false
  end.

(** The callback of [links.forEach]. *)
Definition decorate (l : link) : result link :=
  let title' :=
    "[DigiMovie] "
    ++ (if String.eqb (title l) "" then fallbackTitle else title l) in
  if proxyEnabled
  then
    u <- toString (url l) ;;
    Ok {| url := VStr (envText PROXY_URL ++ "/" ++ envText PROXY_PATH
                       ++ "?url=" ++ encodeURIComponent u);
          title := title' |}
  else Ok {| url := url l; title := title' |}.

Fixpoint decorateAll (links : list link) : result (list link) :=
  match links with
  | [] => Ok []
  | l :: rest =>
      l' <- decorate l ;;
      rest' <- decorateAll rest ;;
      Ok (l' :: rest')
  end.

(** A stream [s] made of the link [l] with the proxy switched on: its url
    is the proxy's address, "?url=" and the encoded url of the link, which
    holds unreserved characters and percent signs only and decodes to the
    link's url. *)
Definition throughProxy (s l : link) : Prop :=
  exists u,
    toString (url l) = Ok u
    /\ url s = VStr (envText PROXY_URL ++ "/" ++ envText PROXY_PATH
                     ++ "?url=" ++ encodeURIComponent u)
    /\ NormalForm.allChars (fun x => isUnreserved x || Ascii.eqb x "%")
         (encodeURIComponent u) = true
    /\ decodeURIComponent (encodeURIComponent u) = Some u.

(** From the accepted best match to the streams: the detail, its links,
    their decoration.  An error of [getLinks] or of the decoration is
    caught by the inner [try] before anything is pushed. *)
Definition streamsOfDetail (type id : string) (movieDetails : value)
    : list link :=
  if truthy movieDetails
  then match getLinks type id movieDetails with
       | Ok links =>
           match decorateAll links with
           | Ok decorated => decorated
           | TypeError => []
           end
       | TypeError => []
       end
  else [].

(** The handler of [/:config/stream/:type/:id.json], given the parsed
    configuration ([null] when it does not parse) and the number of calls
    [getMovieData] may make. *)
Definition streamHandler (fuel : nat) (type id : string) (userConfig : value)
    : outcome :=
  if negb (truthy userConfig)
     || negb (truthy (getPropOpt userConfig "digiUser"))
     || negb (truthy (getPropOpt userConfig "digiPass"))
  then {| streams := Some (notice configureNotice); events := [] |}
  else
    let imdbIdRaw := hd EmptyString (split ":" id) in
    let metaData := cinemeta type imdbIdRaw in
    let asked := [AskCinemeta type imdbIdRaw] in
    match getPropOpt (getPropOpt metaData "meta") "name" with
    | VStr originalTitle =>
        if String.eqb originalTitle ""
        then {| streams := Some []; events := asked |}
        else
          let searchTitle := searchTitleOf originalTitle in
          let normalizedSearchTitle := normalizeTitle searchTitle in
          let digi := {| username := getPropOpt userConfig "digiUser";
                         password := getPropOpt userConfig "digiPass";
                         token := VStr ""; refreshToken := VStr "" |} in
          let '(loggedIn, st) := login net {| self := digi; calls := [] |} in
          let asked := (asked ++ map AskProvider (calls st))%list in
          if negb loggedIn
          then {| streams := Some (notice loginNotice); events := asked |}
          else
            let searchResults :=
              search stringLessThanOne (searchNet searchTitle) in
            let asked := (asked ++ [AskSearch searchTitle])%list in
            match scoreMovies type normalizedSearchTitle searchResults with
            | Ok scoredResults =>
                match hd_error (sortByScore scoredResults) with
                | Some bestMatch =>
                    if (0 <? score bestMatch)%Z
                    then
                      let '(movieDetails, st') :=
                        getMovieData net fuel (Search.id (item bestMatch)) st in
                      {| streams :=
                           option_map (streamsOfDetail type id) movieDetails;
                         events :=
                           (asked
                            ++ map AskProvider
                                 (skipn (List.length (calls st)) (calls st')))%list |}
                    else {| streams := Some []; events := asked |}
                | None => {| streams := Some []; events := asked |}
                end
            | TypeError => {| streams := Some []; events := asked |}
            end
    | _ =>
        (* no name, or a name that is no string and has no [replace] *)
        {| streams := Some []; events := asked |}
    end.

End Stream.

End Handler.

(* ===================================================================== *)
(** ** One request from end to end, for the examples *)
(* ===================================================================== *)

Module Demo.
Import JsString Json Links Provider Search Payload Handler.

Definition demoConfig : value :=
  VObj [("digiUser", VStr "user"); ("digiPass", VStr "secret")].

(** The catalogue knows the film with its year. *)
Definition demoCinemeta (type imdbId : string) : value :=
  VObj [("meta", VObj [("name", VStr "The Matrix (1999)")])].

(** A provider that accepts the login and serves one download. *)
Definition demoProvider (sent : nat) (r : request) : reply :=
  match r with
  | GetProfile _ => Response 401 VNull
  | PostLogin _ _ =>
      Response 200 (VObj [("status", VBool true); ("auth_token", VStr "token-1");
                          ("refresh_token", VStr "refresh-1")])
  | GetMovieDetail _ _ =>
      Response 200
        (movieDetail
           [downloadEntry "1080p" "2GB" "x265" "WEB" "https://host/f.mkv"])
  end.

(** Its search finds the sequel before the film. *)
Definition demoSearch (text : string) : reply :=
  Response 200
    (VObj [("result",
            VObj [("total_items", VNum 2);
                  ("items",
                   VArr [VObj [("title_en", VStr "Matrix Reloaded");
                               ("type", VStr "movie"); ("id", VNum 3)];
                         VObj [("title_en", VStr "The Matrix");
                               ("type", VStr "movie"); ("id", VNum 7)]])])]).

(** The request for the film, with the proxy switched on. *)
Definition demoRequest : outcome :=
  streamHandler "configure the add-on first" "login failed" "stream"
    demoCinemeta demoProvider demoSearch (fun _ => false)
    (Some "true") (Some "https://proxy.example.com") (Some "relay")
    1 "movie" "tt0133093" demoConfig.

End Demo.

(* ===================================================================== *)
(** ** Facts about the string methods *)
(* ===================================================================== *)

Section StringFacts.
Import JsString.

Lemma append_assoc (a b c : string) : (a ++ b) ++ c = a ++ b ++ c.
Proof. induction a as [|x a IH]; simpl; [reflexivity|now rewrite IH]. Qed.

Lemma startsWith_app (p t : string) : startsWith (p ++ t) p = true.
Proof.
  induction p as [|b p IH]; simpl; [reflexivity|].
  now rewrite Ascii.eqb_refl.
Qed.

Lemma startsWith_iff (s p : string) :
  startsWith s p = true <-> exists t, s = p ++ t.
Proof.
  split.
  - revert s; induction p as [|b p IH]; intros s H.
    + now exists s.
    + destruct s as [|a s]; simpl in H; [discriminate|].
      apply andb_true_iff in H as [Hab Hs].
      apply Ascii.eqb_eq in Hab; subst b.
      destruct (IH _ Hs) as [t ->]. now exists t.
  - intros [t ->]. apply startsWith_app.
Qed.

Lemma startsWith_includes (s p : string) :
  startsWith s p = true -> includes s p = true.
Proof. intros H. destruct s; simpl; now rewrite H. Qed.

Lemma includes_iff (s p : string) :
  includes s p = true <-> exists a b, s = a ++ p ++ b.
Proof.
  split.
  - induction s as [|c s IH]; simpl; intros H.
    + rewrite orb_false_r in H. apply startsWith_iff in H as [t Ht].
      now exists EmptyString, t.
    + apply orb_true_iff in H as [H|H].
      * apply startsWith_iff in H as [t Ht]. now exists EmptyString, t.
      * destruct (IH H) as (a & b & ->). now exists (String c a), b.
  - intros (a & b & ->). induction a as [|c a IH]; simpl.
    + apply startsWith_includes, startsWith_app.
    + rewrite IH. apply orb_true_r.
Qed.

Lemma endsWith_iff (s p : string) :
  endsWith s p = true <-> exists a, s = a ++ p.
Proof.
  split.
  - induction s as [|c s IH]; cbn [endsWith]; intros H.
    + rewrite orb_false_r in H. apply String.eqb_eq in H. now exists EmptyString.
    + apply orb_true_iff in H as [H|H].
      * apply String.eqb_eq in H. now exists EmptyString.
      * destruct (IH H) as [a ->]. now exists (String c a).
  - intros [a ->]. induction a as [|c a IH]; cbn [append endsWith].
    + destruct p; cbn [endsWith]; now rewrite String.eqb_refl.
    + rewrite IH. apply orb_true_r.
Qed.

End StringFacts.

(* ===================================================================== *)
(** ** Numbers: rounding to a double, and what is printed *)
(* ===================================================================== *)

Section NumberFacts.
Import JsString Json BigBody.

Lemma nearestDouble_small (a : Z) :
  (a < twoTo53)%Z -> nearestDouble a = Some a.
Proof.
  intros H. unfold nearestDouble. apply Z.ltb_lt in H. now rewrite H.
Qed.

Lemma nearestDouble_large (a d : Z) :
  (twoTo53 <= a)%Z -> nearestDouble a = Some d -> (twoTo53 <= d)%Z.
Proof.
  intros Ha. unfold nearestDouble.
  destruct (Z.ltb_spec a twoTo53) as [Hlt|_]; [lia|].
  set (e := (Z.log2 a - 52)%Z). set (q := (a / 2 ^ e)%Z).
  assert (Hlog : (53 <= Z.log2 a)%Z).
  { change 53%Z with (Z.log2 twoTo53). now apply Z.log2_le_mono. }
  assert (He : (1 <= e)%Z) by (subst e; lia).
  assert (Hpow : (2 <= 2 ^ e)%Z).
  { change 2%Z with (2 ^ 1)%Z at 1. apply Z.pow_le_mono_r; lia. }
  assert (Hq : (2 ^ 52 <= q)%Z).
  { subst q. assert (Hspec : (2 ^ Z.log2 a <= a)%Z).
    { apply Z.log2_spec. unfold twoTo53 in Ha. lia. }
    replace (Z.log2 a) with (52 + e)%Z in Hspec by (subst e; lia).
    rewrite Z.pow_add_r in Hspec by lia.
    apply Z.div_le_lower_bound; lia. }
  match goal with
  | |- context [if ?b then (q + 1)%Z else q] =>
      set (q' := if b then (q + 1)%Z else q);
      assert (Hq' : (q <= q')%Z) by (subst q'; destruct b; lia)
  end.
  destruct (_ <? twoTo1024)%Z; [|discriminate].
  intros [= <-]. unfold twoTo53.
  assert (2 ^ 52 * 2 <= q' * 2 ^ e)%Z by (apply Z.mul_le_mono_nonneg; lia).
  lia.
Qed.

Lemma getIndex_outside (entries : list value) (z : Z) :
  (z < 0 \/ Z.of_nat (List.length entries) <= z)%Z ->
  getIndex (VArr entries) (toNumber z) = VUndefined.
Proof.
  intros H. unfold toNumber.
  destruct (nearestDouble (Z.abs z)) as [a|] eqn:E; [|reflexivity].
  cbn [getIndex].
  assert (Ha : (a = Z.abs z \/ twoTo53 <= a)%Z).
  { destruct (Z.lt_ge_cases (Z.abs z) twoTo53) as [Hs|Hl].
    - left. rewrite (nearestDouble_small _ Hs) in E. now injection E.
    - right. exact (nearestDouble_large _ _ Hl E). }
  destruct ((0 <=? Z.sgn z * a) && (Z.sgn z * a <? 4294967295))%Z eqn:Eb;
    [|reflexivity].
  apply andb_true_iff in Eb as [H0 H1].
  apply Z.leb_le in H0. apply Z.ltb_lt in H1.
  apply nth_overflow. unfold twoTo53 in Ha.
  destruct H as [H|H].
  - rewrite (Z.sgn_neg z H) in H0. lia.
  - destruct (Z.eq_dec z 0) as [->|Hz].
    + cbn in *. lia.
    + rewrite (Z.sgn_pos z) in * by lia. lia.
Qed.

(** [parseInt] reads past the digits a double can hold and rounds; signs,
    white space, a hexadecimal prefix and trailing text go as in the
    language. *)
Example parseInt_rounds :
  parseInt "9007199254740993" = Int 9007199254740992
  /\ parseInt "  -42abc" = Int (-42)
  /\ parseInt "0x1F" = Int 31
  /\ parseInt "abc" = NaN
  /\ parseInt (replicate 400 "9") = Infinity false.
Proof. repeat split; vm_compute; reflexivity. Qed.

(** Integers print in full up to 21 digits, with the digits of the double
    and not those of the literal, and with an exponent past that. *)
Example toString_of_numbers :
  toString (VNum 720) = Ok "720"
  /\ toString (VNum (-5)) = Ok "-5"
  /\ toString (VNum 9007199254740993) = Ok "9007199254740992"
  /\ toString (VNum 73786976294838206464) = Ok "73786976294838210000"
  /\ toString (VNum 1000000000000000000000) = Ok "1e+21"
  /\ toString (VNum 123456789012345678901234567890)
     = Ok "1.2345678901234568e+29".
Proof. repeat split; vm_compute; reflexivity. Qed.

End NumberFacts.

(* ===================================================================== *)
(** ** normalizeTitle: its results are normal forms *)
(* ===================================================================== *)

Section NormalFormFacts.
Import JsString Title NormalForm.

#[local] Ltac each_char c :=
  destruct c as [[] [] [] [] [] [] [] []]; vm_compute; try reflexivity;
  try discriminate.

Lemma lowerChar_lowered (c : ascii) : lowered (lowerChar c) = true.
Proof. each_char c. Qed.

Lemma and_is_clean : allChars (fun c => lowered c && noAmp c) "and" = true.
Proof. reflexivity. Qed.

Lemma space_is_clean : clean " " = true.
Proof. reflexivity. Qed.

Lemma allChars_mono (p q : ascii -> bool) (s : string) :
  (forall c, p c = true -> q c = true) ->
  allChars p s = true -> allChars q s = true.
Proof.
  intros Hpq. induction s as [|c r IH]; simpl; [reflexivity|].
  intros H. apply andb_true_iff in H as [Hc Hr].
  now rewrite (Hpq _ Hc), IH.
Qed.

Lemma allChars_app (p : ascii -> bool) (a b : string) :
  allChars p (a ++ b) = allChars p a && allChars p b.
Proof.
  induction a as [|c a IH]; simpl; [reflexivity|].
  now rewrite IH, andb_assoc.
Qed.

Lemma allChars_toLowerCase (s : string) :
  allChars lowered (toLowerCase s) = true.
Proof.
  induction s as [|c r IH]; simpl; [reflexivity|].
  now rewrite lowerChar_lowered.
Qed.

Lemma allChars_replaceAmp (s : string) :
  allChars lowered s = true ->
  allChars (fun c => lowered c && noAmp c) (replaceAllChar "&" "and" s) = true.
Proof.
  induction s as [|c r IH]; simpl; [reflexivity|].
  intros H. apply andb_true_iff in H as [Hc Hr].
  destruct (Ascii.eqb c "&") eqn:E.
  - exact (IH Hr).
  - simpl. rewrite (IH Hr). unfold noAmp. now rewrite Hc, E.
Qed.

Lemma allChars_trimStart (p : ascii -> bool) (s : string) :
  allChars p s = true -> allChars p (trimStart s) = true.
Proof.
  induction s as [|c r IH]; simpl; [reflexivity|].
  intros H. destruct (isWhiteSpace c); [|exact H].
  apply andb_true_iff in H as [_ Hr]. exact (IH Hr).
Qed.

Lemma allChars_dropPrefixCI (p : ascii -> bool) (word s rest : string) :
  dropPrefixCI word s = Some rest ->
  allChars p s = true -> allChars p rest = true.
Proof.
  revert s. induction word as [|w word IH]; simpl; intros s Hd Hs.
  - now injection Hd as <-.
  - destruct s as [|c s]; [discriminate|].
    destruct (Ascii.eqb (lowerChar c) w); [|discriminate].
    simpl in Hs. apply andb_true_iff in Hs as [_ Hs]. eauto.
Qed.

Lemma allChars_stripLeading (p : ascii -> bool) (word s : string) :
  allChars p s = true -> allChars p (stripLeading word s) = true.
Proof.
  intros Hs. unfold stripLeading.
  destruct (dropPrefixCI word s) as [[|c rest]|] eqn:E; try exact Hs.
  destruct (isWhiteSpace c); [|exact Hs].
  apply allChars_trimStart.
  pose proof (allChars_dropPrefixCI p _ _ _ E Hs) as H. simpl in H.
  now apply andb_true_iff in H as [_ H].
Qed.

Lemma allChars_punctToSpace (s : string) :
  allChars (fun c => lowered c && noAmp c) s = true ->
  allChars clean (punctToSpace s) = true.
Proof.
  unfold punctToSpace.
  induction s as [|c r IH]; simpl; [reflexivity|].
  intros H. apply andb_true_iff in H as [Hc Hr]. rewrite (IH Hr), andb_true_r.
  destruct (isPunct c) eqn:E; [reflexivity|].
  unfold clean. now rewrite Hc, E.
Qed.

Lemma allChars_collapseFrom (b : bool) (s : string) :
  allChars clean s = true -> allChars clean (collapseFrom b s) = true.
Proof.
  revert b. induction s as [|c r IH]; simpl; intros b H; [reflexivity|].
  apply andb_true_iff in H as [Hc Hr].
  destruct (isWhiteSpace c); [destruct b|]; simpl;
    rewrite ?Hc, ?IH; auto.
Qed.

Lemma allChars_trimEnd (p : ascii -> bool) (s : string) :
  allChars p s = true -> allChars p (trimEnd s) = true.
Proof.
  induction s as [|c r IH]; simpl; [reflexivity|].
  intros H. apply andb_true_iff in H as [Hc Hr]. specialize (IH Hr).
  destruct (trimEnd r) as [|d r'].
  - destruct (isWhiteSpace c); simpl; [reflexivity|now rewrite Hc].
  - cbn [allChars] in IH |- *. now rewrite Hc, IH.
Qed.

Lemma tidy_weaken (s : string) : tidy true s = true -> tidy false s = true.
Proof.
  destruct s as [|c r]; simpl; [reflexivity|].
  destruct (isWhiteSpace c); [|auto].
  rewrite andb_false_r. discriminate.
Qed.

Lemma tidy_collapseFrom (b : bool) (s : string) :
  tidy b (collapseFrom b s) = true.
Proof.
  revert b. induction s as [|c r IH]; intros b; simpl; [reflexivity|].
  destruct (isWhiteSpace c) eqn:E.
  - destruct b; [apply IH|]. simpl. apply IH.
  - simpl. rewrite E. apply IH.
Qed.

Lemma tidy_trimStart (b : bool) (s : string) :
  tidy b s = true -> tidy false (trimStart s) = true.
Proof.
  revert b. induction s as [|c r IH]; intros b; simpl; [reflexivity|].
  destruct (isWhiteSpace c) eqn:E.
  - intros H. apply andb_true_iff in H as [_ H]. exact (IH _ H).
  - intros H. simpl. now rewrite E.
Qed.

Lemma tidy_cons (b : bool) (c : ascii) (r : string) :
  tidy b (String c r)
  = if isWhiteSpace c then Ascii.eqb c " " && negb b && tidy true r
    else tidy false r.
Proof. reflexivity. Qed.

Lemma tidy_trimEnd (b : bool) (s : string) :
  tidy b s = true -> tidy b (trimEnd s) = true.
Proof.
  revert b. induction s as [|c r IH]; intros b; [reflexivity|].
  rewrite tidy_cons. cbn [trimEnd].
  destruct (isWhiteSpace c) eqn:E; intros H.
  - apply andb_true_iff in H as [Hc Hr]. specialize (IH _ Hr).
    destruct (trimEnd r) as [|d r']; [reflexivity|].
    now rewrite tidy_cons, E, Hc, IH.
  - specialize (IH _ H).
    destruct (trimEnd r) as [|d r']; now rewrite tidy_cons, E.
Qed.

Lemma noLeadingSpace_trimStart (s : string) :
  noLeadingSpace (trimStart s) = true.
Proof.
  induction s as [|c r IH]; simpl; [reflexivity|].
  destruct (isWhiteSpace c) eqn:E; [exact IH|]. simpl. now rewrite E.
Qed.

Lemma noLeadingSpace_trimEnd (s : string) :
  noLeadingSpace s = true -> noLeadingSpace (trimEnd s) = true.
Proof.
  destruct s as [|c r]; simpl; [reflexivity|].
  intros H. destruct (trimEnd r); [|exact H].
  destruct (isWhiteSpace c) eqn:E; [reflexivity|]. simpl. now rewrite E.
Qed.

Lemma trimEnd_idempotent (s : string) : trimEnd (trimEnd s) = trimEnd s.
Proof.
  induction s as [|c r IH]; simpl; [reflexivity|].
  destruct (trimEnd r) as [|d r'] eqn:E.
  - destruct (isWhiteSpace c) eqn:Ec; simpl; [reflexivity|now rewrite Ec].
  - cbn [trimEnd] in IH |- *. now rewrite IH.
Qed.

Lemma normalizeTitle_normalForm (str : string) :
  normalForm (normalizeTitle str) = true.
Proof.
  unfold normalizeTitle. destruct (String.eqb str ""); [reflexivity|].
  unfold normalForm, trim, collapseWhiteSpace.
  set (s := punctToSpace _).
  assert (Hs : allChars clean s = true).
  { apply allChars_punctToSpace.
    do 3 apply allChars_stripLeading.
    apply allChars_replaceAmp, allChars_toLowerCase. }
  rewrite allChars_trimEnd
    by now apply allChars_trimStart, allChars_collapseFrom.
  rewrite tidy_trimEnd
    by exact (tidy_trimStart _ _ (tidy_collapseFrom false s)).
  rewrite noLeadingSpace_trimEnd by apply noLeadingSpace_trimStart.
  now rewrite trimEnd_idempotent, String.eqb_refl.
Qed.

End NormalFormFacts.

(* ===================================================================== *)
(** ** normalizeTitle: idempotence and the order of its steps *)
(* ===================================================================== *)

Section NormalizeFacts.
Import JsString Title NormalForm Spec.

Lemma toLowerCase_fixed (s : string) :
  allChars lowered s = true -> toLowerCase s = s.
Proof.
  unfold toLowerCase. induction s as [|c r IH]; simpl; [reflexivity|].
  intros H. apply andb_true_iff in H as [Hc Hr].
  apply Ascii.eqb_eq in Hc. now rewrite Hc, IH.
Qed.

Lemma replaceAmp_fixed (s : string) :
  allChars noAmp s = true -> replaceAllChar "&" "and" s = s.
Proof.
  induction s as [|c r IH]; simpl; [reflexivity|].
  intros H. apply andb_true_iff in H as [Hc Hr].
  unfold noAmp in Hc. apply negb_true_iff in Hc. now rewrite Hc, IH.
Qed.

Lemma punctToSpace_fixed (s : string) :
  allChars (fun c => negb (isPunct c)) s = true -> punctToSpace s = s.
Proof.
  unfold punctToSpace. induction s as [|c r IH]; simpl; [reflexivity|].
  intros H. apply andb_true_iff in H as [Hc Hr].
  apply negb_true_iff in Hc. now rewrite Hc, IH.
Qed.

Lemma collapseFrom_fixed (b : bool) (s : string) :
  tidy b s = true -> collapseFrom b s = s.
Proof.
  revert b. induction s as [|c r IH]; intros b; simpl; [reflexivity|].
  destruct (isWhiteSpace c); intros H.
  - apply andb_true_iff in H as [H Hr]. apply andb_true_iff in H as [Hc Hb].
    apply Ascii.eqb_eq in Hc. apply negb_true_iff in Hb. subst b c.
    now rewrite IH.
  - now rewrite IH.
Qed.

Lemma trimStart_fixed (s : string) :
  noLeadingSpace s = true -> trimStart s = s.
Proof.
  destruct s as [|c r]; simpl; [reflexivity|].
  intros H. apply negb_true_iff in H. now rewrite H.
Qed.

Lemma dropPrefixCI_lowered (word s rest : string) :
  dropPrefixCI word s = Some rest ->
  allChars lowered s = true -> s = word ++ rest.
Proof.
  revert s. induction word as [|w word IH]; simpl; intros s Hd Hs.
  - now injection Hd as <-.
  - destruct s as [|c s]; [discriminate|].
    destruct (Ascii.eqb (lowerChar c) w) eqn:E; [|discriminate].
    simpl in Hs. apply andb_true_iff in Hs as [Hc Hs].
    apply Ascii.eqb_eq in E, Hc. rewrite Hc in E. subst w.
    now rewrite (IH _ Hd Hs).
Qed.

Lemma tidy_plain_space (b : bool) (a : string) (c : ascii) (r : string) :
  tidy b (a ++ String c r) = true -> isWhiteSpace c = true -> c = " "%char.
Proof.
  revert b. induction a as [|d a IH]; intros b; simpl.
  - intros H Hc. rewrite Hc in H.
    apply andb_true_iff in H as [H _]. apply andb_true_iff in H as [H _].
    now apply Ascii.eqb_eq in H.
  - destruct (isWhiteSpace d); intros H; [|now apply (IH _ H)].
    apply andb_true_iff in H as [_ H]. now apply (IH _ H).
Qed.

Lemma matchesLeading_false (word s : string) :
  matchesLeading word s = false -> stripLeading word s = s.
Proof.
  unfold matchesLeading, stripLeading.
  destruct (dropPrefixCI word s) as [[|c rest]|]; try reflexivity.
  now intros ->.
Qed.

Lemma matchesLeading_normal (b : bool) (word s : string) :
  allChars lowered s = true -> tidy b s = true ->
  matchesLeading word s = true -> startsWith s (word ++ " ") = true.
Proof.
  intros Hl Ht. unfold matchesLeading.
  destruct (dropPrefixCI word s) as [[|c rest]|] eqn:E; try discriminate.
  intros Hc. pose proof (dropPrefixCI_lowered _ _ _ E Hl) as ->.
  rewrite (tidy_plain_space _ _ _ _ Ht Hc).
  apply startsWith_iff. exists rest.
  now rewrite append_assoc.
Qed.

Lemma stripLeading_fixed (b : bool) (word s : string) :
  allChars lowered s = true -> tidy b s = true ->
  startsWith s (word ++ " ") = false -> stripLeading word s = s.
Proof.
  intros Hl Ht Hs. apply matchesLeading_false.
  destruct (matchesLeading word s) eqn:E; [|reflexivity].
  now rewrite (matchesLeading_normal _ _ _ Hl Ht E) in Hs.
Qed.

Lemma normalForm_fixed (s : string) :
  normalForm s = true -> startsWithArticle s = false -> normalizeTitle s = s.
Proof.
  unfold normalForm, startsWithArticle. intros H Ha.
  apply andb_true_iff in H as [H He]. apply andb_true_iff in H as [H Hn].
  apply andb_true_iff in H as [Hc Ht]. apply String.eqb_eq in He.
  apply orb_false_iff in Ha as [Ha Han]. apply orb_false_iff in Ha as [Hthe Ha].
  assert (Hl : allChars lowered s = true).
  { revert Hc. apply allChars_mono. unfold clean. intros c H.
    apply andb_true_iff in H as [H _]. now apply andb_true_iff in H as [H _]. }
  assert (Hamp : allChars noAmp s = true).
  { revert Hc. apply allChars_mono. unfold clean. intros c H.
    apply andb_true_iff in H as [H _]. now apply andb_true_iff in H as [_ H]. }
  assert (Hp : allChars (fun c => negb (isPunct c)) s = true).
  { revert Hc. apply allChars_mono. unfold clean. intros c H.
    now apply andb_true_iff in H as [_ H]. }
  unfold normalizeTitle. destruct (String.eqb_spec s ""); [now subst|].
  rewrite (toLowerCase_fixed _ Hl), (replaceAmp_fixed _ Hamp).
  rewrite (stripLeading_fixed _ "the" _ Hl Ht Hthe).
  rewrite (stripLeading_fixed _ "a" _ Hl Ht Ha).
  rewrite (stripLeading_fixed _ "an" _ Hl Ht Han).
  rewrite (punctToSpace_fixed _ Hp).
  unfold collapseWhiteSpace, trim.
  now rewrite (collapseFrom_fixed _ _ Ht), (trimStart_fixed _ Hn).
Qed.

Lemma length_trimStart (s : string) :
  String.length (trimStart s) <= String.length s.
Proof.
  induction s as [|c r IH]; simpl; [lia|].
  destruct (isWhiteSpace c); simpl; lia.
Qed.

Lemma length_trimEnd (s : string) :
  String.length (trimEnd s) <= String.length s.
Proof.
  induction s as [|c r IH]; simpl; [lia|].
  destruct (trimEnd r); [destruct (isWhiteSpace c)|]; simpl in *; lia.
Qed.

Lemma length_collapseFrom (b : bool) (s : string) :
  String.length (collapseFrom b s) <= String.length s.
Proof.
  revert b. induction s as [|c r IH]; intros b; simpl; [lia|].
  pose proof (IH true). pose proof (IH false).
  destruct (isWhiteSpace c); [destruct b|]; simpl; lia.
Qed.

Lemma length_mapChars (f : ascii -> ascii) (s : string) :
  String.length (mapChars f s) = String.length s.
Proof. induction s as [|c r IH]; simpl; [reflexivity|now rewrite IH]. Qed.

Lemma length_dropPrefixCI (word s rest : string) :
  dropPrefixCI word s = Some rest -> String.length rest <= String.length s.
Proof.
  revert s. induction word as [|w word IH]; simpl; intros s Hd.
  - injection Hd as <-. lia.
  - destruct s as [|c s]; [discriminate|].
    destruct (Ascii.eqb (lowerChar c) w); [|discriminate].
    specialize (IH _ Hd). simpl. lia.
Qed.

Lemma length_stripLeading (word s : string) :
  String.length (stripLeading word s) <= String.length s.
Proof.
  unfold stripLeading.
  destruct (dropPrefixCI word s) as [[|c rest]|] eqn:E; try lia.
  destruct (isWhiteSpace c); [|lia].
  pose proof (length_dropPrefixCI _ _ _ E) as H.
  pose proof (length_trimStart rest). simpl in H. lia.
Qed.

Lemma length_stripLeading_matches (word s : string) :
  matchesLeading word s = true ->
  String.length (stripLeading word s) < String.length s.
Proof.
  unfold matchesLeading, stripLeading.
  destruct (dropPrefixCI word s) as [[|c rest]|] eqn:E; try discriminate.
  intros ->. pose proof (length_dropPrefixCI _ _ _ E) as H.
  pose proof (length_trimStart rest). simpl in H. lia.
Qed.

(** The last three steps never make a string longer. *)
Lemma length_tail_steps (s : string) :
  String.length (trim (collapseWhiteSpace (punctToSpace s)))
  <= String.length s.
Proof.
  unfold trim, collapseWhiteSpace, punctToSpace.
  pose proof (length_trimEnd (trimStart (collapseFrom false
    (mapChars (fun c => if isPunct c then " "%char else c) s)))).
  pose proof (length_trimStart (collapseFrom false
    (mapChars (fun c => if isPunct c then " "%char else c) s))).
  pose proof (length_collapseFrom false
    (mapChars (fun c => if isPunct c then " "%char else c) s)).
  rewrite length_mapChars in *. lia.
Qed.

Lemma startsWith_matchesLeading (s : string) :
  startsWithArticle s = true ->
  matchesLeading "the" s = true \/ matchesLeading "a" s = true
  \/ matchesLeading "an" s = true.
Proof.
  unfold startsWithArticle. intros H.
  apply orb_true_iff in H as [H|H]; [apply orb_true_iff in H as [H|H]|];
    apply startsWith_iff in H as [t ->]; auto.
Qed.

Lemma normalForm_article_shrinks (s : string) :
  normalForm s = true -> startsWithArticle s = true ->
  String.length (normalizeTitle s) < String.length s.
Proof.
  unfold normalForm. intros H Ha.
  apply andb_true_iff in H as [H _]. apply andb_true_iff in H as [H _].
  apply andb_true_iff in H as [Hc _].
  assert (Hl : allChars lowered s = true).
  { revert Hc. apply allChars_mono. unfold clean. intros c H.
    apply andb_true_iff in H as [H _]. now apply andb_true_iff in H as [H _]. }
  assert (Hamp : allChars noAmp s = true).
  { revert Hc. apply allChars_mono. unfold clean. intros c H.
    apply andb_true_iff in H as [H _]. now apply andb_true_iff in H as [_ H]. }
  unfold normalizeTitle. destruct (String.eqb_spec s ""); [now subst|].
  rewrite (toLowerCase_fixed _ Hl), (replaceAmp_fixed _ Hamp).
  pose proof (length_tail_steps
    (stripLeading "an" (stripLeading "a" (stripLeading "the" s)))) as Htail.
  pose proof (length_stripLeading "the" s) as H1.
  pose proof (length_stripLeading "a" (stripLeading "the" s)) as H2.
  pose proof (length_stripLeading "an" (stripLeading "a" (stripLeading "the" s)))
    as H3.
  destruct (matchesLeading "the" s) eqn:Ethe.
  { pose proof (length_stripLeading_matches _ _ Ethe). lia. }
  rewrite (matchesLeading_false _ _ Ethe) in *.
  destruct (matchesLeading "a" s) eqn:Ea.
  { pose proof (length_stripLeading_matches _ _ Ea). lia. }
  rewrite (matchesLeading_false _ _ Ea) in *.
  destruct (matchesLeading "an" s) eqn:Ean.
  { pose proof (length_stripLeading_matches _ _ Ean). lia. }
  destruct (startsWith_matchesLeading _ Ha) as [H|[H|H]]; congruence.
Qed.

(** C3 (amended).  [normalizeTitle] is idempotent at a title exactly when
    the title's normalised form does not begin with an article and a
    space: then normalising that form again gives it back, and otherwise
    it gives something shorter. *)
Theorem normalizeTitle_idempotent_without_article (x : string) :
  normalizeTitle (normalizeTitle x) = normalizeTitle x
  <-> startsWithArticle (normalizeTitle x) = false.
Proof.
  split; intros H.
  - destruct (startsWithArticle (normalizeTitle x)) eqn:E; [|reflexivity].
    pose proof (normalForm_article_shrinks _ (normalizeTitle_normalForm x) E).
    rewrite H in *. lia.
  - apply normalForm_fixed; [apply normalizeTitle_normalForm|exact H].
Qed.

Lemma normalizeTitle_idempotent_witness :
  startsWithArticle (normalizeTitle "The Matrix") = false
  /\ normalizeTitle (normalizeTitle "The Matrix") = normalizeTitle "The Matrix".
Proof.
  split; [reflexivity|].
  apply (proj2 (normalizeTitle_idempotent_without_article "The Matrix")).
  reflexivity.
Defined.

(** C3, as stated, fails: the title "The The Matrix" normalises to
    "the matrix", and that normalises to "matrix". *)
Lemma normalizeTitle_not_idempotent :
  normalizeTitle "The The Matrix" = "the matrix"
  /\ normalizeTitle (normalizeTitle "The The Matrix") = "matrix".
Proof. split; reflexivity. Qed.

Lemma mapChars_eachChar (f : ascii -> ascii) (s : string) :
  mapChars f s = eachChar f s.
Proof.
  unfold eachChar. induction s as [|c r IH]; cbn; [reflexivity|now rewrite IH].
Qed.

Lemma mapChars_ext (f g : ascii -> ascii) (s : string) :
  (forall c, f c = g c) -> mapChars f s = mapChars g s.
Proof.
  intros H. induction s as [|c r IH]; cbn; [reflexivity|now rewrite H, IH].
Qed.

Lemma lowerChar_smallLetter (c : ascii) : lowerChar c = smallLetter c.
Proof. destruct c as [[] [] [] [] [] [] [] []]; reflexivity. Qed.

Lemma toLowerCase_lowercased (s : string) : toLowerCase s = lowercased s.
Proof.
  unfold toLowerCase, lowercased. rewrite <- mapChars_eachChar.
  apply mapChars_ext, lowerChar_smallLetter.
Qed.

Lemma isPunct_marks (c : ascii) :
  isPunct c = existsb (Ascii.eqb c) [":"; "-"; "."]%char.
Proof. destruct c as [[] [] [] [] [] [] [] []]; reflexivity. Qed.

Lemma punctToSpace_marksToSpaces (s : string) :
  punctToSpace s = marksToSpaces s.
Proof.
  unfold punctToSpace, marksToSpaces. rewrite <- mapChars_eachChar.
  apply mapChars_ext. intros c. now rewrite isPunct_marks.
Qed.

Lemma append_nil_r (s : string) : s ++ "" = s.
Proof. induction s as [|c r IH]; cbn; [reflexivity|now rewrite IH]. Qed.

Lemma concat_empty_cons (x : string) (xs : list string) :
  String.concat "" (x :: xs) = x ++ String.concat "" xs.
Proof. destruct xs; cbn; [now rewrite append_nil_r|reflexivity]. Qed.

Lemma replaceAmp_ampersandsToAnd (s : string) :
  replaceAllChar "&" "and" s = ampersandsToAnd s.
Proof.
  unfold ampersandsToAnd. induction s as [|c r IH]; [reflexivity|].
  cbn [replaceAllChar list_ascii_of_string map]. rewrite concat_empty_cons, <- IH.
  now destruct (Ascii.eqb c "&").
Qed.

Lemma isWhiteSpace_isSpace (c : ascii) : isWhiteSpace c = isSpace c.
Proof. destruct c as [[] [] [] [] [] [] [] []]; reflexivity. Qed.

Lemma trimStart_dropSpaces (s : string) : trimStart s = dropSpaces s.
Proof.
  induction s as [|c r IH]; cbn; [reflexivity|].
  rewrite isWhiteSpace_isSpace, IH. reflexivity.
Qed.

Lemma substring_all (s : string) : substring 0 (String.length s) s = s.
Proof. induction s as [|c r IH]; cbn; [reflexivity|now rewrite IH]. Qed.

Lemma dropPrefixCI_prefix (word s : string) :
  allChars lowered s = true ->
  dropPrefixCI word s
  = if String.prefix word s
    then Some (substring (String.length word)
                 (String.length s - String.length word) s)
    else None.
Proof.
  revert s. induction word as [|w word IH]; intros s Hs.
  - cbn [dropPrefixCI String.length]. rewrite Nat.sub_0_r, substring_all.
    now destruct s.
  - destruct s as [|c s]; [reflexivity|].
    cbn [allChars] in Hs. apply andb_true_iff in Hs as [Hc Hs].
    apply Ascii.eqb_eq in Hc.
    cbn [dropPrefixCI String.prefix String.length Nat.sub substring].
    rewrite Hc. destruct (ascii_dec w c) as [->|Hne].
    + rewrite Ascii.eqb_refl. now apply IH.
    + destruct (Ascii.eqb_spec c w); [now subst|reflexivity].
Qed.

Lemma stripLeading_stripArticle (word s : string) :
  allChars lowered s = true -> stripLeading word s = stripArticle word s.
Proof.
  intros Hs. unfold stripLeading, stripArticle.
  rewrite (dropPrefixCI_prefix _ _ Hs).
  destruct (String.prefix word s); [|reflexivity]. cbn [andb].
  destruct (substring _ _ s) as [|c rest]; [reflexivity|].
  cbn [beginsWithSpace]. rewrite isWhiteSpace_isSpace.
  destruct (isSpace c) eqn:E; [|reflexivity].
  cbn [dropSpaces]. rewrite E. apply trimStart_dropSpaces.
Qed.

Lemma noLeadingSpace_collapseFrom (s : string) :
  noLeadingSpace (collapseFrom true s) = true.
Proof.
  induction s as [|c r IH]; cbn; [reflexivity|].
  destruct (isWhiteSpace c) eqn:E; [exact IH|]. cbn. now rewrite E.
Qed.

Lemma trimStart_collapseFrom (s : string) :
  trimStart (collapseFrom false s) = collapseFrom true s.
Proof.
  destruct s as [|c r]; [reflexivity|]. cbn [collapseFrom].
  destruct (isWhiteSpace c) eqn:E.
  - cbn [trimStart]. change (isWhiteSpace " ") with true. cbn iota.
    apply trimStart_fixed, noLeadingSpace_collapseFrom.
  - cbn [trimStart]. now rewrite E.
Qed.

Lemma words_head (s w : string) (ws : list string) :
  words s = w :: ws -> w <> "".
Proof.
  revert w ws. induction s as [|c r IH]; intros w ws; cbn [words];
    [discriminate|].
  destruct (isSpace c); [apply IH|].
  destruct (beginsWithSpace r); [intros [= <- _]; discriminate|].
  destruct (words r); intros [= <- _]; discriminate.
Qed.

Lemma concat_words (s : string) :
  String.concat " " (words s) = "" -> words s = [].
Proof.
  destruct (words s) as [|w ws] eqn:E; [reflexivity|].
  pose proof (words_head _ _ _ E) as Hw.
  destruct w as [|c w]; [contradiction|].
  destruct ws; discriminate.
Qed.

Lemma trimEnd_letter (c : ascii) (s : string) :
  isWhiteSpace c = false -> trimEnd (String c s) = String c (trimEnd s).
Proof. intros H. cbn [trimEnd]. rewrite H. now destruct (trimEnd s). Qed.

Lemma trimEnd_collapseFrom (s : string) :
  trimEnd (collapseFrom true s) = spacedWords s
  /\ trimEnd (collapseFrom false s)
     = if beginsWithSpace s
       then match words s with
            | [] => ""
            | _ :: _ => String " " (spacedWords s)
            end
       else spacedWords s.
Proof.
  unfold spacedWords. induction s as [|c r [IHt IHf]]; [split; reflexivity|].
  cbn [collapseFrom words beginsWithSpace]. rewrite <- isWhiteSpace_isSpace.
  destruct (isWhiteSpace c) eqn:E.
  - split; [exact IHt|]. cbn [trimEnd]. rewrite IHt.
    change (isWhiteSpace " ") with true. cbn iota.
    destruct (words r) as [|w ws] eqn:Ew; [reflexivity|].
    destruct (String.concat " " (w :: ws)) eqn:Ec; [|reflexivity].
    rewrite <- Ew in Ec. apply concat_words in Ec. congruence.
  - rewrite (trimEnd_letter _ _ E), IHf.
    assert (H : String c
              (if beginsWithSpace r
               then match words r with
                    | [] => ""
                    | _ :: _ => String " " (String.concat " " (words r))
                    end
               else String.concat " " (words r))
            = String.concat " "
                (if beginsWithSpace r then String c "" :: words r
                 else match words r with
                      | [] => [String c ""]
                      | w :: ws => String c w :: ws
                      end)).
    { destruct (beginsWithSpace r); destruct (words r) as [|w [|w' ws]];
        reflexivity. }
    now split.
Qed.

Lemma trim_collapse_spacedWords (s : string) :
  trim (collapseWhiteSpace s) = spacedWords s.
Proof.
  unfold trim, collapseWhiteSpace. rewrite trimStart_collapseFrom.
  apply trimEnd_collapseFrom.
Qed.

Lemma normalizeTitle_inOrder (str : string) : normalizeTitle str = inOrder str.
Proof.
  unfold normalizeTitle, inOrder.
  destruct (String.eqb_spec str "") as [->|_]; [reflexivity|].
  rewrite trim_collapse_spacedWords, punctToSpace_marksToSpaces.
  assert (Hl : allChars lowered (replaceAllChar "&" "and" (toLowerCase str))
               = true).
  { eapply allChars_mono; [|apply allChars_replaceAmp, allChars_toLowerCase].
    intros c H. now apply andb_true_iff in H as [H _]. }
  rewrite <- toLowerCase_lowercased, <- replaceAmp_ampersandsToAnd.
  set (s0 := replaceAllChar "&" "and" (toLowerCase str)) in *.
  pose proof (allChars_stripLeading lowered "the" _ Hl) as H1.
  pose proof (allChars_stripLeading lowered "a" _ H1) as H2.
  now rewrite (stripLeading_stripArticle "an" _ H2),
    (stripLeading_stripArticle "a" _ H1), (stripLeading_stripArticle "the" _ Hl).
Qed.

(** C4 (amended).  [normalizeTitle] performs, in order: lower-casing;
    replacing every ampersand by the three letters "and"; stripping a
    leading "the", then a leading "a", then a leading "an", each with
    the white space after it; replacing colon, hyphen and full stop by a
    space; collapsing white space; trimming.  Its result is that of the
    six steps written out one by one.  When at most one of the three
    strips applies, that is the specification's single strip.
    "The Matrix" and "Matrix" both give "matrix"; "A&B" gives "aandb";
    punctuation, runs of white space and white space at the ends go as
    in "  Spider-Man:  No.Way   Home. ". *)
Theorem normalizeTitle_steps :
  (forall str, normalizeTitle str = inOrder str)
  /\ (forall str,
        articlesStripped str <= 1 -> normalizeTitle str = Spec.normalize str)
  /\ normalizeTitle "The Matrix" = "matrix"
  /\ normalizeTitle "Matrix" = "matrix"
  /\ normalizeTitle "A&B" = "aandb"
  /\ normalizeTitle "  Spider-Man:  No.Way   Home. " = "spider man no way home"
  /\ normalizeTitle "Mr. & Mrs. Smith" = "mr and mrs smith"
  /\ normalizeTitle ("An" ++ String "009" "Education" ++ String "010" "")
     = "education".
Proof.
  split; [exact normalizeTitle_inOrder|].
  split; [|repeat split; reflexivity].
  intros str. unfold normalizeTitle, Spec.normalize, articlesStripped.
  destruct (String.eqb_spec str "") as [->|_]; [reflexivity|].
  set (s0 := replaceAllChar "&" "and" (toLowerCase str)).
  unfold stripOneArticle.
  destruct (matchesLeading "the" s0) eqn:Ethe.
  - destruct (matchesLeading "a" (stripLeading "the" s0)) eqn:Ea; [lia|].
    rewrite (matchesLeading_false _ _ Ea).
    destruct (matchesLeading "an" (stripLeading "the" s0)) eqn:Ean; [lia|].
    now rewrite (matchesLeading_false _ _ Ean).
  - rewrite (matchesLeading_false _ _ Ethe).
    destruct (matchesLeading "a" s0) eqn:Ea.
    + destruct (matchesLeading "an" (stripLeading "a" s0)) eqn:Ean; [lia|].
      now rewrite (matchesLeading_false _ _ Ean).
    + now rewrite (matchesLeading_false _ _ Ea).
Qed.

Lemma normalizeTitle_steps_witness :
  articlesStripped "The Matrix" <= 1
  /\ normalizeTitle "The Matrix" = Spec.normalize "The Matrix".
Proof.
  split; [vm_compute; lia|].
  apply (proj1 (proj2 normalizeTitle_steps) "The Matrix"). vm_compute; lia.
Defined.

(** C4, as stated, fails twice: "A&B" gives "aandb", not "a and b", and
    "The A Team" loses two articles where a single strip keeps "a team". *)
Lemma normalizeTitle_differs_from_spec :
  normalizeTitle "A&B" = "aandb"
  /\ normalizeTitle "The A Team" = "team"
  /\ Spec.normalize "The A Team" = "a team".
Proof. repeat split; reflexivity. Qed.

End NormalizeFacts.

(* ===================================================================== *)
(** ** The score of a search result *)
(* ===================================================================== *)

Section ScoreFacts.
Import JsString Title Spec.

Lemma nameScore_cases (c t : string) :
  (c = t /\ nameScore c t = 60%Z)
  \/ (c <> t /\ (exists r, c = t ++ r) /\ nameScore c t = 20%Z)
  \/ (c <> t /\ ~ (exists r, c = t ++ r) /\ (exists a b, c = a ++ t ++ b)
      /\ nameScore c t = 10%Z)
  \/ (c <> t /\ ~ (exists a b, c = a ++ t ++ b) /\ nameScore c t = 0%Z).
Proof.
  unfold nameScore.
  destruct (String.eqb_spec c t) as [E|E]; [now left|right].
  destruct (startsWith c t) eqn:Es.
  - left. apply startsWith_iff in Es. auto.
  - right.
    assert (Hs : ~ (exists r, c = t ++ r)).
    { intros H. apply startsWith_iff in H. congruence. }
    destruct (includes c t) eqn:Ei.
    + left. apply includes_iff in Ei. auto.
    + right. repeat split; auto.
      intros H. apply includes_iff in H. congruence.
Qed.

(** C5.  The score of a search result is the sum of a kind component
    (100 when its type is the requested one, -50 otherwise) and a name
    component over the normalised names (60 when they are equal, else 20
    when the result's name starts with the target, else 10 when it
    contains it, else 0).  For the target "Matrix" and the type movie:
    "The Matrix" (movie) scores 160, "Matrix Reloaded" (movie) 120 and
    "Matrix" (series) 10. *)
Theorem scoreItem_kind_plus_name :
  (forall reqType target item,
     scoreItem reqType (normalizeTitle target) item
     = (kindScore (type item) reqType
        + nameScore (normalizeTitle (name item)) (normalizeTitle target))%Z)
  /\ (forall kind reqType,
        (kind = reqType /\ kindScore kind reqType = 100%Z)
        \/ (kind <> reqType /\ kindScore kind reqType = (-50)%Z))
  /\ (forall c t,
        (c = t /\ nameScore c t = 60%Z)
        \/ (c <> t /\ (exists r, c = t ++ r) /\ nameScore c t = 20%Z)
        \/ (c <> t /\ ~ (exists r, c = t ++ r)
            /\ (exists a b, c = a ++ t ++ b) /\ nameScore c t = 10%Z)
        \/ (c <> t /\ ~ (exists a b, c = a ++ t ++ b)
            /\ nameScore c t = 0%Z))
  /\ scoreItem "movie" (normalizeTitle "Matrix")
       {| name := "The Matrix"; type := "movie" |} = 160%Z
  /\ scoreItem "movie" (normalizeTitle "Matrix")
       {| name := "Matrix Reloaded"; type := "movie" |} = 120%Z
  /\ scoreItem "movie" (normalizeTitle "Matrix")
       {| name := "Matrix"; type := "series" |} = 10%Z.
Proof.
  split; [|split; [|split; [exact nameScore_cases|repeat split; reflexivity]]].
  - intros reqType target item. unfold scoreItem, kindScore, nameScore.
    set (n := normalizeTitle (name item)). set (t := normalizeTitle target).
    destruct (String.eqb (type item) reqType); destruct (String.eqb n t);
      destruct (startsWith n t); destruct (includes n t); reflexivity.
  - intros kind reqType. unfold kindScore.
    destruct (String.eqb_spec kind reqType); auto.
Qed.

End ScoreFacts.

(* ===================================================================== *)
(** ** Movie links *)
(* ===================================================================== *)

Section MovieLinkFacts.
Import JsString Json Links Spec Payload.

Lemma printable_toString (v : value) :
  printable v = true -> exists s, toString v = Ok s.
Proof. unfold printable. destruct (toString v); [eauto|discriminate]. Qed.

Lemma movieLink_entry (e : value) :
  isEntry e = true ->
  movieLink e = Ok {| url := getPropOpt e "file"; title := movieTitle e |}.
Proof.
  destruct e as [| | | | | |fields]; try discriminate. cbn [isEntry].
  intros H. apply andb_true_iff in H as [H Hl].
  apply andb_true_iff in H as [H He]. apply andb_true_iff in H as [Hq Hs].
  apply printable_toString in Hq as [q Hq], Hs as [s Hs], He as [e He],
    Hl as [l Hl].
  unfold movieLink, movieTitle, fieldText, getPropOpt. cbn [getProp bind].
  rewrite Hq, Hs, He, Hl. cbn [bind String.concat].
  now rewrite !append_assoc.
Qed.

Lemma movieLoop_entries (entries : list value) (links : list link) :
  forallb isEntry entries = true ->
  movieLoop entries links
  = Ok (links ++ map (fun e => {| url := getPropOpt e "file";
                                  title := movieTitle e |}) entries)%list.
Proof.
  revert links. induction entries as [|e rest IH]; intros links; cbn [forallb].
  - intros _. cbn. now rewrite app_nil_r.
  - intros H. apply andb_true_iff in H as [He Hrest].
    cbn [movieLoop map]. rewrite (movieLink_entry _ He). cbn [bind].
    rewrite (IH _ Hrest). now rewrite <- app_assoc.
Qed.

(** C8.  For a detail whose [movie_download_urls] is an array of download
    entries, [getMovieLinks] returns one link per entry, in the array's
    order; its title is the entry's quality, size, encode and label joined
    with " - " (a field that is absent reads "undefined", and nothing
    fails), its url is the entry's [file] as it is.  The one entry
    1080p / 2GB / x265 / WEB / https://host/f.mkv gives the one link
    "1080p - 2GB - x265 - WEB" with that url, and no entry gives no link. *)
Theorem getMovieLinks_one_link_per_entry :
  (forall movieData entries,
     getProp movieData "movie_download_urls" = Ok (VArr entries) ->
     forallb isEntry entries = true ->
     getMovieLinks movieData
     = Ok (map (fun e => {| url := getPropOpt e "file";
                            title := movieTitle e |}) entries))
  /\ (forall quality size encode label file,
        movieTitle (downloadEntry quality size encode label file)
        = quality ++ " - " ++ size ++ " - " ++ encode ++ " - " ++ label)
  /\ getMovieLinks
       (movieDetail
          [downloadEntry "1080p" "2GB" "x265" "WEB" "https://host/f.mkv"])
     = Ok [{| url := VStr "https://host/f.mkv";
              title := "1080p - 2GB - x265 - WEB" |}]
  /\ getMovieLinks (movieDetail []) = Ok [].
Proof.
  split; [|repeat split; reflexivity].
  intros movieData entries Hget Hentries. unfold getMovieLinks.
  assert (Ht : truthy movieData = true).
  { destruct movieData; try discriminate; reflexivity. }
  unfold getPropOpt. rewrite Hget, Ht. cbn [truthy negb orb bind iterate].
  now rewrite (movieLoop_entries _ _ Hentries).
Qed.

Lemma getMovieLinks_witness :
  getMovieLinks
    (movieDetail [downloadEntry "720p" "1GB" "x264" "BluRay" "https://host/a.mkv";
                  VObj [("file", VStr "https://host/b.mkv")]])
  = Ok [{| url := VStr "https://host/a.mkv";
           title := "720p - 1GB - x264 - BluRay" |};
        {| url := VStr "https://host/b.mkv";
           title := "undefined - undefined - undefined - undefined" |}].
Proof.
  apply (proj1 getMovieLinks_one_link_per_entry
           (movieDetail [downloadEntry "720p" "1GB" "x264" "BluRay" "https://host/a.mkv";
                         VObj [("file", VStr "https://host/b.mkv")]])
           [downloadEntry "720p" "1GB" "x264" "BluRay" "https://host/a.mkv";
            VObj [("file", VStr "https://host/b.mkv")]]);
    reflexivity.
Defined.

End MovieLinkFacts.

(* ===================================================================== *)
(** ** Series links *)
(* ===================================================================== *)

Section SeriesLinkFacts.
Import JsString Json Links Spec Payload.

(** An id without season and episode, or with one more part only, asks
    for season 1, episode 1. *)
Example seasonEpisode_defaults :
  seasonEpisode "tt000" = (Int 1, Int 1)
  /\ seasonEpisode "tt000:2" = (Int 1, Int 1)
  /\ seasonEpisode "tt000:2:3" = (Int 2, Int 3).
Proof. repeat split; reflexivity. Qed.

(** The id tt000:2:3 against a season-2 bucket of five episodes gives the
    entry at index 2 of that bucket, and nothing of the season-1 bucket. *)
Example getSeriesLinks_season_2_episode_3 :
  getSeriesLinks
    (seriesDetail [seasonBucket "Season: 1" "720p" "1GB" (fiveEpisodes "s01");
                   seasonBucket "Season: 2" "720p" "1GB" (fiveEpisodes "s02")])
    "tt000:2:3"
  = Ok [{| url := VStr "https://host/s02e03.mkv"; title := "720p - 1GB" |}].
Proof. reflexivity. Qed.

(** A bucket with too few episodes is skipped, the others stay. *)
Example getSeriesLinks_skips_short_bucket :
  getSeriesLinks
    (seriesDetail
       [seasonBucket "Season: 2" "480p" "500MB" [episodeEntry "https://host/x.mkv"];
        seasonBucket "Season: 2" "720p" "1GB" (fiveEpisodes "s02")])
    "tt000:2:3"
  = Ok [{| url := VStr "https://host/s02e03.mkv"; title := "720p - 1GB" |}].
Proof. reflexivity. Qed.

Lemma getProp_truthy (v : value) (key : string) :
  truthy v = true -> getProp v key = Ok (getPropOpt v key).
Proof. unfold getPropOpt. destruct v; try discriminate; reflexivity. Qed.

Lemma seasonMatches_bucket (season : number) (b : value) :
  isBucket b = true ->
  seasonMatches (":" ++ numberToString season) b = Ok (labelMatches season b).
Proof.
  destruct b as [| | | | | |fields]; try discriminate. cbn [isBucket].
  intros H. apply andb_true_iff in H as [H _]. apply andb_true_iff in H as [H _].
  unfold hasLabel, labelMatches, labelOf, seasonMatches, getPropOpt in *.
  cbn [getProp bind] in *. now destruct (lookup "season_name" fields).
Qed.

Lemma filterItems_buckets (season : number) (buckets : list value) :
  forallb isBucket buckets = true ->
  filterItems (":" ++ numberToString season) buckets
  = Ok (filter (labelMatches season) buckets).
Proof.
  induction buckets as [|b rest IH]; cbn [forallb filterItems filter];
    [reflexivity|].
  intros H. apply andb_true_iff in H as [Hb Hrest].
  rewrite (seasonMatches_bucket _ _ Hb), (IH Hrest). cbn [bind].
  now destruct (labelMatches season b).
Qed.

Lemma seriesLink_bucket (season episode : number) (b : value) :
  isBucket b = true -> labelMatches season b = true ->
  seriesLink episode b
  = Ok match bucketLinks season episode b with
       | l :: _ => Some l
       | [] => None
       end.
Proof.
  destruct b as [| | | | | |fields]; try discriminate. cbn [isBucket].
  intros H Hm. apply andb_true_iff in H as [H Hs].
  apply andb_true_iff in H as [_ Hq].
  apply printable_toString in Hq as [q Hq], Hs as [sz Hs].
  unfold seriesLink, bucketLinks, fieldText, getPropOpt.
  cbn [getProp bind]. rewrite Hq, Hs, Hm. cbn [bind andb].
  destruct (truthy (lookup "links" fields)); [|reflexivity].
  cbn [andb].
  destruct (truthy (getIndex (lookup "links" fields) (pred episode))) eqn:E;
    [|reflexivity].
  rewrite (getProp_truthy _ _ E). cbn [bind]. unfold getPropOpt.
  now rewrite append_assoc.
Qed.

Lemma bucketLinks_no_match (season episode : number) (b : value) :
  labelMatches season b = false -> bucketLinks season episode b = [].
Proof. unfold bucketLinks. now intros ->. Qed.

Lemma bucketLinks_at_most_one (season episode : number) (b : value) :
  bucketLinks season episode b
  = match bucketLinks season episode b with
    | l :: _ => [l]
    | [] => []
    end.
Proof. unfold bucketLinks. now destruct (_ && _). Qed.

Lemma seriesLoop_buckets (season episode : number) (buckets : list value)
    (links : list link) :
  forallb isBucket buckets = true ->
  seriesLoop episode (filter (labelMatches season) buckets) links
  = ((links ++ flat_map (bucketLinks season episode) buckets)%list, Ok tt).
Proof.
  revert links.
  induction buckets as [|b rest IH]; intros links; cbn [forallb filter flat_map].
  - intros _. cbn. now rewrite app_nil_r.
  - intros H. apply andb_true_iff in H as [Hb Hrest].
    destruct (labelMatches season b) eqn:Em.
    + cbn [seriesLoop]. rewrite (seriesLink_bucket season _ _ Hb Em).
      rewrite (bucketLinks_at_most_one season episode b).
      destruct (bucketLinks season episode b) as [|l ?];
        rewrite (IH _ Hrest); [reflexivity|].
      now rewrite <- app_assoc.
    + rewrite (bucketLinks_no_match _ _ _ Em). cbn [app]. apply (IH _ Hrest).
Qed.

(** What in C6 holds of the code.  For a detail whose season buckets are
    well formed, [getSeriesLinks] returns, bucket by bucket in the
    provider's order, the entry at index [episode - 1] of every bucket
    whose label passes the season filter, with the title "quality - size";
    a bucket without an entry there contributes nothing.  Season and
    episode are the second and third part of the id, and 1 and 1 when the
    id has fewer than three parts. *)
Lemma getSeriesLinks_buckets (movieData : value) (imdbId : string)
    (buckets : list value) :
  getProp movieData "serie_download_urls" = Ok (VArr buckets) ->
  forallb isBucket buckets = true ->
  getSeriesLinks movieData imdbId
  = Ok (flat_map (bucketLinks (fst (seasonEpisode imdbId))
                              (snd (seasonEpisode imdbId))) buckets).
Proof.
  intros Hget Hb.
  assert (Ht : truthy movieData = true).
  { destruct movieData; try discriminate; reflexivity. }
  unfold getSeriesLinks, seriesTry.
  destruct (seasonEpisode imdbId) as [season episode]. cbn [fst snd].
  unfold getPropOpt. rewrite Hget, Ht. cbn [truthy andb filterOf].
  rewrite (filterItems_buckets _ _ Hb).
  now rewrite (seriesLoop_buckets season episode _ _ Hb).
Qed.

(** C6 (the code at the failing input).  The season filter is a substring
    test on [":" + season]: a request for season 1, episode 1 also returns
    the first episode of the season-10 bucket, whose label "Season:10"
    contains ":1". *)
Theorem getSeriesLinks_season_1_takes_season_10 :
  getSeriesLinks
    (seriesDetail [seasonBucket "Season: 1" "720p" "1GB" (fiveEpisodes "s01");
                   seasonBucket "Season: 2" "720p" "1GB" (fiveEpisodes "s02");
                   seasonBucket "Season: 10" "720p" "1GB" (fiveEpisodes "s10")])
    "tt000:1:1"
  = Ok [{| url := VStr "https://host/s01e01.mkv"; title := "720p - 1GB" |};
        {| url := VStr "https://host/s10e01.mkv"; title := "720p - 1GB" |}].
Proof. reflexivity. Qed.

Lemma seasonMatches_no_label (seasonTitle : string) (i : value) :
  hasLabel i = false -> seasonMatches seasonTitle i = TypeError.
Proof.
  unfold hasLabel, seasonMatches, getPropOpt.
  destruct (getProp i "season_name") as [v|]; [|reflexivity].
  destruct v; cbn [bind]; try reflexivity. discriminate.
Qed.

Lemma seasonMatches_label (seasonTitle : string) (i : value) :
  hasLabel i = true -> exists keep, seasonMatches seasonTitle i = Ok keep.
Proof.
  unfold hasLabel, seasonMatches, getPropOpt.
  destruct (getProp i "season_name") as [v|]; [|discriminate].
  destruct v; try discriminate. cbn [bind]. eauto.
Qed.

Lemma filterItems_no_label (seasonTitle : string) (items : list value) :
  existsb (fun i => negb (hasLabel i)) items = true ->
  filterItems seasonTitle items = TypeError.
Proof.
  induction items as [|i rest IH]; cbn [existsb filterItems]; [discriminate|].
  destruct (hasLabel i) eqn:E; cbn [negb orb].
  - intros H. destruct (seasonMatches_label seasonTitle i E) as [keep ->].
    cbn [bind]. now rewrite (IH H).
  - intros _. now rewrite (seasonMatches_no_label _ _ E).
Qed.

Lemma hasLabel_object (b : value) :
  hasLabel b = true -> exists fields, b = VObj fields.
Proof.
  unfold hasLabel, getPropOpt. destruct b; cbn; try discriminate. eauto.
Qed.

Lemma seasonMatches_labelled (season : number) (b : value) :
  hasLabel b = true ->
  seasonMatches (":" ++ numberToString season) b = Ok (labelMatches season b).
Proof.
  intros H. destruct (hasLabel_object _ H) as [fields ->].
  unfold hasLabel, labelMatches, labelOf, seasonMatches, getPropOpt in *.
  cbn [getProp bind] in *. now destruct (lookup "season_name" fields).
Qed.

Lemma filterItems_labelled (season : number) (buckets : list value) :
  forallb hasLabel buckets = true ->
  filterItems (":" ++ numberToString season) buckets
  = Ok (filter (labelMatches season) buckets).
Proof.
  induction buckets as [|b rest IH]; cbn [forallb filterItems filter];
    [reflexivity|].
  intros H. apply andb_true_iff in H as [Hb Hrest].
  rewrite (seasonMatches_labelled _ _ Hb), (IH Hrest). cbn [bind].
  now destruct (labelMatches season b).
Qed.

Lemma isBucket_labelled (b : value) :
  hasLabel b = true -> isBucket b = hasTitle b.
Proof.
  intros H. destruct (hasLabel_object _ H) as [fields ->].
  cbn [isBucket]. rewrite H. reflexivity.
Qed.

Lemma seriesLink_no_title (episode : number) (b : value) :
  hasLabel b = true -> hasTitle b = false -> seriesLink episode b = TypeError.
Proof.
  intros H. destruct (hasLabel_object _ H) as [fields ->].
  unfold hasTitle, printable, seriesLink, getPropOpt. cbn [getProp bind].
  destruct (toString (lookup "quality" fields)); [|reflexivity].
  cbn [bind andb]. destruct (toString (lookup "size" fields)); [discriminate|].
  reflexivity.
Qed.

Lemma seriesLoop_labelled (season episode : number) (buckets : list value)
    (links : list link) :
  forallb hasLabel buckets = true ->
  fst (seriesLoop episode (filter (labelMatches season) buckets) links)
  = (links ++ flat_map (bucketLinks season episode)
                (beforeBadTitle season buckets))%list.
Proof.
  revert links.
  induction buckets as [|b rest IH]; intros links;
    cbn [forallb filter flat_map beforeBadTitle].
  - intros _. cbn. now rewrite app_nil_r.
  - intros H. apply andb_true_iff in H as [Hb Hrest].
    destruct (labelMatches season b) eqn:Em; cbn [andb].
    + cbn [seriesLoop]. destruct (hasTitle b) eqn:Et; cbn [negb].
      * rewrite <- (isBucket_labelled _ Hb) in Et.
        rewrite (seriesLink_bucket season _ _ Et Em). cbn [flat_map].
        rewrite (bucketLinks_at_most_one season episode b).
        destruct (bucketLinks season episode b) as [|l ?];
          rewrite (IH _ Hrest); [reflexivity|].
        now rewrite <- app_assoc.
      * rewrite (seriesLink_no_title _ _ Hb Et). cbn. now rewrite app_nil_r.
    + cbn [flat_map]. rewrite (bucketLinks_no_match _ _ _ Em). cbn [app].
      apply (IH _ Hrest).
Qed.

Lemma getSeriesLinks_labelled (movieData : value) (imdbId : string)
    (buckets : list value) :
  getProp movieData "serie_download_urls" = Ok (VArr buckets) ->
  forallb hasLabel buckets = true ->
  printable movieData = true ->
  getSeriesLinks movieData imdbId
  = Ok (flat_map (bucketLinks (fst (seasonEpisode imdbId))
                              (snd (seasonEpisode imdbId)))
          (beforeBadTitle (fst (seasonEpisode imdbId)) buckets)).
Proof.
  intros Hget Hb Hp.
  assert (Ht : truthy movieData = true).
  { destruct movieData; try discriminate; reflexivity. }
  unfold getSeriesLinks, seriesTry.
  destruct (seasonEpisode imdbId) as [season episode]. cbn [fst snd].
  unfold getPropOpt. rewrite Hget, Ht. cbn [truthy andb filterOf].
  rewrite (filterItems_labelled _ _ Hb).
  pose proof (seriesLoop_labelled season episode buckets [] Hb) as H.
  destruct (seriesLoop episode _ []) as [links [u|]]; cbn [fst app] in H;
    subst links; [reflexivity|].
  destruct (printable_toString _ Hp) as [s ->]. reflexivity.
Qed.

(** C7 (amended).  [getSeriesLinks] has one handler around the whole
    extraction.  It never raises for a payload that converts to a string
    (the handler writes the payload into its log message), and returns
    the links pushed before the error: none when the error comes from a
    season label, which is read for every bucket before the first link is
    built; when every bucket has a label, the links of the buckets
    before the first one that passes the season filter and whose title
    cannot be built, all of them and no other; none when the list of
    buckets is no array.  [getMovieLinks] returns no
    link, without raising, when the payload or its list of entries is
    missing. *)
Theorem getSeriesLinks_catches_as_a_whole :
  (forall movieData imdbId,
     printable movieData = true ->
     exists links, getSeriesLinks movieData imdbId = Ok links)
  /\ (forall movieData imdbId buckets,
        getProp movieData "serie_download_urls" = Ok (VArr buckets) ->
        existsb (fun b => negb (hasLabel b)) buckets = true ->
        printable movieData = true ->
        getSeriesLinks movieData imdbId = Ok [])
  /\ (forall movieData imdbId buckets,
        getProp movieData "serie_download_urls" = Ok (VArr buckets) ->
        forallb hasLabel buckets = true ->
        printable movieData = true ->
        getSeriesLinks movieData imdbId
        = Ok (flat_map (bucketLinks (fst (seasonEpisode imdbId))
                                    (snd (seasonEpisode imdbId)))
                (beforeBadTitle (fst (seasonEpisode imdbId)) buckets)))
  /\ (forall movieData imdbId,
        (forall buckets,
           getPropOpt movieData "serie_download_urls" <> VArr buckets) ->
        printable movieData = true ->
        getSeriesLinks movieData imdbId = Ok [])
  /\ getSeriesLinks
       (seriesDetail
          [seasonBucket "Season: 1" "720p" "1GB" (fiveEpisodes "s01");
           seasonBucket "Season: 2" "720p" "1GB" (fiveEpisodes "s02");
           seasonBucket "Season: 1" "480p" "500MB" (fiveEpisodes "s01");
           VObj [("season_name", VStr "Season: 1");
                 ("quality", VObj [("toString", VNum 1)])];
           seasonBucket "Season: 1" "1080p" "2GB" (fiveEpisodes "s01")])
       "tt000:1:1"
     = Ok [{| url := VStr "https://host/s01e01.mkv"; title := "720p - 1GB" |};
           {| url := VStr "https://host/s01e01.mkv"; title := "480p - 500MB" |}]
  /\ (forall movieData,
        truthy movieData = false
        \/ truthy (getPropOpt movieData "movie_download_urls") = false ->
        getMovieLinks movieData = Ok []).
Proof.
  split; [|split; [|split; [exact getSeriesLinks_labelled
                           |split; [|split; [reflexivity|]]]]].
  - intros movieData imdbId Hp. unfold getSeriesLinks.
    destruct (seriesTry movieData imdbId) as [links [u|]]; [eauto|].
    destruct (printable_toString _ Hp) as [s ->]. cbn [bind]. eauto.
  - intros movieData imdbId buckets Hget Hbad Hp.
    assert (Ht : truthy movieData = true).
    { destruct movieData; try discriminate; reflexivity. }
    unfold getSeriesLinks, seriesTry.
    destruct (seasonEpisode imdbId) as [season episode].
    unfold getPropOpt. rewrite Hget, Ht. cbn [truthy andb filterOf].
    rewrite (filterItems_no_label _ _ Hbad).
    destruct (printable_toString _ Hp) as [s ->]. reflexivity.
  - intros movieData imdbId Hno Hp. unfold getSeriesLinks, seriesTry.
    destruct (seasonEpisode imdbId) as [season episode].
    destruct (truthy movieData && _); [|reflexivity].
    destruct (getPropOpt movieData "serie_download_urls") as [| | | | |buckets|];
      cbn [filterOf];
      [now destruct (printable_toString _ Hp) as [text ->]..
      |now destruct (Hno buckets)
      |now destruct (printable_toString _ Hp) as [text ->]].
  - intros movieData H. unfold getMovieLinks.
    destruct H as [-> | ->]; cbn [negb orb]; [reflexivity|].
    now rewrite orb_true_r.
Qed.

Lemma getSeriesLinks_catches_witness :
  getSeriesLinks
    (seriesDetail [seasonBucket "Season: 1" "720p" "1GB" (fiveEpisodes "s01");
                   VObj [("quality", VStr "1080p"); ("size", VStr "2GB")]])
    "tt000:1:1"
  = Ok []
  /\ getSeriesLinks
       (seriesDetail
          [seasonBucket "Season: 1" "720p" "1GB" (fiveEpisodes "s01");
           seasonBucket "Season: 2" "720p" "1GB" (fiveEpisodes "s02");
           seasonBucket "Season: 1" "480p" "500MB" (fiveEpisodes "s01");
           VObj [("season_name", VStr "Season: 1");
                 ("quality", VObj [("toString", VNum 1)])];
           seasonBucket "Season: 1" "1080p" "2GB" (fiveEpisodes "s01")])
       "tt000:1:1"
     = Ok [{| url := VStr "https://host/s01e01.mkv"; title := "720p - 1GB" |};
           {| url := VStr "https://host/s01e01.mkv"; title := "480p - 500MB" |}]
  /\ getSeriesLinks
       (VObj [("status", VBool true); ("serie_download_urls", VStr "none")])
       "tt000:1:1"
     = Ok [].
Proof.
  destruct getSeriesLinks_catches_as_a_whole
    as (_ & Hlabel & Htitle & Hlist & _).
  split; [|split].
  - apply (Hlabel
             (seriesDetail
                [seasonBucket "Season: 1" "720p" "1GB" (fiveEpisodes "s01");
                 VObj [("quality", VStr "1080p"); ("size", VStr "2GB")]])
             "tt000:1:1"
             [seasonBucket "Season: 1" "720p" "1GB" (fiveEpisodes "s01");
              VObj [("quality", VStr "1080p"); ("size", VStr "2GB")]]);
      reflexivity.
  - apply (Htitle
             (seriesDetail
                [seasonBucket "Season: 1" "720p" "1GB" (fiveEpisodes "s01");
                 seasonBucket "Season: 2" "720p" "1GB" (fiveEpisodes "s02");
                 seasonBucket "Season: 1" "480p" "500MB" (fiveEpisodes "s01");
                 VObj [("season_name", VStr "Season: 1");
                       ("quality", VObj [("toString", VNum 1)])];
                 seasonBucket "Season: 1" "1080p" "2GB" (fiveEpisodes "s01")])
             "tt000:1:1"
             [seasonBucket "Season: 1" "720p" "1GB" (fiveEpisodes "s01");
              seasonBucket "Season: 2" "720p" "1GB" (fiveEpisodes "s02");
              seasonBucket "Season: 1" "480p" "500MB" (fiveEpisodes "s01");
              VObj [("season_name", VStr "Season: 1");
                    ("quality", VObj [("toString", VNum 1)])];
              seasonBucket "Season: 1" "1080p" "2GB" (fiveEpisodes "s01")]);
      reflexivity.
  - apply (Hlist
             (VObj [("status", VBool true);
                    ("serie_download_urls", VStr "none")])
             "tt000:1:1"); [discriminate|reflexivity].
Defined.

(** C7, as stated, fails: a bucket without a label makes the extraction
    return nothing, although the bucket before it is well formed and gives
    a link when it stands alone. *)
Lemma getSeriesLinks_one_bad_bucket_loses_all :
  getSeriesLinks
    (seriesDetail [seasonBucket "Season: 1" "720p" "1GB" (fiveEpisodes "s01");
                   VObj [("quality", VStr "1080p"); ("size", VStr "2GB")]])
    "tt000:1:1"
  = Ok []
  /\ getSeriesLinks
       (seriesDetail [seasonBucket "Season: 1" "720p" "1GB" (fiveEpisodes "s01")])
       "tt000:1:1"
     = Ok [{| url := VStr "https://host/s01e01.mkv"; title := "720p - 1GB" |}].
Proof. split; reflexivity. Qed.

(** [getMovieLinks] has no handler: an entry that is [null] raises. *)
Example getMovieLinks_raises_on_null_entry :
  getMovieLinks (movieDetail [VNull]) = TypeError.
Proof. reflexivity. Qed.

End SeriesLinkFacts.

(* ===================================================================== *)
(** ** The provider session *)
(* ===================================================================== *)

Section SessionFacts.
Import Json Provider Scenario.

Lemma detailCalls_app (a b : list request) :
  detailCalls (a ++ b) = detailCalls a + detailCalls b.
Proof. unfold detailCalls. now rewrite filter_app, length_app. Qed.

Lemma getMovieData_refused (fuel : nat) (id : value) (text : string)
    (log : list request) :
  toString id = Ok text ->
  exists log',
    getMovieData refusingProvider fuel id {| self := loggedIn; calls := log |}
    = (None, {| self := loggedIn; calls := log' |})
    /\ detailCalls log' = detailCalls log + fuel.
Proof.
  intros Hid. revert log. induction fuel as [|fuel IH]; intros log.
  - exists log. split; [reflexivity|lia].
  - destruct (IH ((log ++ [GetMovieDetail (token loggedIn) id])
                    ++ [GetProfile (token loggedIn)])%list) as (log' & Hrun & Hn).
    exists log'. split.
    + cbn [getMovieData]. unfold mbind, getSelf, axios, login, isLogin, ret.
      rewrite Hid. cbn. exact Hrun.
    + rewrite Hn, !detailCalls_app. cbn. lia.
Qed.

(** A served detail is returned after one request; a refusal followed by
    a failed login gives [null] after one retry-free round. *)
Example getMovieData_served :
  getMovieData servingProvider 1 (VNum 7) {| self := loggedIn; calls := [] |}
  = (Some (VObj [("status", VBool true); ("movie_download_urls", VArr [])]),
     {| self := loggedIn;
        calls := [GetMovieDetail (VStr "token-1") (VNum 7)] |}).
Proof. reflexivity. Qed.

Example getMovieData_refused_and_login_fails :
  getMovieData closedProvider 2 (VNum 7) {| self := loggedIn; calls := [] |}
  = (Some VNull,
     {| self := loggedIn;
        calls := [GetMovieDetail (VStr "token-1") (VNum 7);
                  GetProfile (VStr "token-1");
                  PostLogin (VStr "user") (VStr "secret")] |}).
Proof. reflexivity. Qed.

(** C1 (the code at the failing input).  Against a provider that accepts
    the account and answers every detail request with 403, [getMovieData]
    logs in again and calls itself after every refusal: no number of calls
    is enough for it to return, and with [fuel] calls allowed it has sent
    [fuel] detail requests. *)
Theorem getMovieData_retries_without_bound (fuel : nat) :
  fst (getMovieData refusingProvider fuel (VNum 7)
         {| self := loggedIn; calls := [] |}) = None
  /\ detailCalls
       (calls (snd (getMovieData refusingProvider fuel (VNum 7)
                      {| self := loggedIn; calls := [] |}))) = fuel.
Proof.
  destruct (getMovieData_refused fuel (VNum 7) "7" [] eq_refl)
    as (log' & -> & Hn).
  split; [reflexivity|exact Hn].
Qed.

(** C9.  With a user name or a password that is empty or missing,
    [login] returns false and sends no request: the object and the list
    of requests are as before. *)
Theorem login_without_credentials
    (net : nat -> request -> reply) (st : state) :
  truthy (username (self st)) = false \/ truthy (password (self st)) = false ->
  login net st = (false, st).
Proof.
  intros H. unfold login, mbind, getSelf, ret.
  destruct H as [-> | ->]; cbn [negb orb]; [reflexivity|].
  now rewrite orb_true_r.
Qed.

Lemma login_without_credentials_witness :
  login refusingProvider {| self := noPassword; calls := [] |}
  = (false, {| self := noPassword; calls := [] |}).
Proof.
  apply (login_without_credentials refusingProvider
           {| self := noPassword; calls := [] |}).
  right. reflexivity.
Defined.

(** C10.  With an empty token [isLogin] returns false at once and sends
    no request; and whatever the token and the provider's answer, it
    leaves [token] and [refreshToken] as they were (it sends at most one
    request). *)
Theorem isLogin_keeps_tokens :
  (forall net st,
     truthy (token (self st)) = false -> isLogin net st = (false, st))
  /\ (forall net st,
        token (self (snd (isLogin net st))) = token (self st)
        /\ refreshToken (self (snd (isLogin net st))) = refreshToken (self st)
        /\ exists sent, calls (snd (isLogin net st)) = (calls st ++ sent)%list
                        /\ List.length sent <= 1).
Proof.
  split.
  - intros net st H. unfold isLogin, mbind, getSelf, ret. now rewrite H.
  - intros net st. unfold isLogin, mbind, getSelf, ret, axios.
    destruct (truthy (token (self st))); cbn [negb].
    + destruct (net _ _) as [status data|]; [destruct (below400 status)|];
        try destruct (truthy (getPropOpt data "status"));
        try destruct (toString (token (self st))); cbn;
        (repeat split; try reflexivity;
         exists [GetProfile (token (self st))]; split; [reflexivity|cbn; lia]).
    + cbn. repeat split; try reflexivity.
      exists []. split; [now rewrite app_nil_r|cbn; lia].
Qed.

Lemma isLogin_keeps_tokens_witness :
  isLogin refusingProvider {| self := noPassword; calls := [] |}
  = (false, {| self := noPassword; calls := [] |}).
Proof.
  apply (proj1 isLogin_keeps_tokens refusingProvider
           {| self := noPassword; calls := [] |}).
  reflexivity.
Defined.

End SessionFacts.

(* ===================================================================== *)
(** ** The proxy's allowlist *)
(* ===================================================================== *)

Section GatewayFacts.
Import JsString Gateway Scenario.

Variable PROXY_ALLOWED_URLS : string.
Variable hostname : string -> option string.
Variable fetch : string -> fetched.

Lemma isAllowed_iff (host : string) :
  isAllowed PROXY_ALLOWED_URLS host = true
  <-> exists domain,
        In domain (ALLOWED_DOMAINS PROXY_ALLOWED_URLS)
        /\ (host = domain \/ exists sub, host = sub ++ "." ++ domain).
Proof.
  unfold isAllowed. rewrite existsb_exists.
  split; intros (domain & Hin & H); exists domain; (split; [exact Hin|]).
  - apply orb_true_iff in H as [H|H].
    + left. now apply String.eqb_eq.
    + right. now apply endsWith_iff.
  - apply orb_true_iff. destruct H as [->|H].
    + left. apply String.eqb_refl.
    + right. now apply endsWith_iff.
Qed.

(** C2.  The host test passes exactly for a host that is an entry of the
    allowlist or ends with a dot and an entry.  A request whose host fails
    it is answered 403 "Access to the specified domain is not allowed"
    and nothing is fetched.  When the host passes and the fetch succeeds,
    the same test runs on the host of the final url (the response's url
    after redirects): if that host fails it, the answer is 403 "Access to
    the redirected domain is not allowed". *)
Theorem relay_checks_host_before_and_after :
  (forall host,
     isAllowed PROXY_ALLOWED_URLS host = true
     <-> exists domain,
           In domain (ALLOWED_DOMAINS PROXY_ALLOWED_URLS)
           /\ (host = domain \/ exists sub, host = sub ++ "." ++ domain))
  /\ (forall url host,
        url <> "" ->
        hostname url = Some host ->
        isAllowed PROXY_ALLOWED_URLS host = false ->
        relay PROXY_ALLOWED_URLS hostname fetch (Some url)
        = ({| status := 403; contentType := None;
              body := "Access to the specified domain is not allowed" |}, []))
  /\ (forall url host responseUrl header data finalHost,
        url <> "" ->
        hostname url = Some host ->
        isAllowed PROXY_ALLOWED_URLS host = true ->
        fetch url = Fetched responseUrl header data ->
        hostname (finalUrlOf responseUrl url) = Some finalHost ->
        isAllowed PROXY_ALLOWED_URLS finalHost = false ->
        relay PROXY_ALLOWED_URLS hostname fetch (Some url)
        = ({| status := 403; contentType := None;
              body := "Access to the redirected domain is not allowed" |},
           [url])).
Proof.
  split; [exact isAllowed_iff|split].
  - intros url host Hurl Hhost Hno. unfold relay.
    destruct url as [|c url]; [contradiction|].
    now rewrite Hhost, Hno.
  - intros url host responseUrl header data finalHost
      Hurl Hhost Hyes Hfetch Hfinal Hno. unfold relay.
    destruct url as [|c url]; [contradiction|].
    rewrite Hhost, Hyes. cbn [negb]. now rewrite Hfetch, Hfinal, Hno.
Qed.

End GatewayFacts.

Section GatewayExamples.
Import JsString Gateway Scenario.

Lemma relay_checks_host_witness :
  relay "example.com,cdn.example.org" httpsHost redirecting
    (Some "https://evil.example.net/f.mkv")
  = ({| status := 403; contentType := None;
        body := "Access to the specified domain is not allowed" |}, [])
  /\ relay "example.com,cdn.example.org" httpsHost redirecting
       (Some "https://cdn.example.com/f.mkv")
     = ({| status := 403; contentType := None;
           body := "Access to the redirected domain is not allowed" |},
        ["https://cdn.example.com/f.mkv"]).
Proof.
  destruct (relay_checks_host_before_and_after
              "example.com,cdn.example.org" httpsHost redirecting)
    as (_ & Hbefore & Hafter).
  split.
  - apply (Hbefore "https://evil.example.net/f.mkv" "evil.example.net");
      [discriminate|reflexivity|reflexivity].
  - apply (Hafter "https://cdn.example.com/f.mkv" "cdn.example.com"
             (Some "https://tracker.example.net/f.mkv")
             (Some "video/x-matroska") "bytes" "tracker.example.net");
      [discriminate|reflexivity..].
Defined.

(** An allowed host whose file stays on an allowed host is relayed. *)
Example relay_allowed :
  relay "example.com" httpsHost
    (fun _ => Fetched None (Some "video/mp4") "bytes")
    (Some "https://cdn.example.com/f.mp4")
  = ({| status := 200; contentType := Some "video/mp4"; body := "bytes" |},
     ["https://cdn.example.com/f.mp4"]).
Proof. reflexivity. Qed.

End GatewayExamples.

(* ===================================================================== *)
(** ** Ranking: which result wins, and when it is accepted *)
(* ===================================================================== *)

Section MatcherFacts.
Import JsString Title Spec Matcher.

Lemma nameScore_range (c t : string) :
  (0 <= nameScore c t <= 60)%Z /\ (nameScore c t = 60%Z <-> c = t).
Proof.
  unfold nameScore. destruct (String.eqb_spec c t) as [E|E].
  - split; [lia|tauto].
  - destruct (startsWith c t), (includes c t); split; try lia;
      split; intros H; try lia; contradiction.
Qed.

Lemma scoreItem_sum (reqType target : string) (it : searchItem) :
  scoreItem reqType target it
  = (kindScore (type it) reqType + nameScore (normalizeTitle (name it)) target)%Z.
Proof.
  unfold scoreItem, kindScore, nameScore.
  set (n := normalizeTitle (name it)).
  destruct (String.eqb (type it) reqType); destruct (String.eqb n target);
    destruct (startsWith n target); destruct (includes n target); reflexivity.
Qed.

Lemma scoreItem_positive (reqType target : string) (it : searchItem) :
  (0 < scoreItem reqType target it)%Z
  <-> type it = reqType \/ normalizeTitle (name it) = target.
Proof.
  rewrite scoreItem_sum. unfold kindScore.
  destruct (nameScore_range (normalizeTitle (name it)) target) as [Hr He].
  destruct (String.eqb_spec (type it) reqType) as [Et|Et].
  - split; [auto|lia].
  - split.
    + intros H. right. apply He. unfold nameScore in *.
      destruct (String.eqb _ target); [reflexivity|].
      destruct (startsWith _ target); [lia|].
      destruct (includes _ target); lia.
    + intros [H|H]; [contradiction|]. apply He in H. lia.
Qed.

(** X1.  A search result has a positive score exactly when its type is
    the requested one or its normalised name equals the normalised search
    title: a result of the other type passes only on an exact name. *)
Theorem scoreItem_positive_iff (reqType target : string) (it : searchItem) :
  (0 < scoreItem reqType target it)%Z
  <-> type it = reqType \/ normalizeTitle (name it) = target.
Proof. exact (scoreItem_positive reqType target it). Qed.

(** X2.  A result of the requested type always scores higher than a
    result of another type, whatever their names. *)
Theorem scoreItem_type_dominates (reqType target : string)
    (good bad : searchItem) :
  type good = reqType -> type bad <> reqType ->
  (scoreItem reqType target bad < scoreItem reqType target good)%Z.
Proof.
  intros Hg Hb. rewrite !scoreItem_sum. unfold kindScore.
  destruct (String.eqb_spec (type good) reqType); [|contradiction].
  destruct (String.eqb_spec (type bad) reqType); [contradiction|].
  pose proof (proj1 (nameScore_range (normalizeTitle (name good)) target)).
  pose proof (proj1 (nameScore_range (normalizeTitle (name bad)) target)).
  lia.
Qed.

Lemma scoreItem_type_dominates_witness :
  (scoreItem "movie" "matrix" {| name := "Matrix"; type := "series" |}
   < scoreItem "movie" "matrix" {| name := "Blade Runner"; type := "movie" |})%Z.
Proof.
  apply (scoreItem_type_dominates "movie" "matrix"
           {| name := "Blade Runner"; type := "movie" |}
           {| name := "Matrix"; type := "series" |});
    [reflexivity|discriminate].
Defined.

Lemma hd_insertByScore {A : Type} (x : scored A) (sorted : list (scored A)) :
  hd_error (insertByScore x sorted)
  = match hd_error sorted with
    | Some y => if (score y <=? score x)%Z then Some x else Some y
    | None => Some x
    end.
Proof.
  destruct sorted as [|y rest]; cbn; [reflexivity|].
  now destruct (score y <=? score x)%Z.
Qed.

(** The head of the sorted list is the first element of the highest
    score. *)
Lemma hd_sortByScore {A : Type} (l : list (scored A)) (best : scored A) :
  hd_error (sortByScore l) = Some best ->
  exists before after,
    l = (before ++ best :: after)%list
    /\ Forall (fun s => (score s < score best)%Z) before
    /\ Forall (fun s => (score s <= score best)%Z) after.
Proof.
  revert best. induction l as [|x l IH]; intros best; cbn [sortByScore fold_right].
  - discriminate.
  - rewrite hd_insertByScore. fold (sortByScore l).
    destruct (hd_error (sortByScore l)) as [y|] eqn:E.
    + destruct (IH y eq_refl) as (before & after & -> & Hb & Ha).
      destruct (Z.leb_spec (score y) (score x)) as [Hle|Hlt];
        intros [= <-].
      * exists [], (before ++ y :: after)%list. repeat split; [constructor|].
        apply Forall_app. split.
        -- revert Hb. apply Forall_impl. intros; lia.
        -- constructor; [exact Hle|].
           revert Ha. apply Forall_impl. intros; lia.
      * exists (x :: before), after. repeat split; [|exact Ha].
        constructor; [exact Hlt|exact Hb].
    + intros [= <-]. destruct l as [|z l]; [|exfalso].
      * exists [], []. repeat split; constructor.
      * cbn [sortByScore fold_right] in E. rewrite hd_insertByScore in E.
        destruct (hd_error _) as [w|]; [destruct (score w <=? score z)%Z|];
          discriminate.
Qed.

Lemma Permutation_insertByScore {A : Type} (x : scored A)
    (l : list (scored A)) :
  Permutation (insertByScore x l) (x :: l).
Proof.
  induction l as [|y rest IH]; cbn; [reflexivity|].
  destruct (score y <=? score x)%Z; [reflexivity|].
  rewrite IH. apply perm_swap.
Qed.

(** The sort of the handler keeps every result, once. *)
Lemma Permutation_sortByScore {A : Type} (l : list (scored A)) :
  Permutation (sortByScore l) l.
Proof.
  induction l as [|x l IH]; cbn [sortByScore fold_right]; [reflexivity|].
  fold (sortByScore l). rewrite Permutation_insertByScore. now constructor.
Qed.

Lemma bestMatch_split
    (reqType target : string) (results : list searchItem)
    (best : scored searchItem) :
  bestMatch reqType target results = Some best ->
  exists before after,
    results = (before ++ item best :: after)%list
    /\ score best = scoreItem reqType target (item best)
    /\ Forall (fun it => (scoreItem reqType target it < score best)%Z) before
    /\ Forall (fun it => (scoreItem reqType target it <= score best)%Z) after.
Proof.
  unfold bestMatch, scoredResults. intros H.
  destruct (hd_sortByScore _ _ H) as (before & after & Hl & Hb & Ha).
  apply map_eq_app in Hl as (b' & r' & -> & Hb' & Hr').
  destruct r' as [|it a']; [discriminate|]. cbn [map] in Hr'.
  injection Hr' as Hbest Ha'. subst before after best. cbn [item score].
  exists b', a'. repeat split.
  - rewrite Forall_map in Hb. exact Hb.
  - rewrite Forall_map in Ha. exact Ha.
Qed.

(** X3.  The best match of the handler is the first search result, in
    the provider's order, whose score is the highest: the results before
    it score strictly less, none after it scores more, and its score is
    the one [scoreItem] gives. *)
Theorem bestMatch_first_highest
    (reqType target : string) (results : list searchItem)
    (best : scored searchItem) :
  bestMatch reqType target results = Some best ->
  exists before after,
    results = (before ++ item best :: after)%list
    /\ score best = scoreItem reqType target (item best)
    /\ Forall (fun it => (scoreItem reqType target it < score best)%Z) before
    /\ Forall (fun it => (scoreItem reqType target it <= score best)%Z) after.
Proof. exact (bestMatch_split reqType target results best). Qed.

Lemma bestMatch_first_highest_witness :
  exists before after,
    [ {| name := "Matrix"; type := "series" |};
      {| name := "The Matrix"; type := "movie" |};
      {| name := "Matrix"; type := "movie" |} ]
    = (before ++ {| name := "The Matrix"; type := "movie" |} :: after)%list
    /\ 160%Z = scoreItem "movie" "matrix" {| name := "The Matrix"; type := "movie" |}
    /\ Forall (fun it => (scoreItem "movie" "matrix" it < 160)%Z) before
    /\ Forall (fun it => (scoreItem "movie" "matrix" it <= 160)%Z) after.
Proof.
  apply (bestMatch_first_highest "movie" "matrix"
           [ {| name := "Matrix"; type := "series" |};
             {| name := "The Matrix"; type := "movie" |};
             {| name := "Matrix"; type := "movie" |} ]
           {| item := {| name := "The Matrix"; type := "movie" |};
              score := 160 |}).
  reflexivity.
Defined.


End MatcherFacts.

(* ===================================================================== *)
(** ** login: what it sends and what it stores *)
(* ===================================================================== *)

Section LoginFacts.
Import Json Provider Scenario.

Variable net : nat -> request -> reply.

#[local] Ltac inner_case :=
  match goal with
  | |- context [match ?x with _ => _ end] =>
      lazymatch x with
      | context [match _ with _ => _ end] => fail
      | _ => destruct x eqn:?
      end
  end.

#[local] Ltac login_cases :=
  unfold login, isLogin, mbind, getSelf, ret, axios, setTokens;
  cbn beta;
  repeat (inner_case;
          cbn [fst snd self calls token refreshToken username password
               negb orb andb]).

(** After [isLogin] has returned true the stored token converts to a
    string: the debug line of [login] that prints it next cannot throw. *)
Lemma isLogin_true_token_prints (st : state) :
  fst (isLogin net st) = true ->
  exists text, toString (token (self (snd (isLogin net st)))) = Ok text.
Proof.
  unfold isLogin, mbind, getSelf, ret, axios. cbn beta.
  repeat (inner_case; cbn [fst snd self calls token negb]);
    intros H; try discriminate H; eauto.
Qed.

(** X5.  A login that returns false has left the object as it was, with
    one exception: the provider accepted the login request (an accepted
    status and a truthy [status] field) with an [auth_token] that does
    not convert to a string.  Then the token and the refresh token are
    those of the answer although [login] returns false: the fields are
    assigned before the log line that fails. *)
Theorem login_failure_tokens (st : state) :
  fst (login net st) = false ->
  self (snd (login net st)) = self st
  \/ exists sent status data,
       net sent (PostLogin (username (self st)) (password (self st)))
       = Response status data
       /\ below400 status = true
       /\ truthy (getPropOpt data "status") = true
       /\ toString (getPropOpt data "auth_token") = TypeError
       /\ self (snd (login net st))
          = {| username := username (self st);
               password := password (self st);
               token := getPropOpt data "auth_token";
               refreshToken := getPropOpt data "refresh_token" |}.
Proof.
  login_cases; intros H; try discriminate H;
    first [ left; reflexivity
          | right; do 3 eexists; repeat split; eassumption ].
Qed.

(** X6.  Whatever the provider answers, [login] sends at most two
    requests: the profile probe with the stored token, then the login
    request with the object's user name and password; and it sends them
    in that order, after the requests sent before. *)
Theorem login_sends_at_most_two (st : state) :
  exists sent,
    calls (snd (login net st)) = (calls st ++ sent)%list
    /\ In sent
         [ [];
           [GetProfile (token (self st))];
           [PostLogin (username (self st)) (password (self st))];
           [GetProfile (token (self st));
            PostLogin (username (self st)) (password (self st))] ].
Proof.
  login_cases;
    first [ exists []; split; [now rewrite app_nil_r|cbn; tauto]
          | rewrite <- ?app_assoc; eexists; split; [reflexivity|cbn; tauto] ].
Qed.

(** X7.  With credentials and a stored token that converts to a string
    and that the provider's profile probe confirms, [login] returns true
    after the probe alone: it does not send the password again and keeps
    the stored tokens. *)
Theorem login_valid_session_no_relogin (st : state) (text : string)
    (status : Z) (data : value) :
  truthy (username (self st)) = true ->
  truthy (password (self st)) = true ->
  truthy (token (self st)) = true ->
  toString (token (self st)) = Ok text ->
  net (List.length (calls st)) (GetProfile (token (self st)))
  = Response status data ->
  below400 status = true ->
  truthy (getPropOpt data "status") = true ->
  login net st
  = (true, {| self := self st;
              calls := (calls st ++ [GetProfile (token (self st))])%list |}).
Proof.
  intros Hu Hp Ht Htext Hnet Hs Hd.
  unfold login, isLogin, mbind, getSelf, ret, axios. cbn beta iota zeta.
  rewrite Hu, Hp. cbn [negb orb]. rewrite Ht. cbn [negb].
  rewrite Hnet, Hs. cbn beta iota zeta. rewrite Hd.
  cbn [self]. now rewrite Htext.
Qed.

(** X8.  When [login] returns true, either the stored tokens are
    untouched (the probe confirmed them), or the provider answered the
    login request with an accepted status and a truthy [status] field,
    and the object now holds that answer's [auth_token] and
    [refresh_token], whatever they are, with the same credentials. *)
Theorem login_success_stores_tokens (st : state) :
  fst (login net st) = true ->
  self (snd (login net st)) = self st
  \/ exists sent status data,
       net sent (PostLogin (username (self st)) (password (self st)))
       = Response status data
       /\ below400 status = true
       /\ truthy (getPropOpt data "status") = true
       /\ self (snd (login net st))
          = {| username := username (self st);
               password := password (self st);
               token := getPropOpt data "auth_token";
               refreshToken := getPropOpt data "refresh_token" |}.
Proof.
  login_cases; intros H; try discriminate H;
    first [ left; reflexivity
          | right; do 3 eexists; repeat split; eassumption ].
Qed.

End LoginFacts.

Section LoginExamples.
Import Json Provider Scenario.

Lemma login_failure_tokens_witness :
  self (snd (login objectTokenProvider {| self := loggedIn; calls := [] |}))
  = loggedIn
  \/ exists sent status data,
       objectTokenProvider sent (PostLogin (VStr "user") (VStr "secret"))
       = Response status data
       /\ below400 status = true
       /\ truthy (getPropOpt data "status") = true
       /\ toString (getPropOpt data "auth_token") = TypeError
       /\ self (snd (login objectTokenProvider
                       {| self := loggedIn; calls := [] |}))
          = {| username := VStr "user"; password := VStr "secret";
               token := getPropOpt data "auth_token";
               refreshToken := getPropOpt data "refresh_token" |}.
Proof.
  apply (login_failure_tokens objectTokenProvider
           {| self := loggedIn; calls := [] |}).
  reflexivity.
Defined.

(** The exception of X5 at work: the provider's answer to the login
    request carries an object with a [toString] field as token. *)
Example login_false_with_new_tokens :
  login objectTokenProvider {| self := loggedIn; calls := [] |}
  = (false,
     {| self := {| username := VStr "user"; password := VStr "secret";
                   token := VObj [("toString", VNum 1)];
                   refreshToken := VStr "refresh-2" |};
        calls := [GetProfile (VStr "token-1");
                  PostLogin (VStr "user") (VStr "secret")] |}).
Proof. reflexivity. Qed.

Lemma login_valid_session_witness :
  login refusingProvider {| self := loggedIn; calls := [] |}
  = (true, {| self := loggedIn; calls := [GetProfile (VStr "token-1")] |}).
Proof.
  apply (login_valid_session_no_relogin refusingProvider
           {| self := loggedIn; calls := [] |} "token-1" 200
           (VObj [("status", VBool true)])); reflexivity.
Defined.

(** Without the conversion the probe's answer does not count: a stored
    token with a [toString] field is confirmed by the provider, and the
    login request is sent all the same. *)
Example login_unprintable_token_logs_in_again :
  login refusingProvider
    {| self := {| username := VStr "user"; password := VStr "secret";
                  token := VObj [("toString", VNum 1)];
                  refreshToken := VStr "refresh-1" |};
       calls := [] |}
  = (true,
     {| self := {| username := VStr "user"; password := VStr "secret";
                   token := VStr "token-2"; refreshToken := VStr "refresh-2" |};
        calls := [GetProfile (VObj [("toString", VNum 1)]);
                  PostLogin (VStr "user") (VStr "secret")] |}).
Proof. reflexivity. Qed.

Lemma login_success_stores_tokens_witness :
  self (snd (login refusingProvider
               {| self := {| username := VStr "user"; password := VStr "secret";
                             token := VStr ""; refreshToken := VStr "" |};
                  calls := [] |}))
  = {| username := VStr "user"; password := VStr "secret";
       token := VStr ""; refreshToken := VStr "" |}
  \/ exists sent status data,
       refusingProvider sent (PostLogin (VStr "user") (VStr "secret"))
       = Response status data
       /\ below400 status = true
       /\ truthy (getPropOpt data "status") = true
       /\ self (snd (login refusingProvider
                       {| self := {| username := VStr "user";
                                     password := VStr "secret";
                                     token := VStr ""; refreshToken := VStr "" |};
                          calls := [] |}))
          = {| username := VStr "user"; password := VStr "secret";
               token := getPropOpt data "auth_token";
               refreshToken := getPropOpt data "refresh_token" |}.
Proof.
  apply (login_success_stores_tokens refusingProvider
           {| self := {| username := VStr "user"; password := VStr "secret";
                         token := VStr ""; refreshToken := VStr "" |};
              calls := [] |}).
  reflexivity.
Defined.

End LoginExamples.

(* ===================================================================== *)
(** ** Link extraction: titles, counts, bounds and ids *)
(* ===================================================================== *)

Section LinkFacts.
Import JsString Json Links Spec Payload Buckets.

Lemma bind_Ok {A B : Type} (r : result A) (k : A -> result B) (b : B) :
  bind r k = Ok b -> exists a, r = Ok a /\ k a = Ok b.
Proof. destruct r as [a|]; [eauto|discriminate]. Qed.

Lemma includes_middle (a b : string) : includes (a ++ " - " ++ b) " - " = true.
Proof. apply includes_iff. now exists a, b. Qed.

Lemma includes_not_empty (s p : string) :
  includes s p = true -> p <> "" -> s <> "".
Proof. intros H Hp ->. cbn in H. destruct p; [contradiction|discriminate]. Qed.

Lemma movieLink_title (e : value) (l : link) :
  movieLink e = Ok l -> includes (title l) " - " = true.
Proof.
  unfold movieLink. intros H.
  repeat (apply bind_Ok in H as (? & _ & H)). injection H as <-.
  cbn [title]. rewrite !append_assoc. apply includes_middle.
Qed.

Lemma movieLoop_titles (items : list value) (acc links : list link) :
  movieLoop items acc = Ok links ->
  Forall (fun l => includes (title l) " - " = true) acc ->
  Forall (fun l => includes (title l) " - " = true) links.
Proof.
  revert acc. induction items as [|e rest IH]; intros acc; cbn [movieLoop].
  - now intros [= <-].
  - intros H Hacc. apply bind_Ok in H as (l & Hl & H).
    apply (IH _ H). apply Forall_app. split; [exact Hacc|].
    constructor; [exact (movieLink_title _ _ Hl)|constructor].
Qed.

Lemma seriesLink_title (episode : number) (b : value) (l : link) :
  seriesLink episode b = Ok (Some l) -> includes (title l) " - " = true.
Proof.
  unfold seriesLink. intros H.
  repeat (apply bind_Ok in H as (? & _ & H)).
  destruct (_ && _); [|discriminate].
  apply bind_Ok in H as (? & _ & H). injection H as <-.
  cbn [title]. rewrite append_assoc. apply includes_middle.
Qed.

Lemma seriesLoop_titles (episode : number) (items : list value)
    (acc : list link) :
  Forall (fun l => includes (title l) " - " = true) acc ->
  Forall (fun l => includes (title l) " - " = true)
    (fst (seriesLoop episode items acc)).
Proof.
  revert acc. induction items as [|b rest IH]; intros acc Hacc;
    cbn [seriesLoop]; [exact Hacc|].
  destruct (seriesLink episode b) as [[l|]|] eqn:E; cbn [fst]; auto.
  apply IH. apply Forall_app. split; [exact Hacc|].
  constructor; [exact (seriesLink_title _ _ _ E)|constructor].
Qed.

Lemma getSeriesLinks_from_try (movieData : value) (imdbId : string)
    (links : list link) :
  getSeriesLinks movieData imdbId = Ok links ->
  links = fst (seriesTry movieData imdbId).
Proof.
  unfold getSeriesLinks.
  destruct (seriesTry movieData imdbId) as [l [u|]]; cbn [fst].
  - now intros [= <-].
  - intros H. apply bind_Ok in H as (? & _ & H). now injection H as <-.
Qed.

Lemma seriesTry_loop (movieData : value) (imdbId : string) :
  fst (seriesTry movieData imdbId) = []
  \/ exists kept,
       filterItems (":" ++ numberToString (fst (seasonEpisode imdbId)))
         (seasonBuckets movieData) = Ok kept
       /\ fst (seriesTry movieData imdbId)
          = fst (seriesLoop (snd (seasonEpisode imdbId)) kept []).
Proof.
  unfold seriesTry, seasonBuckets.
  destruct (seasonEpisode imdbId) as [season episode]. cbn [fst snd].
  destruct (truthy movieData && _); [|now left].
  destruct (getPropOpt movieData "serie_download_urls"); cbn [filterOf];
    try (now left).
  destruct (filterItems _ items) as [kept|]; [|now left].
  right. now exists kept.
Qed.

(** X9.  Every link that [getLinks] returns, for a movie or a series and
    whatever the payload, has a title that contains " - ": a title is
    never empty, so the handler's fallback for an empty title is never
    used. *)
Theorem getLinks_titles_not_empty
    (type imdbId : string) (movieData : value) (links : list link) :
  getLinks type imdbId movieData = Ok links ->
  Forall (fun l => includes (title l) " - " = true /\ title l <> "") links.
Proof.
  intros H.
  assert (Hinc : Forall (fun l => includes (title l) " - " = true) links).
  { unfold getLinks in H. destruct (String.eqb type "movie").
    - unfold getMovieLinks in H.
      destruct (negb _ || negb _); [injection H as <-; constructor|].
      apply bind_Ok in H as (urls & _ & H).
      apply bind_Ok in H as (items & _ & H).
      apply (movieLoop_titles _ _ _ H). constructor.
    - destruct (String.eqb type "series");
        [|injection H as <-; constructor].
      rewrite (getSeriesLinks_from_try _ _ _ H).
      destruct (seriesTry_loop movieData imdbId) as [->|(kept & _ & ->)];
        [constructor|].
      apply seriesLoop_titles. constructor. }
  revert Hinc. apply Forall_impl. intros l Hl. split; [exact Hl|].
  apply (includes_not_empty _ _ Hl). discriminate.
Qed.

Lemma getLinks_titles_witness :
  Forall (fun l => includes (title l) " - " = true /\ title l <> "")
    [{| url := VUndefined;
        title := "undefined - undefined - undefined - undefined" |}].
Proof.
  apply (getLinks_titles_not_empty "movie" "tt000" (movieDetail [VObj []])).
  reflexivity.
Defined.





Lemma movieLoop_null (items : list value) (acc : list link) :
  In VNull items -> movieLoop items acc = TypeError.
Proof.
  revert acc. induction items as [|e rest IH]; intros acc; [contradiction|].
  intros [->|Hin]; cbn [movieLoop]; [reflexivity|].
  destruct (movieLink e) as [l|]; cbn [bind]; [now apply IH|reflexivity].
Qed.

(** X11.  [getMovieLinks] is all or nothing: when one element of
    [movie_download_urls] is [null] it raises to its caller, and the
    links of the entries before it are lost with it. *)
Theorem getMovieLinks_null_entry_raises
    (movieData : value) (entries : list value) :
  getProp movieData "movie_download_urls" = Ok (VArr entries) ->
  In VNull entries ->
  getMovieLinks movieData = TypeError.
Proof.
  intros Hget Hin. unfold getMovieLinks.
  assert (Ht : truthy movieData = true).
  { destruct movieData; try discriminate; reflexivity. }
  unfold getPropOpt. rewrite Hget, Ht. cbn [truthy negb orb bind iterate].
  now apply movieLoop_null.
Qed.

Lemma getMovieLinks_null_entry_witness :
  getMovieLinks
    (movieDetail
       [downloadEntry "1080p" "2GB" "x265" "WEB" "https://host/f.mkv"; VNull])
  = TypeError.
Proof.
  apply (getMovieLinks_null_entry_raises
           (movieDetail
              [downloadEntry "1080p" "2GB" "x265" "WEB" "https://host/f.mkv";
               VNull])
           [downloadEntry "1080p" "2GB" "x265" "WEB" "https://host/f.mkv";
            VNull]);
    [reflexivity|right; left; reflexivity].
Defined.

Lemma bucketLinks_out_of_range (season episode : number) (b : value) :
  listsAreArrays b = true -> hasEpisode episode b = false ->
  bucketLinks season episode b = [].
Proof.
  unfold listsAreArrays, hasEpisode, episodeList, bucketLinks.
  destruct (getPropOpt b "links") as [| | | | |entries|]; try discriminate;
    intros _ H.
  - now rewrite andb_false_r.
  - replace (truthy (getIndex (VArr entries) (pred episode))) with false;
      [now rewrite andb_false_r|].
    destruct episode as [|z|negative]; cbn [pred]; try reflexivity.
    rewrite getIndex_outside; [reflexivity|].
    apply andb_false_iff in H as [H|H]; [apply Z.leb_gt in H|apply Z.leb_gt in H];
      lia.
Qed.
(** X12.  An episode number that is no position of a bucket's list (zero,
    negative, past the end, or not a number) gives no link and no error:
    for well-formed buckets whose lists are arrays, when no bucket has the
    requested episode the result is the empty list. *)
Theorem getSeriesLinks_episode_out_of_range
    (movieData : value) (imdbId : string) (buckets : list value) :
  getProp movieData "serie_download_urls" = Ok (VArr buckets) ->
  forallb isBucket buckets = true ->
  forallb listsAreArrays buckets = true ->
  existsb (hasEpisode (snd (seasonEpisode imdbId))) buckets = false ->
  getSeriesLinks movieData imdbId = Ok [].
Proof.
  intros Hget Hb Ha He.
  rewrite (getSeriesLinks_buckets _ _ _ Hget Hb). f_equal.
  clear Hget Hb. induction buckets as [|b rest IH]; [reflexivity|].
  cbn [forallb existsb flat_map] in *.
  apply andb_true_iff in Ha as [Hb Ha].
  apply orb_false_iff in He as [Heb He].
  now rewrite (bucketLinks_out_of_range _ _ _ Hb Heb), (IH Ha He).
Qed.

Lemma getSeriesLinks_episode_out_of_range_witness :
  getSeriesLinks
    (seriesDetail [seasonBucket "Season: 1" "720p" "1GB" (fiveEpisodes "s01")])
    "tt000:1:0"
  = Ok []
  /\ getSeriesLinks
       (seriesDetail [seasonBucket "Season: 1" "720p" "1GB" (fiveEpisodes "s01")])
       "tt000:1:6"
     = Ok [].
Proof.
  split;
    apply (getSeriesLinks_episode_out_of_range _ _
             [seasonBucket "Season: 1" "720p" "1GB" (fiveEpisodes "s01")]);
    reflexivity.
Defined.

Lemma split_noColon (s : string) : noColon s = true -> split ":" s = [s].
Proof.
  unfold noColon. induction s as [|c r IH]; [reflexivity|].
  cbn [includes split startsWith]. rewrite andb_true_r.
  destruct (Ascii.eqb c ":"); cbn [orb negb]; [discriminate|].
  intros H. now rewrite (IH H).
Qed.

Lemma split_colon (a b : string) :
  noColon a = true -> split ":" (a ++ ":" ++ b) = a :: split ":" b.
Proof.
  unfold noColon. induction a as [|c r IH]; [reflexivity|].
  cbn [includes startsWith]. rewrite andb_true_r.
  change (String c r ++ ":" ++ b) with (String c (r ++ ":" ++ b)).
  cbn [split].
  destruct (Ascii.eqb c ":"); cbn [orb negb]; [discriminate|].
  intros H. now rewrite (IH H).
Qed.

Lemma split_not_nil (s : string) : exists h t, split ":" s = h :: t.
Proof.
  induction s as [|c r (h & t & IH)]; cbn [split]; [eauto|].
  destruct (Ascii.eqb c ":"); [eauto|]. rewrite IH. eauto.
Qed.

(** X13.  How [getSeriesLinks] reads the id: with fewer than two colons
    (a bare id, or an id and a season) it asks for season 1, episode 1,
    and a season given alone is ignored; otherwise the season and the
    episode are [parseInt] of the second and third part, and further
    parts are ignored. *)
Theorem seasonEpisode_parts :
  (forall base, noColon base = true -> seasonEpisode base = (Int 1, Int 1))
  /\ (forall base season,
        noColon base = true -> noColon season = true ->
        seasonEpisode (base ++ ":" ++ season) = (Int 1, Int 1))
  /\ (forall base season episode,
        noColon base = true -> noColon season = true ->
        noColon episode = true ->
        seasonEpisode (base ++ ":" ++ season ++ ":" ++ episode)
        = (parseInt season, parseInt episode))
  /\ (forall base season episode more,
        noColon base = true -> noColon season = true ->
        noColon episode = true ->
        seasonEpisode (base ++ ":" ++ season ++ ":" ++ episode ++ ":" ++ more)
        = (parseInt season, parseInt episode)).
Proof.
  unfold seasonEpisode. repeat split.
  - intros base Hb. now rewrite (split_noColon _ Hb).
  - intros base season Hb Hs.
    now rewrite (split_colon _ _ Hb), (split_noColon _ Hs).
  - intros base season episode Hb Hs He.
    now rewrite (split_colon _ _ Hb), (split_colon _ _ Hs), (split_noColon _ He).
  - intros base season episode more Hb Hs He.
    rewrite (split_colon _ _ Hb), (split_colon _ _ Hs), (split_colon _ _ He).
    destruct (split_not_nil more) as (h & t & ->). reflexivity.
Qed.

Lemma seasonEpisode_parts_witness :
  seasonEpisode ("tt000" ++ ":" ++ "2") = (Int 1, Int 1)
  /\ seasonEpisode ("tt000" ++ ":" ++ "2" ++ ":" ++ "3" ++ ":" ++ "x")
     = (Int 2, Int 3).
Proof.
  destruct seasonEpisode_parts as (_ & Htwo & _ & Hmore).
  split.
  - apply (Htwo "tt000" "2"); reflexivity.
  - apply (Hmore "tt000" "2" "3" "x"); reflexivity.
Defined.

End LinkFacts.

(* ===================================================================== *)
(** ** The proxy: what a 200 answer means, and the edges of the allowlist *)
(* ===================================================================== *)

Section RelayFacts.
Import JsString Gateway Scenario.

Variable PROXY_ALLOWED_URLS : string.
Variable hostname : string -> option string.
Variable fetch : string -> fetched.

(** X14.  A 200 answer of the proxy is sound: the requested url parsed,
    its host passed the allowlist, the one fetch of that url succeeded,
    the host of the final url passed the allowlist too, the body is not
    larger than 10 MiB, and the body the handler sends is the upstream
    body as it was fetched. *)
Theorem relay_200_sound (targetUrl : option string) (a : answer)
    (fetched_ : list string) :
  relay PROXY_ALLOWED_URLS hostname fetch targetUrl = (a, fetched_) ->
  status a = 200%Z ->
  exists url host responseUrl header data finalHost,
    targetUrl = Some url
    /\ hostname url = Some host
    /\ isAllowed PROXY_ALLOWED_URLS host = true
    /\ fetch url = Fetched responseUrl header data
    /\ hostname (finalUrlOf responseUrl url) = Some finalHost
    /\ isAllowed PROXY_ALLOWED_URLS finalHost = true
    /\ (N.of_nat (String.length data) <= MAX_FILE_SIZE)%N
    /\ body a = data
    /\ fetched_ = [url].
Proof.
  unfold relay. intros H Hs.
  destruct targetUrl as [[|c u]|];
    try (injection H as <- <-; discriminate Hs).
  set (url := String c u) in *.
  destruct (hostname url) as [host|] eqn:Eh;
    [|injection H as <- <-; discriminate Hs].
  destruct (isAllowed PROXY_ALLOWED_URLS host) eqn:Ea; cbn [negb] in H;
    [|injection H as <- <-; discriminate Hs].
  destruct (fetch url) as [responseUrl header data|] eqn:Ef;
    [|injection H as <- <-; discriminate Hs].
  destruct (hostname (finalUrlOf responseUrl url)) as [finalHost|] eqn:Ehf;
    [|injection H as <- <-; discriminate Hs].
  destruct (isAllowed PROXY_ALLOWED_URLS finalHost) eqn:Eaf; cbn [negb] in H;
    [|injection H as <- <-; discriminate Hs].
  destruct (N.ltb_spec MAX_FILE_SIZE (N.of_nat (String.length data)));
    injection H as <- <-; [discriminate Hs|].
  exists url, host, responseUrl, header, data, finalHost.
  repeat split; auto.
Qed.

(** X15.  A body larger than 10 MiB is never forwarded: when both host
    checks pass, the answer is 413 with the size message, after the full
    download. *)
Theorem relay_rejects_oversize (url host : string)
    (responseUrl header : option string) (data finalHost : string) :
  url <> "" ->
  hostname url = Some host ->
  isAllowed PROXY_ALLOWED_URLS host = true ->
  fetch url = Fetched responseUrl header data ->
  hostname (finalUrlOf responseUrl url) = Some finalHost ->
  isAllowed PROXY_ALLOWED_URLS finalHost = true ->
  (MAX_FILE_SIZE < N.of_nat (String.length data))%N ->
  relay PROXY_ALLOWED_URLS hostname fetch (Some url)
  = ({| status := 413; contentType := None;
        body := "File size exceeds the allowed limit of 10MB" |}, [url]).
Proof.
  intros Hurl Hh Ha Hf Hhf Haf Hsize. unfold relay.
  destruct url as [|c u]; [contradiction|].
  rewrite Hh, Ha. cbn [negb]. rewrite Hf, Hhf, Haf. cbn [negb].
  apply N.ltb_lt in Hsize. now rewrite Hsize.
Qed.

(** X16.  The allowlist is closed under subdomains: when a host passes,
    every host that ends with a dot and that host passes too. *)
Theorem isAllowed_subdomain (host sub : string) :
  isAllowed PROXY_ALLOWED_URLS host = true ->
  isAllowed PROXY_ALLOWED_URLS (sub ++ "." ++ host) = true.
Proof.
  intros H. apply isAllowed_iff in H as (domain & Hin & H).
  apply isAllowed_iff. exists domain. split; [exact Hin|]. right.
  destruct H as [->|[s ->]].
  - now exists sub.
  - exists (sub ++ "." ++ s). now rewrite !append_assoc.
Qed.

Lemma split_trailing_comma (a : string) :
  In "" (tl (split "," (a ++ ","))).
Proof.
  induction a as [|c a IH]; [cbn; auto|].
  cbn [append split]. destruct (Ascii.eqb c ",").
  - cbn [tl]. destruct (split "," (a ++ ",")) as [|h t];
      [contradiction|now right].
  - destruct (split "," (a ++ ",")) as [|h t]; [contradiction|exact IH].
Qed.

(** X17.  Empty entries of the allowlist are not dropped: when
    [PROXY_ALLOWED_URLS] is empty or ends with a comma, the list holds the
    empty domain, and then every host that ends with a dot passes the
    check, whatever the other entries are. *)
Theorem isAllowed_empty_entry (host : string) :
  PROXY_ALLOWED_URLS = "" \/ endsWith PROXY_ALLOWED_URLS "," = true ->
  isAllowed PROXY_ALLOWED_URLS (host ++ ".") = true.
Proof.
  intros H. apply isAllowed_iff. exists "". split.
  - unfold ALLOWED_DOMAINS. destruct H as [->|H]; [now left|].
    apply endsWith_iff in H as [a ->].
    pose proof (split_trailing_comma a) as Hin.
    destruct (split "," (a ++ ",")); [contradiction|now right].
  - right. now exists host.
Qed.

End RelayFacts.

Section RelayExamples.
Import JsString Gateway Scenario.

Lemma relay_200_sound_witness :
  exists url host responseUrl header data finalHost,
    Some "https://cdn.example.com/f.mp4" = Some url
    /\ httpsHost url = Some host
    /\ isAllowed "example.com" host = true
    /\ (fun _ => Fetched None (Some "video/mp4") "bytes") url
       = Fetched responseUrl header data
    /\ httpsHost (finalUrlOf responseUrl url) = Some finalHost
    /\ isAllowed "example.com" finalHost = true
    /\ (N.of_nat (String.length data) <= MAX_FILE_SIZE)%N
    /\ body {| status := 200; contentType := Some "video/mp4";
               body := "bytes" |} = data
    /\ ["https://cdn.example.com/f.mp4"] = [url].
Proof.
  apply (relay_200_sound "example.com" httpsHost
           (fun _ => Fetched None (Some "video/mp4") "bytes")
           (Some "https://cdn.example.com/f.mp4")
           {| status := 200; contentType := Some "video/mp4"; body := "bytes" |}
           ["https://cdn.example.com/f.mp4"]);
    reflexivity.
Defined.

(** The size limit with a small body in place of 10 MiB of data cannot be
    shown by computation; the allowlist edges can. *)
Lemma isAllowed_subdomain_witness :
  isAllowed "example.com" ("a.b" ++ "." ++ "cdn.example.com") = true.
Proof.
  apply (isAllowed_subdomain "example.com" "cdn.example.com" "a.b").
  reflexivity.
Defined.

Lemma isAllowed_empty_entry_witness :
  isAllowed "example.com," ("evil.example.net" ++ ".") = true.
Proof.
  apply (isAllowed_empty_entry "example.com," "evil.example.net").
  right. reflexivity.
Defined.

End RelayExamples.

Section OversizeExample.
Import JsString Gateway Scenario BigBody.

Lemma length_replicate (n : nat) (c : ascii) :
  String.length (replicate n c) = n.
Proof. induction n as [|n IH]; cbn; [reflexivity|now rewrite IH]. Qed.

Lemma relay_rejects_oversize_witness :
  relay "example.com" httpsHost
    (fun _ => Fetched None (Some "video/mp4") elevenMiB)
    (Some "https://cdn.example.com/f.mp4")
  = ({| status := 413; contentType := None;
        body := "File size exceeds the allowed limit of 10MB" |},
     ["https://cdn.example.com/f.mp4"]).
Proof.
  apply (relay_rejects_oversize "example.com" httpsHost
           (fun _ => Fetched None (Some "video/mp4") elevenMiB)
           "https://cdn.example.com/f.mp4" "cdn.example.com"
           None (Some "video/mp4") elevenMiB "cdn.example.com");
    [discriminate|reflexivity|reflexivity|reflexivity|reflexivity|reflexivity|].
  unfold elevenMiB. rewrite length_replicate, N2Nat.id. reflexivity.
Defined.

End OversizeExample.

(* ===================================================================== *)
(** ** search: what it returns *)
(* ===================================================================== *)

Section SearchFacts.
Import JsString Json Links Provider Search.

Variable stringLessThanOne : string -> bool.

Lemma toMovie_type (item : value) (m : movie) :
  toMovie item = Ok m -> Search.type m = "movie" \/ Search.type m = "series".
Proof.
  unfold toMovie. intros H.
  repeat (apply bind_Ok in H as (? & _ & H)). injection H as <-.
  cbn [Search.type].
  match goal with |- context [match ?v with _ => _ end] => destruct v end;
    auto.
  destruct (String.eqb s "movie"); auto.
Qed.

Lemma pushMovies_types (l : list value) (acc items : list movie) :
  pushMovies l acc = Ok items ->
  Forall (fun m => Search.type m = "movie" \/ Search.type m = "series") acc ->
  Forall (fun m => Search.type m = "movie" \/ Search.type m = "series") items.
Proof.
  revert acc. induction l as [|i rest IH]; intros acc; cbn [pushMovies].
  - now intros [= <-].
  - intros H Hacc. apply bind_Ok in H as (m & Hm & H).
    apply (IH _ H). apply Forall_app. split; [exact Hacc|].
    constructor; [exact (toMovie_type _ _ Hm)|constructor].
Qed.

(** X18.  Every element of the array [search] returns has the type
    "movie" or "series", whatever the provider sent: any item whose
    [type] is not exactly the string "movie" is taken for a series. *)
Theorem search_types (answer : reply) :
  Forall (fun m => Search.type m = "movie" \/ Search.type m = "series")
    (search stringLessThanOne answer).
Proof.
  unfold search. destruct (settle below300 answer) as [data|]; [|constructor].
  destruct (searchTry stringLessThanOne data) as [items|] eqn:E;
    [|constructor].
  unfold searchTry in E.
  apply bind_Ok in E as (total & _ & E). apply bind_Ok in E as (few & _ & E).
  destruct few; [injection E as <-; constructor|].
  apply bind_Ok in E as (r & _ & E). apply bind_Ok in E as (list_ & _ & E).
  apply bind_Ok in E as (l & _ & E).
  apply (pushMovies_types _ _ _ E). constructor.
Qed.

Lemma toMovie_item (item : value) :
  notNullish item = true -> toMovie item = Ok (movieOf item).
Proof. destruct item; try discriminate; reflexivity. Qed.

Lemma pushMovies_items (l : list value) (acc : list movie) :
  forallb notNullish l = true ->
  pushMovies l acc = Ok (acc ++ map movieOf l)%list.
Proof.
  revert acc. induction l as [|i rest IH]; intros acc; cbn [forallb].
  - intros _. cbn. now rewrite app_nil_r.
  - intros H. apply andb_true_iff in H as [Hi Hrest].
    cbn [pushMovies map]. rewrite (toMovie_item _ Hi). cbn [bind].
    rewrite (IH _ Hrest). now rewrite <- app_assoc.
Qed.

Lemma pushMovies_null (l : list value) (acc : list movie) :
  In VNull l -> pushMovies l acc = TypeError.
Proof.
  revert acc. induction l as [|i rest IH]; intros acc; [contradiction|].
  intros [->|Hin]; cbn [pushMovies]; [reflexivity|].
  destruct (toMovie i) as [m|]; cbn [bind]; [now apply IH|reflexivity].
Qed.

Lemma searchTry_items (data r total : value) (l : list value) :
  getProp data "result" = Ok r ->
  getProp r "total_items" = Ok total ->
  lessThanOne stringLessThanOne total = Ok false ->
  getProp r "items" = Ok (VArr l) ->
  searchTry stringLessThanOne data = pushMovies l [].
Proof.
  intros Hr Ht Hlt Hi. unfold searchTry.
  rewrite Hr. cbn [bind]. rewrite Ht.
  destruct data; try discriminate; cbn [bind];
    now rewrite Hlt, ?Hr; cbn [bind]; rewrite Hi.
Qed.

(** X19.  When the provider's reply has a 2xx status, a [total_items]
    that is not below 1 and an array of items none of which is [null],
    [search] returns one movie per item, in the provider's order, with
    the item's [title_en], [image_url] and [id] as they are. *)
Theorem search_one_movie_per_item
    (status : Z) (data r total : value) (l : list value) :
  below300 status = true ->
  getProp data "result" = Ok r ->
  getProp r "total_items" = Ok total ->
  lessThanOne stringLessThanOne total = Ok false ->
  getProp r "items" = Ok (VArr l) ->
  forallb notNullish l = true ->
  search stringLessThanOne (Response status data) = map movieOf l.
Proof.
  intros Hs Hr Ht Hlt Hi Hl. unfold search, settle. rewrite Hs.
  rewrite (searchTry_items _ _ _ _ Hr Ht Hlt Hi).
  now rewrite (pushMovies_items _ _ Hl).
Qed.

(** X20.  [search] is all or nothing: one [null] among the items makes
    it return the empty array, the movies built from the items before it
    included. *)
Theorem search_null_item_loses_all
    (status : Z) (data r total : value) (l : list value) :
  getProp data "result" = Ok r ->
  getProp r "total_items" = Ok total ->
  lessThanOne stringLessThanOne total = Ok false ->
  getProp r "items" = Ok (VArr l) ->
  In VNull l ->
  search stringLessThanOne (Response status data) = [].
Proof.
  intros Hr Ht Hlt Hi Hl. unfold search, settle.
  destruct (below300 status); [|reflexivity].
  rewrite (searchTry_items _ _ _ _ Hr Ht Hlt Hi).
  now rewrite (pushMovies_null _ _ Hl).
Qed.

End SearchFacts.

Section SearchExamples.
Import JsString Json Links Provider Search.

Lemma search_one_movie_per_item_witness :
  search (fun _ => false)
    (Response 200
       (VObj [("result",
               VObj [("total_items", VNum 2);
                     ("items",
                      VArr [VObj [("title_en", VStr "The Matrix");
                                  ("type", VStr "movie"); ("id", VNum 7)];
                            VObj [("title_en", VStr "Matrix");
                                  ("type", VStr "tv"); ("id", VNum 9)]])])]))
  = [{| name := VStr "The Matrix"; poster := VUndefined; type := "movie";
        id := VNum 7 |};
     {| name := VStr "Matrix"; poster := VUndefined; type := "series";
        id := VNum 9 |}].
Proof.
  apply (search_one_movie_per_item (fun _ => false) 200
           (VObj [("result",
                   VObj [("total_items", VNum 2);
                         ("items",
                          VArr [VObj [("title_en", VStr "The Matrix");
                                      ("type", VStr "movie"); ("id", VNum 7)];
                                VObj [("title_en", VStr "Matrix");
                                      ("type", VStr "tv"); ("id", VNum 9)]])])])
           (VObj [("total_items", VNum 2);
                  ("items",
                   VArr [VObj [("title_en", VStr "The Matrix");
                               ("type", VStr "movie"); ("id", VNum 7)];
                         VObj [("title_en", VStr "Matrix");
                               ("type", VStr "tv"); ("id", VNum 9)]])])
           (VNum 2)
           [VObj [("title_en", VStr "The Matrix");
                  ("type", VStr "movie"); ("id", VNum 7)];
            VObj [("title_en", VStr "Matrix");
                  ("type", VStr "tv"); ("id", VNum 9)]]);
    reflexivity.
Defined.

Lemma search_null_item_witness :
  search (fun _ => false)
    (Response 200
       (VObj [("result",
               VObj [("total_items", VNum 2);
                     ("items",
                      VArr [VObj [("title_en", VStr "The Matrix")]; VNull])])]))
  = [].
Proof.
  apply (search_null_item_loses_all (fun _ => false) 200
           (VObj [("result",
                   VObj [("total_items", VNum 2);
                         ("items",
                          VArr [VObj [("title_en", VStr "The Matrix")];
                                VNull])])])
           (VObj [("total_items", VNum 2);
                  ("items",
                   VArr [VObj [("title_en", VStr "The Matrix")]; VNull])])
           (VNum 2)
           [VObj [("title_en", VStr "The Matrix")]; VNull]);
    try reflexivity.
  right. left. reflexivity.
Defined.

End SearchExamples.

(* ===================================================================== *)
(** ** utils.js: the extractors find what was put in *)
(* ===================================================================== *)

Section UtilsFacts.
Import JsString Utils.

Lemma takeUntil_found (stop : ascii) (s body : string) :
  takeUntil stop s = (body, true) ->
  noChar stop body = true /\ exists rest, s = body ++ String stop rest.
Proof.
  revert body. induction s as [|c r IH]; intros body; cbn [takeUntil].
  - discriminate.
  - destruct (Ascii.eqb c stop) eqn:E.
    + intros [= <-]. apply Ascii.eqb_eq in E. subst c.
      split; [reflexivity|now exists r].
    + destruct (takeUntil stop r) as [b f]. intros [= <- ->].
      destruct (IH b eq_refl) as [Hn [rest ->]].
      split; [cbn; now rewrite E, Hn|now exists rest].
Qed.

Lemma takeUntil_app (stop : ascii) (body rest : string) :
  noChar stop body = true ->
  takeUntil stop (body ++ String stop rest) = (body, true).
Proof.
  induction body as [|c b IH]; cbn [noChar append takeUntil].
  - now rewrite Ascii.eqb_refl.
  - intros H. apply andb_true_iff in H as [Hc Hb].
    apply negb_true_iff in Hc. now rewrite Hc, (IH Hb).
Qed.

Lemma takeUntil_none (stop : ascii) (s : string) :
  noChar stop s = true -> snd (takeUntil stop s) = false.
Proof.
  induction s as [|c r IH]; cbn [noChar takeUntil]; [reflexivity|].
  intros H. apply andb_true_iff in H as [Hc Hr].
  apply negb_true_iff in Hc. rewrite Hc.
  specialize (IH Hr). now destruct (takeUntil stop r).
Qed.

Lemma getBetweenParentheses_found (str group : string) :
  getBetweenParentheses str = Some group ->
  group <> ""
  /\ noChar ")" group = true
  /\ exists before after, str = before ++ "(" ++ group ++ ")" ++ after.
Proof.
  induction str as [|c r IH]; cbn [getBetweenParentheses]; [discriminate|].
  assert (Hrec : getBetweenParentheses r = Some group ->
                 group <> "" /\ noChar ")" group = true
                 /\ exists before after,
                      String c r = before ++ "(" ++ group ++ ")" ++ after).
  { intros H. destruct (IH H) as (Hne & Hn & before & after & ->).
    repeat split; auto. now exists (String c before), after. }
  destruct (Ascii.eqb c "(") eqn:E; [|exact Hrec].
  unfold groupAfterParen.
  destruct (takeUntil ")" r) as [[|d body] [|]] eqn:Et; try exact Hrec.
  intros [= <-]. apply Ascii.eqb_eq in E. subst c.
  destruct (takeUntil_found _ _ _ Et) as [Hn [rest ->]].
  repeat split; [discriminate|exact Hn|].
  now exists "", rest.
Qed.

(** X21.  What [getBetweenParentheses] returns is never empty, holds no
    closing parenthesis, and stands in the string between an opening and
    a closing parenthesis. *)
Theorem getBetweenParentheses_sound (str group : string) :
  getBetweenParentheses str = Some group ->
  group <> ""
  /\ noChar ")" group = true
  /\ exists before after, str = before ++ "(" ++ group ++ ")" ++ after.
Proof. exact (getBetweenParentheses_found str group). Qed.

(** X22.  [getBetweenParentheses] finds the first group: for a text
    without an opening parenthesis, followed by a non-empty group without
    a closing parenthesis in parentheses, it returns that group, whatever
    follows. *)
Theorem getBetweenParentheses_first (before group after : string) :
  noChar "(" before = true ->
  group <> "" ->
  noChar ")" group = true ->
  getBetweenParentheses (before ++ "(" ++ group ++ ")" ++ after) = Some group.
Proof.
  intros Hb Hg Hn. induction before as [|c b IH].
  - cbn [append getBetweenParentheses]. rewrite Ascii.eqb_refl.
    unfold groupAfterParen. rewrite (takeUntil_app _ _ _ Hn).
    destruct group; [contradiction|reflexivity].
  - cbn [noChar] in Hb. apply andb_true_iff in Hb as [Hc Hb].
    apply negb_true_iff in Hc.
    cbn [append getBetweenParentheses]. rewrite Hc. exact (IH Hb).
Qed.

(** X23.  Without an opening parenthesis, or without a closing one,
    [getBetweenParentheses] returns null. *)
Theorem getBetweenParentheses_none (str : string) :
  noChar "(" str = true \/ noChar ")" str = true ->
  getBetweenParentheses str = None.
Proof.
  induction str as [|c r IH]; [reflexivity|].
  cbn [noChar getBetweenParentheses]. intros [H|H];
    apply andb_true_iff in H as [Hc Hr]; apply negb_true_iff in Hc.
  - rewrite Hc. apply IH. now left.
  - rewrite (IH (or_intror Hr)). destruct (Ascii.eqb c "("); [|reflexivity].
    unfold groupAfterParen. pose proof (takeUntil_none _ _ Hr) as Hf.
    destruct (takeUntil ")" r) as [[|d body] f]; cbn in Hf; now subst.
Qed.

Lemma dropPrefix_app (prefix rest : string) :
  dropPrefix prefix (prefix ++ rest) = Some rest.
Proof.
  induction prefix as [|p prefix IH]; cbn; [reflexivity|].
  now rewrite Ascii.eqb_refl.
Qed.

Lemma dropPrefix_Some (prefix s rest : string) :
  dropPrefix prefix s = Some rest -> s = prefix ++ rest.
Proof.
  revert s. induction prefix as [|p prefix IH]; intros s; cbn [dropPrefix].
  - now intros [= <-].
  - destruct s as [|c s]; [discriminate|].
    destruct (Ascii.eqb_spec c p) as [->|]; [|discriminate].
    intros H. now rewrite (IH _ H).
Qed.

(** X24.  [extractImdbId] gives back the id of an IMDb title address:
    for an id without slash and line break, the address made of the
    prefix, the id and a slash yields that id, whatever follows. *)
Theorem extractImdbId_round_trip (id after : string) :
  noChar "/" id = true ->
  noLineTerminator id = true ->
  extractImdbId (imdbTitlePrefix ++ id ++ "/" ++ after) = Some id.
Proof.
  intros Hs Hl.
  assert (H : match dropPrefix imdbTitlePrefix
                      (imdbTitlePrefix ++ id ++ "/" ++ after) with
              | Some rest => groupAfterPrefix rest
              | None => None
              end = Some id).
  { rewrite dropPrefix_app. unfold groupAfterPrefix.
    change (id ++ "/" ++ after) with (id ++ String "/" after).
    now rewrite (takeUntil_app _ _ _ Hs), Hl. }
  destruct (imdbTitlePrefix ++ id ++ "/" ++ after);
    cbn [extractImdbId]; now rewrite H.
Qed.

(** X25.  What [extractImdbId] returns holds no slash and no line break,
    and stands in the address between the IMDb title prefix and a
    slash. *)
Theorem extractImdbId_sound (url group : string) :
  extractImdbId url = Some group ->
  noChar "/" group = true
  /\ noLineTerminator group = true
  /\ exists before after,
       url = before ++ imdbTitlePrefix ++ group ++ "/" ++ after.
Proof.
  assert (Hhere : forall u,
    match dropPrefix imdbTitlePrefix u with
    | Some rest => groupAfterPrefix rest
    | None => None
    end = Some group ->
    noChar "/" group = true /\ noLineTerminator group = true
    /\ exists before after, u = before ++ imdbTitlePrefix ++ group ++ "/" ++ after).
  { intros u H. destruct (dropPrefix imdbTitlePrefix u) as [rest|] eqn:Ed;
      [|discriminate].
    apply dropPrefix_Some in Ed. subst u. unfold groupAfterPrefix in H.
    destruct (takeUntil "/" rest) as [body [|]] eqn:Et; [|discriminate].
    destruct (noLineTerminator body) eqn:El; [|discriminate].
    injection H as <-. destruct (takeUntil_found _ _ _ Et) as [Hn [after ->]].
    repeat split; auto. now exists "", after. }
  induction url as [|c r IH]; cbn [extractImdbId].
  - intros H. apply Hhere.
    destruct (match dropPrefix imdbTitlePrefix "" with
              | Some rest => groupAfterPrefix rest
              | None => None
              end); [exact H|discriminate].
  - destruct (match dropPrefix imdbTitlePrefix (String c r) with
              | Some rest => groupAfterPrefix rest
              | None => None
              end) as [g|] eqn:E.
    + intros [= <-]. now apply Hhere.
    + intros H. destruct (IH H) as (Hs & Hl & before & after & ->).
      repeat split; auto. now exists (String c before), after.
Qed.

Lemma getBetweenParentheses_sound_witness :
  "1999" <> ""
  /\ noChar ")" "1999" = true
  /\ exists before after,
       "The Matrix (1999)" = before ++ "(" ++ "1999" ++ ")" ++ after.
Proof.
  apply (getBetweenParentheses_sound "The Matrix (1999)" "1999"). reflexivity.
Defined.

Lemma getBetweenParentheses_first_witness :
  getBetweenParentheses ("The Matrix " ++ "(" ++ "1999" ++ ")" ++ " (US)")
  = Some "1999".
Proof.
  apply (getBetweenParentheses_first "The Matrix " "1999" " (US)");
    [reflexivity|discriminate|reflexivity].
Defined.

Lemma getBetweenParentheses_none_witness :
  getBetweenParentheses "The Matrix (1999" = None.
Proof.
  apply (getBetweenParentheses_none "The Matrix (1999"). right. reflexivity.
Defined.

Lemma extractImdbId_round_trip_witness :
  extractImdbId (imdbTitlePrefix ++ "tt0133093" ++ "/" ++ "?ref_=nv_sr_1")
  = Some "tt0133093".
Proof.
  apply (extractImdbId_round_trip "tt0133093" "?ref_=nv_sr_1"); reflexivity.
Defined.

Lemma extractImdbId_sound_witness :
  noChar "/" "tt0133093" = true
  /\ noLineTerminator "tt0133093" = true
  /\ exists before after,
       "see https://www.imdb.com/title/tt0133093/ now"
       = before ++ imdbTitlePrefix ++ "tt0133093" ++ "/" ++ after.
Proof.
  apply (extractImdbId_sound "see https://www.imdb.com/title/tt0133093/ now"
           "tt0133093").
  reflexivity.
Defined.

End UtilsFacts.

(* ===================================================================== *)
(** ** The search title: the year is cut off *)
(* ===================================================================== *)

Section SearchTitleFacts.
Import JsString Utils Handler.

Lemma noChar_trimStart (x : ascii) (s : string) :
  noChar x s = true -> noChar x (trimStart s) = true.
Proof.
  induction s as [|c r IH]; cbn [noChar trimStart]; [reflexivity|].
  intros H. destruct (isWhiteSpace c); [|exact H].
  apply andb_true_iff in H as [_ H]. exact (IH H).
Qed.

Lemma yearHere_noParen (s : string) :
  noChar "(" s = true -> yearHere s = false.
Proof.
  intros H. apply noChar_trimStart in H. unfold yearHere.
  destruct (trimStart s) as [|p [|a [|b [|c [|d [|q rest]]]]]]; try reflexivity.
  cbn [noChar] in H. apply andb_true_iff in H as [H _].
  apply negb_true_iff in H. now rewrite H.
Qed.

Lemma removeYear_noParen (s : string) :
  noChar "(" s = true -> removeYear s = s.
Proof.
  induction s as [|c r IH]; [reflexivity|].
  intros H. cbn [removeYear]. rewrite (yearHere_noParen _ H).
  cbn [noChar] in H. apply andb_true_iff in H as [_ H]. now rewrite (IH H).
Qed.

Lemma trimStart_app_paren (r rest : string) :
  noChar "(" r = true ->
  trimStart (r ++ " (" ++ rest)
  = match trimStart r with
    | EmptyString => "(" ++ rest
    | t => t ++ " (" ++ rest
    end.
Proof.
  induction r as [|c r IH]; [reflexivity|].
  cbn [noChar]. intros H. apply andb_true_iff in H as [_ H].
  cbn [append trimStart]. destruct (isWhiteSpace c); [exact (IH H)|reflexivity].
Qed.

Lemma yearHere_after (r year tail : string) :
  noChar "(" r = true -> isYear year = true -> noLineTerminator tail = true ->
  yearHere (r ++ " (" ++ year ++ ")" ++ tail)
  = String.eqb (trimStart r) "".
Proof.
  intros Hr Hy Ht. unfold yearHere. rewrite (trimStart_app_paren _ _ Hr).
  apply noChar_trimStart in Hr.
  destruct (trimStart r) as [|p t].
  - destruct year as [|a [|b [|c [|d [|]]]]]; try discriminate.
    cbn in Hy |- *. now rewrite Hy, Ht.
  - cbn [noChar] in Hr. apply andb_true_iff in Hr as [Hp _].
    apply negb_true_iff in Hp. cbn [append String.eqb]. rewrite Hp.
    set (after := t ++ _).
    now destruct after as [|a [|b [|c [|d [|q rest]]]]].
Qed.

Lemma trimEnd_empty_iff (s : string) :
  trimEnd s = "" <-> trimStart s = "".
Proof.
  induction s as [|c r IH]; [tauto|]. cbn [trimEnd trimStart].
  destruct (isWhiteSpace c).
  - destruct (trimEnd r); [tauto|]. split; [discriminate|].
    intros H. apply IH in H. discriminate.
  - destruct (trimEnd r); split; discriminate.
Qed.

Lemma removeYear_cons (c : ascii) (r : string) :
  removeYear (String c r)
  = if yearHere (String c r) then EmptyString else String c (removeYear r).
Proof. reflexivity. Qed.

Lemma removeYear_after (title year tail : string) :
  noChar "(" title = true -> isYear year = true ->
  noLineTerminator tail = true ->
  removeYear (title ++ " (" ++ year ++ ")" ++ tail) = trimEnd title.
Proof.
  intros Hti Hy Ht. induction title as [|c r IH].
  - assert (H0 : yearHere (String " " ("(" ++ year ++ ")" ++ tail)) = true)
      by exact (yearHere_after "" year tail eq_refl Hy Ht).
    change (removeYear (String " " ("(" ++ year ++ ")" ++ tail)) = "").
    now rewrite removeYear_cons, H0.
  - assert (H1 : yearHere (String c (r ++ " (" ++ year ++ ")" ++ tail))
                 = String.eqb (trimStart (String c r)) "")
      by exact (yearHere_after (String c r) year tail Hti Hy Ht).
    cbn [noChar] in Hti. apply andb_true_iff in Hti as [_ Hr].
    specialize (IH Hr).
    change (removeYear (String c (r ++ " (" ++ year ++ ")" ++ tail))
            = trimEnd (String c r)).
    rewrite removeYear_cons, H1, IH.
    cbn [trimStart trimEnd]. pose proof (trimEnd_empty_iff r) as Hiff.
    destruct (isWhiteSpace c).
    + destruct (String.eqb_spec (trimStart r) "") as [E|E].
      * now rewrite (proj2 Hiff E).
      * destruct (trimEnd r); [|reflexivity]. now destruct E; apply Hiff.
    + cbn [String.eqb]. now destruct (trimEnd r).
Qed.

Lemma trimStart_trimEnd (s : string) :
  trimStart (trimEnd s) = trimEnd (trimStart s).
Proof.
  induction s as [|c r IH]; [reflexivity|]. cbn [trimStart trimEnd].
  destruct (isWhiteSpace c) eqn:E.
  - rewrite <- IH. destruct (trimEnd r); [reflexivity|].
    cbn [trimStart]. now rewrite E.
  - cbn [trimEnd].
    destruct (trimEnd r); cbn [trimStart]; now rewrite E.
Qed.

(** X26.  The search title is the catalogue's title without its year:
    for a title without an opening parenthesis, followed by a space, a
    year of four digits in parentheses and anything on the same line,
    [searchTitle] is the title, trimmed; and a title without an opening
    parenthesis is only trimmed. *)
Theorem searchTitleOf_cuts_year :
  (forall title year tail,
     noChar "(" title = true -> isYear year = true ->
     noLineTerminator tail = true ->
     searchTitleOf (title ++ " (" ++ year ++ ")" ++ tail) = trim title)
  /\ (forall title, noChar "(" title = true -> searchTitleOf title = trim title).
Proof.
  unfold searchTitleOf, trim. split.
  - intros title year tail Hti Hy Ht.
    rewrite (removeYear_after _ _ _ Hti Hy Ht).
    now rewrite trimStart_trimEnd, trimEnd_idempotent.
  - intros title Hti. now rewrite (removeYear_noParen _ Hti).
Qed.

Lemma searchTitleOf_cuts_year_witness :
  searchTitleOf ("Inception" ++ " (" ++ "2010" ++ ")" ++ " [4K]")
  = trim "Inception".
Proof.
  apply (proj1 searchTitleOf_cuts_year "Inception" "2010" " [4K]");
    reflexivity.
Defined.

End SearchTitleFacts.

(* ===================================================================== *)
(** ** The stream handler: what it answers and what it asks *)
(* ===================================================================== *)

Section HandlerFacts.
Import JsString Title Json Links Provider Search Matcher Utils Uri Handler.
Import NormalForm.

Variable configureNotice loginNotice fallbackTitle : string.
Variable cinemeta : string -> string -> value.
Variable net : nat -> request -> reply.
Variable searchNet : string -> reply.
Variable stringLessThanOne : string -> bool.
Variable PROXY_ENABLE PROXY_URL PROXY_PATH : option string.

Abbreviation handler :=
  (streamHandler configureNotice loginNotice fallbackTitle cinemeta net
     searchNet stringLessThanOne PROXY_ENABLE PROXY_URL PROXY_PATH).
Abbreviation detailStreams :=
  (streamsOfDetail fallbackTitle PROXY_ENABLE PROXY_URL PROXY_PATH).

#[local] Ltac split_case :=
  match goal with
  | |- context [match ?x with _ => _ end] =>
      lazymatch x with
      | context [match _ with _ => _ end] => fail
      | _ => destruct x eqn:?
      end
  end.

Lemma login_no_detail (st : state) :
  exists sent,
    calls (snd (login net st)) = (calls st ++ sent)%list
    /\ Forall (fun r => isDetail r = false) sent.
Proof.
  unfold login, isLogin, mbind, getSelf, ret, axios, setTokens. cbn beta.
  repeat (split_case;
          cbn [fst snd self calls token refreshToken username password
               negb orb andb]);
    first [ exists []; split; [now rewrite app_nil_r|constructor]
          | rewrite <- ?app_assoc; eexists; split; [reflexivity|];
            repeat constructor ].
Qed.

Lemma getMovieData_sent (fuel : nat) (id : value) (st : state) :
  exists sent,
    calls (snd (getMovieData net fuel id st)) = (calls st ++ sent)%list
    /\ Forall (fun r => match r with
                        | GetMovieDetail _ i => i = id
                        | _ => True
                        end) sent.
Proof.
  revert st. induction fuel as [|fuel IH]; intros st.
  - exists []. split; [cbn; now rewrite app_nil_r|constructor].
  - cbn [getMovieData]. unfold mbind, getSelf, axios, ret. cbn beta.
    destruct (toString id) as [text|];
      [|exists []; split; [cbn; now rewrite app_nil_r|constructor]].
    set (st1 := {| self := self st;
                   calls := (calls st ++ [GetMovieDetail (token (self st)) id])%list |}).
    assert (Hdone : forall r : option value,
              exists sent,
                calls (snd (r, st1)) = (calls st ++ sent)%list
                /\ Forall (fun r => match r with
                                    | GetMovieDetail _ i => i = id
                                    | _ => True
                                    end) sent).
    { intros r. exists [GetMovieDetail (token (self st)) id].
      split; [reflexivity|]. now repeat constructor. }
    destruct (net (List.length (calls st)) (GetMovieDetail (token (self st)) id))
      as [status data|]; [|apply Hdone].
    destruct (below300 status).
    { destruct (truthy (getPropOpt data "status")); apply Hdone. }
    destruct ((status =? 401) || (status =? 403))%Z; [|apply Hdone].
    destruct (login_no_detail st1) as (sentL & HL & HnoL).
    destruct (login net st1) as [relogin st2]. cbn [snd] in HL.
    destruct relogin; [|].
    + destruct (IH st2) as (sent & Hs & Hall).
      exists ([GetMovieDetail (token (self st)) id] ++ sentL ++ sent)%list.
      split.
      * rewrite Hs, HL. subst st1. cbn [calls]. now rewrite <- !app_assoc.
      * apply Forall_app. split; [now repeat constructor|].
        apply Forall_app. split; [|exact Hall].
        revert HnoL. apply Forall_impl. intros [] Hr; try exact I.
        discriminate Hr.
    + exists ([GetMovieDetail (token (self st)) id] ++ sentL)%list. split.
      * cbn [snd]. rewrite HL. subst st1. cbn [calls]. now rewrite <- app_assoc.
      * apply Forall_app. split; [now repeat constructor|].
        revert HnoL. apply Forall_impl. intros [] Hr; try exact I.
        discriminate Hr.
Qed.

Lemma decorate_title (l l' : link) :
  decorate fallbackTitle PROXY_ENABLE PROXY_URL PROXY_PATH l = Ok l' ->
  startsWith (title l') "[DigiMovie] " = true.
Proof.
  unfold decorate. destruct (proxyEnabled PROXY_ENABLE).
  - intros H. apply bind_Ok in H as (u & _ & H). injection H as <-.
    reflexivity.
  - intros [= <-]. reflexivity.
Qed.

Lemma encodeChar_safe (c : ascii) :
  allChars (fun x => isUnreserved x || Ascii.eqb x "%") (encodeChar c) = true.
Proof. destruct c as [[] [] [] [] [] [] [] []]; reflexivity. Qed.

Lemma encodeURIComponent_safe (s : string) :
  allChars (fun x => isUnreserved x || Ascii.eqb x "%") (encodeURIComponent s)
  = true.
Proof.
  induction s as [|c r IH]; [reflexivity|]. cbn [encodeURIComponent].
  now rewrite allChars_app, encodeChar_safe, IH.
Qed.

Lemma decode_encodeChar (c : ascii) (t : string) :
  decodeURIComponent (encodeChar c ++ t)
  = option_map (String c) (decodeURIComponent t).
Proof. destruct c as [[] [] [] [] [] [] [] []]; reflexivity. Qed.

(** What was encoded is what the proxy decodes. *)
Lemma decode_encode (s : string) :
  decodeURIComponent (encodeURIComponent s) = Some s.
Proof.
  induction s as [|c r IH]; [reflexivity|]. cbn [encodeURIComponent].
  now rewrite decode_encodeChar, IH.
Qed.

Lemma decorate_url (l l' : link) :
  proxyEnabled PROXY_ENABLE = true ->
  decorate fallbackTitle PROXY_ENABLE PROXY_URL PROXY_PATH l = Ok l' ->
  throughProxy PROXY_URL PROXY_PATH l' l.
Proof.
  unfold decorate. intros ->. intros H.
  apply bind_Ok in H as (u & Hu & H). injection H as <-.
  exists u. repeat split;
    [exact Hu|apply encodeURIComponent_safe|apply decode_encode].
Qed.

Lemma decorateAll_Forall2 (R : link -> link -> Prop)
    (links decorated : list link) :
  (forall l l',
     decorate fallbackTitle PROXY_ENABLE PROXY_URL PROXY_PATH l = Ok l' ->
     R l' l) ->
  decorateAll fallbackTitle PROXY_ENABLE PROXY_URL PROXY_PATH links
  = Ok decorated ->
  Forall2 R decorated links.
Proof.
  intros HR. revert decorated.
  induction links as [|l rest IH]; intros decorated; cbn [decorateAll].
  - intros [= <-]. constructor.
  - intros H. apply bind_Ok in H as (l' & Hl & H).
    apply bind_Ok in H as (rest' & Hrest & H). injection H as <-.
    constructor; eauto.
Qed.

Lemma decorateAll_Forall (P : link -> Prop) (links decorated : list link) :
  (forall l l',
     decorate fallbackTitle PROXY_ENABLE PROXY_URL PROXY_PATH l = Ok l' ->
     P l') ->
  decorateAll fallbackTitle PROXY_ENABLE PROXY_URL PROXY_PATH links
  = Ok decorated ->
  Forall P decorated.
Proof.
  intros HP. revert decorated.
  induction links as [|l rest IH]; intros decorated; cbn [decorateAll].
  - intros [= <-]. constructor.
  - intros H. apply bind_Ok in H as (l' & Hl & H).
    apply bind_Ok in H as (rest' & Hrest & H). injection H as <-.
    constructor; eauto.
Qed.

Lemma streamsOfDetail_Forall (P : link -> Prop) (type id : string)
    (movieDetails : value) :
  (forall l l',
     decorate fallbackTitle PROXY_ENABLE PROXY_URL PROXY_PATH l = Ok l' ->
     P l') ->
  Forall P (detailStreams type id movieDetails).
Proof.
  intros HP. unfold streamsOfDetail.
  destruct (truthy movieDetails); [|constructor].
  destruct (getLinks type id movieDetails) as [links|]; [|constructor].
  destruct (decorateAll _ _ _ _ links) as [decorated|] eqn:E; [|constructor].
  exact (decorateAll_Forall P _ _ HP E).
Qed.

(** The answers of the handler, case by case. *)
Lemma handler_streams (fuel : nat) (type id : string) (userConfig : value)
    (l : list link) :
  streams (handler fuel type id userConfig) = Some l ->
  l = notice configureNotice \/ l = notice loginNotice \/ l = []
  \/ exists movieDetails, l = detailStreams type id movieDetails.
Proof.
  unfold streamHandler.
  repeat (split_case; cbn [streams negb orb]);
    try (intros [= <-]; tauto).
  match goal with
  | |- context [option_map _ ?o] => destruct o as [md|]
  end; cbn [option_map]; [|discriminate].
  intros [= <-]. right. right. right. now exists md.
Qed.

(** X27.  Every stream the handler sends that is not one of its two
    notices has a title that starts with "[DigiMovie] ". *)
Theorem handler_titles_are_tagged (fuel : nat) (type id : string)
    (userConfig : value) (l : list link) :
  streams (handler fuel type id userConfig) = Some l ->
  l = notice configureNotice \/ l = notice loginNotice
  \/ Forall (fun s => startsWith (title s) "[DigiMovie] " = true) l.
Proof.
  intros H. destruct (handler_streams _ _ _ _ _ H) as [->|[->|[->|[md ->]]]];
    [now left|now right; left|right; right; constructor|].
  right. right. apply streamsOfDetail_Forall. exact decorate_title.
Qed.

(** X28.  With the proxy switched on, the streams that are not a notice
    are the links of a detail, one stream per link and in their order, and
    the url of each is the proxy's address, "?url=" and the link's url
    encoded.  The encoded part holds only letters, digits,
    [- _ . ! ~ * ' ( )] and the percent sign, and decoding it gives the
    link's url back: the whole link arrives as the one parameter of the
    proxy. *)
Theorem handler_urls_go_through_proxy (fuel : nat) (type id : string)
    (userConfig : value) (l : list link) :
  proxyEnabled PROXY_ENABLE = true ->
  streams (handler fuel type id userConfig) = Some l ->
  l = notice configureNotice \/ l = notice loginNotice \/ l = []
  \/ exists movieDetails links,
       getLinks type id movieDetails = Ok links
       /\ Forall2
            (fun s link =>
               exists u,
                 toString (url link) = Ok u
                 /\ url s = VStr (envText PROXY_URL ++ "/" ++ envText PROXY_PATH
                                  ++ "?url=" ++ encodeURIComponent u)
                 /\ allChars (fun x => isUnreserved x || Ascii.eqb x "%")
                      (encodeURIComponent u) = true
                 /\ decodeURIComponent (encodeURIComponent u) = Some u)
            l links.
Proof.
  intros Hp H.
  destruct (handler_streams _ _ _ _ _ H) as [->|[->|[->|[md ->]]]];
    [now left|now right; left|now right; right; left|].
  right. right. unfold streamsOfDetail.
  destruct (truthy md); [|now left].
  destruct (getLinks type id md) as [links|] eqn:El; [|now left].
  destruct (decorateAll _ _ _ _ links) as [decorated|] eqn:Ed; [|now left].
  right. exists md, links. split; [exact El|].
  exact (decorateAll_Forall2 (throughProxy PROXY_URL PROXY_PATH) _ _
           (fun a b => decorate_url a b Hp) Ed).
Qed.

(** X29.  The two early exits.  Without a configuration, a user name or
    a password the handler answers the notice to configure and asks
    nothing, not even the catalogue.  When the login fails it answers the
    login notice, having asked the catalogue and sent the login's
    requests only: no search, no detail. *)
Theorem handler_early_exits :
  (forall fuel type id userConfig,
     truthy userConfig = false
     \/ truthy (getPropOpt userConfig "digiUser") = false
     \/ truthy (getPropOpt userConfig "digiPass") = false ->
     handler fuel type id userConfig
     = {| streams := Some (notice configureNotice); events := [] |})
  /\ (forall fuel type id userConfig originalTitle,
        truthy userConfig = true ->
        truthy (getPropOpt userConfig "digiUser") = true ->
        truthy (getPropOpt userConfig "digiPass") = true ->
        getPropOpt (getPropOpt (cinemeta type (hd "" (split ":" id))) "meta")
          "name" = VStr originalTitle ->
        originalTitle <> "" ->
        fst (login net
               {| self := {| username := getPropOpt userConfig "digiUser";
                             password := getPropOpt userConfig "digiPass";
                             token := VStr ""; refreshToken := VStr "" |};
                  calls := [] |}) = false ->
        handler fuel type id userConfig
        = {| streams := Some (notice loginNotice);
             events :=
               AskCinemeta type (hd "" (split ":" id))
               :: map AskProvider
                    (calls (snd (login net
                       {| self := {| username := getPropOpt userConfig "digiUser";
                                     password := getPropOpt userConfig "digiPass";
                                     token := VStr "";
                                     refreshToken := VStr "" |};
                          calls := [] |}))) |}).
Proof.
  split.
  - intros fuel type id userConfig H. unfold streamHandler.
    destruct H as [-> | [-> | ->]]; cbn [negb orb]; rewrite ?orb_true_r;
      reflexivity.
  - intros fuel type id userConfig originalTitle Hc Hu Hp Hname Hne Hlogin.
    unfold streamHandler. rewrite Hc, Hu, Hp, Hname. cbn [negb orb].
    destruct (String.eqb_spec originalTitle ""); [contradiction|].
    destruct (login net _) as [loggedIn st]. cbn [fst snd] in *.
    now subst loggedIn.
Qed.

Lemma scoreMovies_In (type target : string) (results : list movie)
    (scored_ : list (scored movie)) (best : scored movie) :
  scoreMovies type target results = Ok scored_ ->
  In best scored_ ->
  In (item best) results /\ scoreMovie type target (item best) = Ok (score best).
Proof.
  revert scored_. induction results as [|m rest IH]; intros scored_;
    cbn [scoreMovies].
  - intros [= <-] [].
  - intros H Hin. apply bind_Ok in H as (s & Hs & H).
    apply bind_Ok in H as (sr & Hsr & H). injection H as <-.
    destruct Hin as [<-|Hin].
    + split; [now left|exact Hs].
    + destruct (IH _ Hsr Hin). split; [now right|assumption].
Qed.

Lemma skipn_app_length {A : Type} (a b : list A) :
  skipn (List.length a) (a ++ b) = b.
Proof. induction a as [|x a IH]; [reflexivity|exact IH]. Qed.

(** X30.  The handler requests a detail only for a search result with a
    positive score: every [get_movie_detail] request it sends carries
    the id of a movie that [search] returned for the search title and
    whose score is above 0. *)
Theorem handler_detail_only_for_positive_score
    (fuel : nat) (type id : string) (userConfig : value)
    (authorization movie_id : value) :
  In (AskProvider (GetMovieDetail authorization movie_id))
     (events (handler fuel type id userConfig)) ->
  exists originalTitle m z,
    getPropOpt (getPropOpt (cinemeta type (hd "" (split ":" id))) "meta") "name"
    = VStr originalTitle
    /\ In m (search stringLessThanOne (searchNet (searchTitleOf originalTitle)))
    /\ scoreMovie type (normalizeTitle (searchTitleOf originalTitle)) m = Ok z
    /\ (0 < z)%Z
    /\ movie_id = Search.id m.
Proof.
  unfold streamHandler.
  destruct (negb (truthy userConfig) || _ || _); [intros []|].
  destruct (getPropOpt (getPropOpt _ "meta") "name") as [| | | |title| |] eqn:En;
    try (cbn; intros [H|[]]; discriminate H).
  destruct (String.eqb title ""); [cbn; intros [H|[]]; discriminate H|].
  set (st0 := {| self := _; calls := [] |}).
  destruct (login_no_detail st0) as (sentL & HL & HnoL).
  destruct (login net st0) as [loggedIn st]. cbn [snd calls] in HL.
  subst st0. cbn [calls app] in HL.
  assert (Hlogin : forall more,
            In (AskProvider (GetMovieDetail authorization movie_id))
               (([AskCinemeta type (hd "" (split ":" id))]
                 ++ map AskProvider (calls st)) ++ more)%list ->
            In (AskProvider (GetMovieDetail authorization movie_id)) more).
  { intros more H. apply in_app_or in H as [H|H]; [exfalso|exact H].
    apply in_app_or in H as [[H|[]]|H]; [discriminate H|].
    apply in_map_iff in H as (r & Hr & Hin). injection Hr as ->.
    rewrite HL in Hin. rewrite Forall_forall in HnoL.
    specialize (HnoL _ Hin). discriminate HnoL. }
  destruct loggedIn; cbn [negb events].
  2:{ intros H. rewrite <- (app_nil_r (_ ++ map _ _)) in H.
      destruct (Hlogin [] H). }
  destruct (scoreMovies _ _ _) as [scored_|] eqn:Es; cbn [events].
  2:{ intros H. apply Hlogin in H as [H|[]]. discriminate H. }
  destruct (hd_error (sortByScore scored_)) as [best|] eqn:Eb; cbn [events].
  2:{ intros H. apply Hlogin in H as [H|[]]. discriminate H. }
  destruct (Z.ltb_spec 0 (score best)) as [Hpos|_]; cbn [events].
  2:{ intros H. apply Hlogin in H as [H|[]]. discriminate H. }
  destruct (getMovieData_sent fuel (Search.id (item best)) st)
    as (sent & Hs & Hall).
  destruct (getMovieData net fuel (Search.id (item best)) st) as [md st'].
  cbn [snd] in Hs. cbn [events]. rewrite Hs, skipn_app_length.
  intros H. rewrite <- app_assoc in H. apply Hlogin in H.
  apply in_app_or in H as [[H|[]]|H]; [discriminate H|].
  apply in_map_iff in H as (r & Hr & Hin). injection Hr as ->.
  rewrite Forall_forall in Hall. specialize (Hall _ Hin). cbn in Hall.
  destruct (hd_sortByScore _ _ Eb) as (before & after & Hl & _ & _).
  destruct (scoreMovies_In _ _ _ _ best Es) as [Hm Hz].
  { rewrite Hl. apply in_elt. }
  exists title, (item best), (score best). repeat split; auto.
Qed.

End HandlerFacts.

Section HandlerExamples.
Import JsString Title Json Links Provider Search Matcher Utils Uri Handler.
Import NormalForm Demo.

(** The request of [Demo]: the film is found behind its sequel, its one
    download is sent through the proxy. *)
Example demoRequest_answer :
  demoRequest
  = {| streams :=
         Some [{| url := VStr "https://proxy.example.com/relay?url=https%3A%2F%2Fhost%2Ff.mkv";
                  title := "[DigiMovie] 1080p - 2GB - x265 - WEB" |}];
       events :=
         [AskCinemeta "movie" "tt0133093";
          AskProvider (PostLogin (VStr "user") (VStr "secret"));
          AskSearch "The Matrix";
          AskProvider (GetMovieDetail (VStr "token-1") (VNum 7))] |}.
Proof. reflexivity. Qed.

Lemma handler_titles_witness :
  [{| url := VStr "https://proxy.example.com/relay?url=https%3A%2F%2Fhost%2Ff.mkv";
      title := "[DigiMovie] 1080p - 2GB - x265 - WEB" |}]
  = notice "configure the add-on first"
  \/ [{| url := VStr "https://proxy.example.com/relay?url=https%3A%2F%2Fhost%2Ff.mkv";
         title := "[DigiMovie] 1080p - 2GB - x265 - WEB" |}]
     = notice "login failed"
  \/ Forall (fun s => startsWith (title s) "[DigiMovie] " = true)
       [{| url := VStr "https://proxy.example.com/relay?url=https%3A%2F%2Fhost%2Ff.mkv";
           title := "[DigiMovie] 1080p - 2GB - x265 - WEB" |}].
Proof.
  apply (handler_titles_are_tagged "configure the add-on first" "login failed"
           "stream" demoCinemeta demoProvider demoSearch (fun _ => false)
           (Some "true") (Some "https://proxy.example.com") (Some "relay")
           1 "movie" "tt0133093" demoConfig).
  reflexivity.
Defined.

Lemma handler_urls_witness :
  [{| url := VStr "https://proxy.example.com/relay?url=https%3A%2F%2Fhost%2Ff.mkv";
      title := "[DigiMovie] 1080p - 2GB - x265 - WEB" |}]
  = notice "configure the add-on first"
  \/ [{| url := VStr "https://proxy.example.com/relay?url=https%3A%2F%2Fhost%2Ff.mkv";
         title := "[DigiMovie] 1080p - 2GB - x265 - WEB" |}]
     = notice "login failed"
  \/ [{| url := VStr "https://proxy.example.com/relay?url=https%3A%2F%2Fhost%2Ff.mkv";
         title := "[DigiMovie] 1080p - 2GB - x265 - WEB" |}]
     = []
  \/ exists movieDetails links,
       getLinks "movie" "tt0133093" movieDetails = Ok links
       /\ Forall2
            (fun s link =>
               exists u,
                 toString (url link) = Ok u
                 /\ url s = VStr (envText (Some "https://proxy.example.com")
                                  ++ "/" ++ envText (Some "relay")
                                  ++ "?url=" ++ encodeURIComponent u)
                 /\ allChars (fun x => isUnreserved x || Ascii.eqb x "%")
                      (encodeURIComponent u) = true
                 /\ decodeURIComponent (encodeURIComponent u) = Some u)
            [{| url := VStr "https://proxy.example.com/relay?url=https%3A%2F%2Fhost%2Ff.mkv";
                title := "[DigiMovie] 1080p - 2GB - x265 - WEB" |}]
            links.
Proof.
  apply (handler_urls_go_through_proxy "configure the add-on first"
           "login failed" "stream" demoCinemeta demoProvider demoSearch
           (fun _ => false) (Some "true") (Some "https://proxy.example.com")
           (Some "relay") 1 "movie" "tt0133093" demoConfig);
    reflexivity.
Defined.

Lemma handler_early_exits_witness :
  streamHandler "configure the add-on first" "login failed" "stream"
    demoCinemeta demoProvider demoSearch (fun _ => false)
    (Some "true") (Some "https://proxy.example.com") (Some "relay")
    1 "movie" "tt0133093" (VObj [("digiUser", VStr "user")])
  = {| streams := Some (notice "configure the add-on first"); events := [] |}.
Proof.
  apply (proj1 (handler_early_exits "configure the add-on first" "login failed"
                  "stream" demoCinemeta demoProvider demoSearch (fun _ => false)
                  (Some "true") (Some "https://proxy.example.com")
                  (Some "relay"))
           1 "movie" "tt0133093" (VObj [("digiUser", VStr "user")])).
  right. right. reflexivity.
Defined.

Lemma handler_detail_witness :
  exists originalTitle m z,
    getPropOpt
      (getPropOpt (demoCinemeta "movie" (hd "" (split ":" "tt0133093"))) "meta")
      "name" = VStr originalTitle
    /\ In m (search (fun _ => false) (demoSearch (searchTitleOf originalTitle)))
    /\ scoreMovie "movie" (normalizeTitle (searchTitleOf originalTitle)) m = Ok z
    /\ (0 < z)%Z
    /\ VNum 7 = Search.id m.
Proof.
  apply (handler_detail_only_for_positive_score "configure the add-on first"
           "login failed" "stream" demoCinemeta demoProvider demoSearch
           (fun _ => false) (Some "true") (Some "https://proxy.example.com")
           (Some "relay") 1 "movie" "tt0133093" demoConfig
           (VStr "token-1") (VNum 7)).
  right. right. right. left. reflexivity.
Defined.

End HandlerExamples.
